(** * ocsarchive-iiif: request normalization and the generation workflows

    A shallow embedding of

    - [api/routes.py]: [normalize_region], [normalize_size],
      [get_image_information], [get_image];
    - [api/utils.py]: [get_frame_dimensions];
    - [api/schema.py]: the pydantic models those functions build and read,
      the string forms of [PixelRegion] and [PixelSize];
    - [temporal/workflows/workflows.py]: [GetFrameDimensions], [CreateImage];
    - [temporal/activities/activities.py]: [download_frame_file],
      [get_hdu_dimensions], the crop of [create_image_file], the body and the
      content length of [upload_s3_part], [find_best_worker];
    - [temporal/worker.py]: [generate_worker_specific_task_queue].

    Python [int] is [Z].  Python [float] is IEEE 754 binary64, taken from the
    Standard Library's executable specification ([spec_float] with
    [prec = 53], [emax = 1024]); nothing is idealised to the reals.  A raised
    exception is the [Raise] branch of [result]. *)

From Stdlib Require Import ZArith List String Ascii Bool Lia.
From Stdlib Require Import SpecFloat DecimalString.
From Stdlib Require DecimalPos DecimalZ.
From Equations Require Import Equations.
Import ListNotations.
Open Scope Z_scope.

(** ** Exceptions and results *)

(** The exception classes that occur in the modelled code.  All of them but
    [CancelledError] derive from [Exception]; [asyncio.CancelledError] derives
    from [BaseException] only. *)
Inductive exn : Type :=
| HTTPException (status_code : Z) (detail : string)
| ValidationError (model : string)
| OverflowError
| ValueError
| ZeroDivisionError
| ApplicationError (message : string) (non_retryable : bool)
| ExceptionGroup (message : string)
| OtherException (name : string)
| CancelledError.

(** [isinstance(e, Exception)] *)
Definition isinstance_Exception (e : exn) : bool :=
  match e with
  | CancelledError => false
  | _ => true
  end.

Definition is_HTTPException (e : exn) : bool :=
  match e with
  | HTTPException _ _ => true
  | _ => false
  end.

Inductive result (A : Type) : Type :=
| Ok (a : A)
| Raise (e : exn).
Arguments Ok {A} a.
Arguments Raise {A} e.

Definition bind {A B} (r : result A) (k : A -> result B) : result B :=
  match r with
  | Ok a => k a
  | Raise e => Raise e
  end.

Declare Scope py_scope.
Delimit Scope py_scope with py.
Notation "x <- r ;; k" := (bind r (fun x => k))
  (at level 61, r at next level, right associativity) : py_scope.
Open Scope py_scope.

(** ** Python floats *)

Module PyFloat.

Definition prec : Z := 53.
Definition emax : Z := 1024.

Definition float : Type := spec_float.

(** [float(n)] for an [int] [n]: correctly rounded, [OverflowError] when
    [n] is too large for a double. *)
Definition of_int (n : Z) : result float :=
  match binary_normalize prec emax n 0 false with
  | S754_infinity _ => Raise OverflowError
  | f => Ok f
  end.

(** A literal such as [50.0] or [100]: the double nearest to the integer. *)
Definition lit (n : Z) : float := binary_normalize prec emax n 0 false.

Definition is_zero (f : float) : bool :=
  match f with
  | S754_zero _ => true
  | _ => false
  end.

(** [a * b] on doubles never raises. *)
Definition mul (a b : float) : float := SFmul prec emax a b.

(** [a / b] on doubles raises [ZeroDivisionError] on a zero divisor. *)
Definition truediv (a b : float) : result float :=
  if is_zero b then Raise ZeroDivisionError else Ok (SFdiv prec emax a b).

(** [n * f] with [n : int], [f : float] *)
Definition int_mul (n : Z) (f : float) : result float :=
  a <- of_int n ;; Ok (mul a f).

(** [n / f] with [n : int], [f : float] *)
Definition int_truediv_float (n : Z) (f : float) : result float :=
  a <- of_int n ;; truediv a f.

(** [f / n] with [f : float], [n : int] *)
Definition truediv_int (f : float) (n : Z) : result float :=
  b <- of_int n ;; truediv f b.

(** [a / b] with both operands [int]: CPython returns the double nearest
    to the exact quotient whatever the size of the operands, so the quotient
    is rounded once, from the integers themselves. *)
Definition int_truediv (a b : Z) : result float :=
  if b =? 0 then Raise ZeroDivisionError
  else if a =? 0 then Ok (S754_zero (b <? 0))
  else
    let '(mz, ez, lz) := SFdiv_core_binary prec emax (Z.abs a) 0 (Z.abs b) 0 in
    match binary_round_aux prec emax (xorb (a <? 0) (b <? 0)) mz ez lz with
    | S754_infinity _ => Raise OverflowError
    | f => Ok f
    end.

Definition cond_opp (s : bool) (n : Z) : Z := if s then - n else n.

(** [round(f)]: the nearest integer, ties to the even one. *)
Definition round (f : float) : result Z :=
  match f with
  | S754_zero _ => Ok 0
  | S754_infinity _ => Raise OverflowError
  | S754_nan => Raise ValueError
  | S754_finite s m e =>
      match e with
      | Zneg p =>
          let d := 2 ^ Zpos p in
          let q := Zpos m / d in
          let r := Zpos m mod d in
          let n := match 2 * r ?= d with
                   | Lt => q
                   | Gt => q + 1
                   | Eq => if Z.even q then q else q + 1
                   end in
          Ok (cond_opp s n)
      | _ => Ok (cond_opp s (Zpos m * 2 ^ e))
      end
  end.

(** [math.ceil(f)] *)
Definition ceil (f : float) : result Z :=
  match f with
  | S754_zero _ => Ok 0
  | S754_infinity _ => Raise OverflowError
  | S754_nan => Raise ValueError
  | S754_finite s m e =>
      match e with
      | Zneg p =>
          let d := 2 ^ Zpos p in
          if s then Ok (- (Zpos m / d))
          else Ok (- ((- Zpos m) / d))
      | _ => Ok (cond_opp s (Zpos m * 2 ^ e))
      end
  end.

(** [a >= b] and [a > b] on doubles ([False] when either is a NaN). *)
Definition geb (a b : float) : bool := SFleb b a.
Definition gtb (a b : float) : bool := SFltb b a.

End PyFloat.

(** ** [api/schema.py]: the pydantic models *)

(** The fields of [ImageInfoResponse] that normalization reads. *)
Record ImageInfoResponse : Type := {
  width : Z;
  height : Z;
  max_width : option Z;
  max_height : option Z;
  max_area : option Z
}.

Definition opt_ge1 (o : option Z) : Prop :=
  match o with
  | Some n => 1 <= n
  | None => True
  end.

(** The field constraints ([ge=1]) of [ImageInfoResponse]. *)
Definition ImageInfoResponse_valid (info : ImageInfoResponse) : Prop :=
  1 <= width info /\ 1 <= height info /\
  opt_ge1 (max_width info) /\ opt_ge1 (max_height info) /\
  opt_ge1 (max_area info).

Module PixelRegion.
Record t : Type := { x : Z; y : Z; w : Z; h : Z }.

(** The field constraints: [x, y >= 0] and [w, h >= 1]. *)
Definition fields_ok (x y w h : Z) : bool :=
  (0 <=? x) && (0 <=? y) && (1 <=? w) && (1 <=? h).

Definition valid (r : t) : Prop :=
  fields_ok (x r) (y r) (w r) (h r) = true.

(** [PixelRegion(x=.., y=.., w=.., h=..)]: pydantic validates the fields
    when the model is built. *)
Definition new (x y w h : Z) : result t :=
  if fields_ok x y w h
  then Ok {| x := x; y := y; w := w; h := h |}
  else Raise (ValidationError "PixelRegion").
End PixelRegion.

Module PercentRegion.
Record t : Type := {
  x : PyFloat.float; y : PyFloat.float;
  w : PyFloat.float; h : PyFloat.float
}.

(** The field constraints: [x, y >= 0] and [w, h > 0]. *)
Definition valid (r : t) : Prop :=
  PyFloat.geb (x r) (PyFloat.lit 0) = true /\
  PyFloat.geb (y r) (PyFloat.lit 0) = true /\
  PyFloat.gtb (w r) (PyFloat.lit 0) = true /\
  PyFloat.gtb (h r) (PyFloat.lit 0) = true.
End PercentRegion.

(** [Region = Union[FullRegion, SquareRegion, PercentRegion, PixelRegion]] *)
Inductive Region : Type :=
| FullRegion
| SquareRegion
| PercentRegion (r : PercentRegion.t)
| PixelRegion (r : PixelRegion.t).

(** What [TypeAdapter(Region).validate_python] guarantees of its result. *)
Definition Region_valid (org : Region) : Prop :=
  match org with
  | FullRegion | SquareRegion => True
  | PercentRegion r => PercentRegion.valid r
  | PixelRegion r => PixelRegion.valid r
  end.

(** ** [api/routes.py]: [normalize_region] *)

(** The message of the [HTTPException] raised at line 198. *)
Definition region_out_of_bounds : exn :=
  HTTPException 400 "Region is entirely outside the bounds of image.".

(** [round(n * f)] with [n : int] and [f : float]. *)
Definition round_int_mul (n : Z) (f : PyFloat.float) : result Z :=
  p <- PyFloat.int_mul n f ;; PyFloat.round p.

(** The [if / elif] chain of [normalize_region] (lines 175-195): the
    rectangle [norm] before the bounds check. *)
Definition region_norm (org : Region) (info : ImageInfoResponse)
  : result PixelRegion.t :=
  match org with
  | PixelRegion r => Ok r
  | FullRegion => PixelRegion.new 0 0 (width info) (height info)
  | SquareRegion =>
      let shorter := Z.min (width info) (height info) in
      let center_x := width info / 2 in
      let center_y := height info / 2 in
      PixelRegion.new center_x center_y shorter shorter
  | PercentRegion r =>
      x <- round_int_mul (width info) (PercentRegion.x r) ;;
      y <- round_int_mul (height info) (PercentRegion.y r) ;;
      w <- round_int_mul (width info) (PercentRegion.w r) ;;
      h <- round_int_mul (height info) (PercentRegion.h r) ;;
      PixelRegion.new x y w h
  end.

Definition normalize_region (org : Region) (info : ImageInfoResponse)
  : result PixelRegion.t :=
  norm <- region_norm org info ;;
  if (PixelRegion.x norm >? width info) || (PixelRegion.y norm >? height info)
  then Raise region_out_of_bounds
  else Ok norm.

(** The rectangle the documented percent rule gives:
    each coordinate is [round(dimension * value / 100)]. *)
Definition percent_region_by_rule (r : PercentRegion.t) (info : ImageInfoResponse)
  : result PixelRegion.t :=
  let pct (n : Z) (v : PyFloat.float) : result Z :=
    p <- PyFloat.int_mul n v ;;
    q <- PyFloat.truediv_int p 100 ;;
    PyFloat.round q in
  x <- pct (width info) (PercentRegion.x r) ;;
  y <- pct (height info) (PercentRegion.y r) ;;
  w <- pct (width info) (PercentRegion.w r) ;;
  h <- pct (height info) (PercentRegion.h r) ;;
  PixelRegion.new x y w h.

(** ** [api/schema.py]: sizes *)

Module PixelSize.
Record t : Type := { upscaleable : bool; width : Z; height : Z }.

(** The field constraints: [width, height >= 1]. *)
Definition fields_ok (width height : Z) : bool :=
  (1 <=? width) && (1 <=? height).

Definition valid (s : t) : Prop := fields_ok (width s) (height s) = true.

(** [PixelSize(upscaleable=.., width=.., height=..)] *)
Definition new (upscaleable : bool) (width height : Z) : result t :=
  if fields_ok width height
  then Ok {| upscaleable := upscaleable; width := width; height := height |}
  else Raise (ValidationError "PixelSize").
End PixelSize.

(** [Size = Union[MaxSize, FixedWidthSize, FixedHeightSize, PercentSize,
    PixelSize, PreservedAspectPixelSize]] *)
Inductive Size : Type :=
| MaxSize (upscaleable : bool)
| FixedWidthSize (upscaleable : bool) (width : Z)
| FixedHeightSize (upscaleable : bool) (height : Z)
| PercentSize (upscaleable : bool) (percent : PyFloat.float)
| PixelSize (s : PixelSize.t)
| PreservedAspectPixelSize (upscaleable : bool) (width height : Z).

(** [org.upscaleable] *)
Definition Size_upscaleable (org : Size) : bool :=
  match org with
  | MaxSize u | FixedWidthSize u _ | FixedHeightSize u _ | PercentSize u _
  | PreservedAspectPixelSize u _ _ => u
  | PixelSize s => PixelSize.upscaleable s
  end.

(** What [TypeAdapter(Size).validate_python] guarantees of its result. *)
Definition Size_valid (org : Size) : Prop :=
  match org with
  | MaxSize _ => True
  | FixedWidthSize _ w => 1 <= w
  | FixedHeightSize _ h => 1 <= h
  | PercentSize _ n =>
      PyFloat.gtb n (PyFloat.lit 0) = true /\
      PyFloat.geb (PyFloat.lit 100) n = true
  | PixelSize s => PixelSize.valid s
  | PreservedAspectPixelSize _ w h => 1 <= w /\ 1 <= h
  end.

(** ** [api/routes.py]: [normalize_size] *)

(** [str(n)] for an [int] *)
Definition str (n : Z) : string := NilZero.string_of_int (Z.to_int n).

Definition upscaling_unsupported : exn :=
  HTTPException 501 "Upscaling not supported (yet?).".

(** The five messages of lines 266-294, as the f-strings build them. *)
Definition width_over_region (width region_w : Z) : exn :=
  HTTPException 400
    ("Scale width " ++ str width ++
     " can not be more than cropped region width " ++ str region_w ++ ".").

Definition height_over_region (height region_w : Z) : exn :=
  HTTPException 400
    ("Scale height " ++ str height ++
     " can not be more than cropped region width " ++ str region_w ++ ".").

Definition width_over_limit (width max_w : Z) : exn :=
  HTTPException 400
    ("Scale width " ++ str width ++
     " can not be more than the limit " ++ str max_w ++ ".").

Definition height_over_limit (height max_h : Z) : exn :=
  HTTPException 400
    ("Scale height " ++ str height ++
     " can not be more than the limit " ++ str max_h ++ ".").

Definition area_over_limit (area max_area : Z) : exn :=
  HTTPException 400
    ("Scale area (width x height) " ++ str area ++
     " can not be more than the limit " ++ str max_area ++ ".").

(** [o or 0] for an optional [int] *)
Definition or_0 (o : option Z) : Z :=
  match o with
  | Some n => if n =? 0 then 0 else n
  | None => 0
  end.

(** [(m := o) is not None and v > m] *)
Definition over (v : Z) (o : option Z) : option Z :=
  match o with
  | Some m => if v >? m then Some m else None
  | None => None
  end.

(** Lines 266-296: the checks every computed size goes through, in the order
    of the source. *)
Definition size_checks (norm : PixelSize.t) (region : PixelRegion.t)
  (info : ImageInfoResponse) : result PixelSize.t :=
  if PixelSize.width norm >? PixelRegion.w region then
    Raise (width_over_region (PixelSize.width norm) (PixelRegion.w region))
  else if PixelSize.height norm >? PixelRegion.h region then
    Raise (height_over_region (PixelSize.height norm) (PixelRegion.w region))
  else
    match over (PixelSize.width norm) (max_width info) with
    | Some max_w => Raise (width_over_limit (PixelSize.width norm) max_w)
    | None =>
    match over (PixelSize.height norm) (max_height info) with
    | Some max_h => Raise (height_over_limit (PixelSize.height norm) max_h)
    | None =>
    match over (PixelSize.width norm * PixelSize.height norm) (max_area info) with
    | Some max_a =>
        Raise (area_over_limit (PixelSize.width norm * PixelSize.height norm) max_a)
    | None => Ok norm
    end end end.

(** The branches of lines 212-238, which do not call [normalize_size]. *)
Definition size_norm (org : Size) (region_aspect : PyFloat.float)
  (region : PixelRegion.t) (info : ImageInfoResponse) : result PixelSize.t :=
  match org with
  | PixelSize s => Ok s
  | MaxSize _ =>
      let w := Z.max (PixelRegion.w region) (or_0 (max_width info)) in
      let h := Z.max (PixelRegion.h region) (or_0 (max_height info)) in
      PixelSize.new false w h
  | FixedWidthSize _ width =>
      let w := width in
      q <- PyFloat.int_truediv_float width region_aspect ;;
      h <- PyFloat.round q ;;
      PixelSize.new false w h
  | FixedHeightSize _ height =>
      let h := height in
      p <- PyFloat.int_mul h region_aspect ;;
      w <- PyFloat.round p ;;
      PixelSize.new false w h
  | PercentSize _ percent =>
      pct <- PyFloat.truediv_int percent 100 ;;
      pw <- PyFloat.int_mul (PixelRegion.w region) pct ;;
      w <- PyFloat.round pw ;;
      ph <- PyFloat.int_mul (PixelRegion.h region) pct ;;
      h <- PyFloat.round ph ;;
      PixelSize.new false w h
  | PreservedAspectPixelSize _ _ _ => Raise (OtherException "AssertionError")
  end.

(** [min(a, b, c)] *)
Definition min3 (a b c : Z) : Z := Z.min (Z.min a b) c.

(** The measure of the recursion: only [PreservedAspectPixelSize] calls
    [normalize_size] again, on a [FixedWidthSize] and a [FixedHeightSize]. *)
Definition Size_rank (org : Size) : nat :=
  match org with
  | PreservedAspectPixelSize _ _ _ => 1
  | _ => 0
  end.

Equations normalize_size (org : Size) (region : PixelRegion.t)
  (info : ImageInfoResponse) : result PixelSize.t by wf (Size_rank org) lt :=
normalize_size (PreservedAspectPixelSize upscaleable width height) region info :=
  if upscaleable then Raise upscaling_unsupported else
  region_aspect <- PyFloat.int_truediv (PixelRegion.w region) (PixelRegion.h region) ;;
  norm <-
    (let cap_w := min3 width (PixelRegion.w region) (or_0 (max_width info)) in
     norm_max_w <-
       (if 1 <=? cap_w
        then normalize_size (FixedWidthSize false cap_w) region info
        else Raise (ValidationError "FixedWidthSize")) ;;
     let cap_h := min3 height (PixelRegion.h region) (or_0 (max_height info)) in
     norm_max_h <-
       (if 1 <=? cap_h
        then normalize_size (FixedHeightSize false cap_h) region info
        else Raise (ValidationError "FixedHeightSize")) ;;
     if PixelSize.width norm_max_w * PixelSize.height norm_max_w
        >=? PixelSize.width norm_max_h * PixelSize.width norm_max_h
     then Ok norm_max_w
     else Ok norm_max_h) ;;
  size_checks norm region info;
normalize_size org region info :=
  if Size_upscaleable org then Raise upscaling_unsupported else
  region_aspect <- PyFloat.int_truediv (PixelRegion.w region) (PixelRegion.h region) ;;
  norm <- size_norm org region_aspect region info ;;
  size_checks norm region info.

(** ** The validation order, as the specification words it

    "width/height must not exceed the region's pixel dimensions; then must not
    exceed [max_width]/[max_height] if present; then [width*height] must not
    exceed [max_area] if present", the first failing check being the one
    reported. *)

(** [v] does not exceed the limit, when there is one. *)
Definition within (v : Z) (limit : option Z) : Prop :=
  match limit with
  | Some m => v <= m
  | None => True
  end.

Inductive first_failing_check (norm : PixelSize.t) (region : PixelRegion.t)
  (info : ImageInfoResponse) : result PixelSize.t -> Prop :=
| fails_region_width :
    PixelSize.width norm > PixelRegion.w region ->
    first_failing_check norm region info
      (Raise (width_over_region (PixelSize.width norm) (PixelRegion.w region)))
| fails_region_height :
    PixelSize.width norm <= PixelRegion.w region ->
    PixelSize.height norm > PixelRegion.h region ->
    first_failing_check norm region info
      (Raise (height_over_region (PixelSize.height norm) (PixelRegion.w region)))
| fails_max_width max_w :
    PixelSize.width norm <= PixelRegion.w region ->
    PixelSize.height norm <= PixelRegion.h region ->
    max_width info = Some max_w ->
    PixelSize.width norm > max_w ->
    first_failing_check norm region info
      (Raise (width_over_limit (PixelSize.width norm) max_w))
| fails_max_height max_h :
    PixelSize.width norm <= PixelRegion.w region ->
    PixelSize.height norm <= PixelRegion.h region ->
    within (PixelSize.width norm) (max_width info) ->
    max_height info = Some max_h ->
    PixelSize.height norm > max_h ->
    first_failing_check norm region info
      (Raise (height_over_limit (PixelSize.height norm) max_h))
| fails_max_area max_a :
    PixelSize.width norm <= PixelRegion.w region ->
    PixelSize.height norm <= PixelRegion.h region ->
    within (PixelSize.width norm) (max_width info) ->
    within (PixelSize.height norm) (max_height info) ->
    max_area info = Some max_a ->
    PixelSize.width norm * PixelSize.height norm > max_a ->
    first_failing_check norm region info
      (Raise (area_over_limit (PixelSize.width norm * PixelSize.height norm) max_a))
| passes_all :
    PixelSize.width norm <= PixelRegion.w region ->
    PixelSize.height norm <= PixelRegion.h region ->
    within (PixelSize.width norm) (max_width info) ->
    within (PixelSize.height norm) (max_height info) ->
    within (PixelSize.width norm * PixelSize.height norm) (max_area info) ->
    first_failing_check norm region info (Ok norm).

(** ** Concrete requests *)

Definition image (width height : Z) (max_width max_height max_area : option Z)
  : ImageInfoResponse :=
  {| width := width; height := height; max_width := max_width;
     max_height := max_height; max_area := max_area |}.

Definition rect (x y w h : Z) : PixelRegion.t :=
  {| PixelRegion.x := x; PixelRegion.y := y;
     PixelRegion.w := w; PixelRegion.h := h |}.

Definition size (width height : Z) : PixelSize.t :=
  {| PixelSize.upscaleable := false;
     PixelSize.width := width; PixelSize.height := height |}.

(** [pct:50,50,50,50] *)
Definition pct_50 : PercentRegion.t :=
  {| PercentRegion.x := PyFloat.lit 50; PercentRegion.y := PyFloat.lit 50;
     PercentRegion.w := PyFloat.lit 50; PercentRegion.h := PyFloat.lit 50 |}.

(** ** The preserved-aspect rule, as the specification words it

    "compute the [FixedWidth] result capped by [min(w, region.w, max_width)]
    and the [FixedHeight] result capped by [min(h, region.h, max_height)];
    pick whichever candidate has the larger area (ties broken in favor of the
    width-derived candidate)", an absent limit capping nothing. *)

Definition capped (v region_v : Z) (limit : option Z) : Z :=
  match limit with
  | Some m => min3 v region_v m
  | None => Z.min v region_v
  end.

Definition area (s : PixelSize.t) : Z := PixelSize.width s * PixelSize.height s.

Definition preserved_aspect_by_rule (width height : Z) (region : PixelRegion.t)
  (info : ImageInfoResponse) : result PixelSize.t :=
  by_width <-
    normalize_size
      (FixedWidthSize false (capped width (PixelRegion.w region) (max_width info)))
      region info ;;
  by_height <-
    normalize_size
      (FixedHeightSize false (capped height (PixelRegion.h region) (max_height info)))
      region info ;;
  if area by_width >=? area by_height then Ok by_width else Ok by_height.

(** ** [temporal/activities/schema.py] and [temporal/workflows/schema.py]

    One module per dataclass; the two schema files declare [PixelRegion] and
    [PixelSize] again, as plain dataclasses with no field constraint. *)

Module ActivitiesSchema.
Module PixelRegion.
Record t : Type := { x : Z; y : Z; w : Z; h : Z }.
End PixelRegion.
Module PixelSize.
Record t : Type := { width : Z; height : Z }.
End PixelSize.
Module FindBestWorkerInput.
Record t : Type := { frame_id : string }.
End FindBestWorkerInput.
Module FindBestWorkerOutput.
Record t : Type := { task_queue : string }.
End FindBestWorkerOutput.
Module DownloadFrameFileInput.
Record t : Type := {
  frame_id : string; force_download : bool; recheck_version : bool
}.
End DownloadFrameFileInput.
Module DownloadFrameFileOuput.
Record t : Type := { file_path : string; cached : bool }.
End DownloadFrameFileOuput.
Module GetHduDimensionsInput.
Record t : Type := { fits_path : string; hdu_index : Z }.
End GetHduDimensionsInput.
Module GetHduDimensionsOutput.
Record t : Type := { width : Z; height : Z }.
End GetHduDimensionsOutput.
Module CreateImageFileInput.
Record t : Type := {
  fits_path : string; hdu_index : Z;
  pixel_region : PixelRegion.t; pixel_size : PixelSize.t; fmt : string
}.
End CreateImageFileInput.
Module CreateImageFileOutput.
Record t : Type := { file_path : string; sha256 : string; file_size : Z }.
End CreateImageFileOutput.
Module StartS3MultipartUploadInput.
Record t : Type := { object_key : string }.
End StartS3MultipartUploadInput.
Module StartS3MultipartUploadOutput.
Record t : Type := { upload_id : string; object_key : string }.
End StartS3MultipartUploadOutput.
Module UploadS3PartInput.
Record t : Type := {
  file_path : string; file_size : Z; file_offset : Z; part_size : Z;
  object_key : string; upload_id : string; part_number : Z
}.
End UploadS3PartInput.
Module UploadS3PartOutput.
Record t : Type := { etag : string; part_number : Z }.
End UploadS3PartOutput.
Module FinishS3MultipartUploadInput.
Record t : Type := {
  object_key : string; upload_id : string;
  uploaded_parts : list UploadS3PartOutput.t
}.
End FinishS3MultipartUploadInput.
Module FinishS3MultipartUploadOutput.
Record t : Type := { object_key : string }.
End FinishS3MultipartUploadOutput.
Module AbortS3MultipartUploadInput.
Record t : Type := { object_key : string; upload_id : string }.
End AbortS3MultipartUploadInput.
Module DeleteFileInput.
Record t : Type := { file_path : string }.
End DeleteFileInput.
End ActivitiesSchema.

Module WorkflowsSchema.
Module GetFrameDimensionsInput.
Record t : Type := {
  frame_id : string; hdu_index : Z;
  force_download : bool; recheck_version : bool
}.
End GetFrameDimensionsInput.
Module GetFrameDimensionsOutput.
Record t : Type := { width : Z; height : Z }.
End GetFrameDimensionsOutput.
Module PixelRegion.
Record t : Type := { x : Z; y : Z; w : Z; h : Z }.
End PixelRegion.
Module PixelSize.
Record t : Type := { width : Z; height : Z }.
End PixelSize.
Module CreateImageInput.
Record t : Type := {
  frame_id : string; hdu_index : Z;
  pixel_region : PixelRegion.t; pixel_size : PixelSize.t; fmt : string
}.
End CreateImageInput.
Module CreateImageOutput.
Record t : Type := { s3_object_key : string }.
End CreateImageOutput.
End WorkflowsSchema.

(** ** The orchestration engine, seen from a workflow

    A workflow awaits activities and timers.  What an await yields is the
    engine's and the workers' business: the [World] answers every await, from
    the history of what the workflow did before, with a value or with the
    exception raised at that await ([CancelledError] when the workflow is
    cancelled while it is suspended there). *)

(** The activity methods of [activities.Activities], indexed by what they
    return. *)
Inductive activity : Type -> Type :=
| find_best_worker (i : ActivitiesSchema.FindBestWorkerInput.t)
    : activity ActivitiesSchema.FindBestWorkerOutput.t
| download_frame_file_with_workflow (i : ActivitiesSchema.DownloadFrameFileInput.t)
    : activity ActivitiesSchema.DownloadFrameFileOuput.t
| get_hdu_dimensions (i : ActivitiesSchema.GetHduDimensionsInput.t)
    : activity ActivitiesSchema.GetHduDimensionsOutput.t
| create_image_file (i : ActivitiesSchema.CreateImageFileInput.t)
    : activity ActivitiesSchema.CreateImageFileOutput.t
| start_s3_multipart_upload (i : ActivitiesSchema.StartS3MultipartUploadInput.t)
    : activity ActivitiesSchema.StartS3MultipartUploadOutput.t
| upload_s3_part (i : ActivitiesSchema.UploadS3PartInput.t)
    : activity ActivitiesSchema.UploadS3PartOutput.t
| finish_s3_multipart_upload (i : ActivitiesSchema.FinishS3MultipartUploadInput.t)
    : activity ActivitiesSchema.FinishS3MultipartUploadOutput.t
| abort_s3_multipart_upload (i : ActivitiesSchema.AbortS3MultipartUploadInput.t)
    : activity unit
| delete_file (i : ActivitiesSchema.DeleteFileInput.t)
    : activity unit.

(** What a workflow did: the activities it scheduled, with the task queue
    it asked for, and the timers it set. *)
Inductive event : Type :=
| Scheduled {A : Type} (a : activity A) (task_queue : option string)
| Slept (seconds : Z).

Definition history : Type := list event.

Record World : Type := {
  (** the outcome of [await workflow.execute_activity_method(a, ...)] *)
  respond : forall A : Type, history -> activity A -> option string -> result A;
  (** [await asyncio.sleep(s)] completes ([true]) or is cancelled *)
  wakes : history -> Z -> bool
}.

Definition workflow (A : Type) : Type :=
  World -> history -> history * result A.

Module Wf.

Definition ret {A} (a : A) : workflow A := fun _ h => (h, Ok a).

Definition raise {A} (e : exn) : workflow A := fun _ h => (h, Raise e).

(** a computation of the workflow code itself, with no await in it *)
Definition lift {A} (r : result A) : workflow A := fun _ h => (h, r).

Definition bind {A B} (m : workflow A) (k : A -> workflow B) : workflow B :=
  fun W h =>
    match m W h with
    | (h', Ok a) => k a W h'
    | (h', Raise e) => (h', Raise e)
    end.

(** [await workflow.execute_activity_method(a, task_queue=..)] *)
Definition execute_activity_method {A} (a : activity A)
  (task_queue : option string) : workflow A :=
  fun W h => (h ++ [Scheduled a task_queue], respond W A h a task_queue).

(** [await asyncio.sleep(seconds)] *)
Definition sleep (seconds : Z) : workflow unit :=
  fun W h =>
    (h ++ [Slept seconds],
     if wakes W h seconds then Ok tt else Raise CancelledError).

(** [try: body  except Exception: handler] *)
Definition try_except_Exception {A} (body : workflow A)
  (handler : exn -> workflow A) : workflow A :=
  fun W h =>
    match body W h with
    | (h', Ok a) => (h', Ok a)
    | (h', Raise e) =>
        if isinstance_Exception e then handler e W h' else (h', Raise e)
    end.

(** [try: body  finally: final] *)
Definition try_finally {A} (body : workflow A) (final : workflow unit)
  : workflow A :=
  fun W h =>
    let '(h', r) := body W h in
    match final W h' with
    | (h'', Ok _) => (h'', r)
    | (h'', Raise e) => (h'', Raise e)
    end.

(** The tasks of an [asyncio.TaskGroup]: every task is created, and each
    runs to its own outcome. *)
Fixpoint gather {A} (tasks : list (workflow A)) (W : World) (h : history)
  : history * list (result A) :=
  match tasks with
  | [] => (h, [])
  | t :: tasks' =>
      let '(h', r) := t W h in
      let '(h'', rs) := gather tasks' W h' in
      (h'', r :: rs)
  end.

Definition raised_Exception {A} (r : result A) : bool :=
  match r with
  | Raise e => isinstance_Exception e
  | Ok _ => false
  end.

Fixpoint results {A} (rs : list (result A)) : option (list A) :=
  match rs with
  | [] => Some []
  | Ok a :: rs' => option_map (cons a) (results rs')
  | Raise _ :: _ => None
  end.

(** Leaving the [async with] block: the results when every task returned;
    an [ExceptionGroup] when a task raised an [Exception]; the cancellation
    otherwise. *)
Definition join {A} (rs : list (result A)) : result (list A) :=
  match results rs with
  | Some l => Ok l
  | None =>
      if existsb raised_Exception rs
      then Raise (ExceptionGroup "unhandled errors in a TaskGroup")
      else Raise CancelledError
  end.

Definition TaskGroup {A} (tasks : list (workflow A)) : workflow (list A) :=
  fun W h => let '(h', rs) := gather tasks W h in (h', join rs).

End Wf.

Declare Scope wf_scope.
Delimit Scope wf_scope with wf.
Notation "x <- m ;; k" := (Wf.bind m (fun x => k))
  (at level 61, m at next level, right associativity) : wf_scope.
Notation "m ;;; k" := (Wf.bind m (fun _ => k))
  (at level 61, right associativity) : wf_scope.

(** [range(n)] *)
Definition range (n : Z) : list Z := map Z.of_nat (seq 0 (Z.to_nat n)).

(** ** The outer retry shell (lines 36-43 and 107-114)

    [while True: try: return await self._run(i)
       except asyncio.CancelledError: raise
       except Exception: await asyncio.sleep(5); continue]

    [fuel] bounds the number of iterations looked at; [None] is the loop
    still running when the fuel is spent. *)
Fixpoint retry_shell {A} (fuel : nat) (_run : workflow A)
  : workflow (option A) :=
  match fuel with
  | O => Wf.ret None
  | S fuel' =>
      fun W h =>
        match _run W h with
        | (h', Ok a) => (h', Ok (Some a))
        | (h', Raise e) =>
            match e with
            | CancelledError => (h', Raise e)
            | _ =>
                if isinstance_Exception e
                then Wf.bind (Wf.sleep 5) (fun _ => retry_shell fuel' _run) W h'
                else (h', Raise e)
            end
        end
  end.

(** ** [temporal/workflows/workflows.py] *)

Module GetFrameDimensions.
Import ActivitiesSchema WorkflowsSchema.
Local Open Scope wf_scope.

Definition _run (i : GetFrameDimensionsInput.t)
  : workflow GetFrameDimensionsOutput.t :=
  w <- Wf.execute_activity_method
         (find_best_worker
            {| FindBestWorkerInput.frame_id := GetFrameDimensionsInput.frame_id i |})
         None ;;
  f <- Wf.execute_activity_method
         (download_frame_file_with_workflow
            {| DownloadFrameFileInput.frame_id := GetFrameDimensionsInput.frame_id i;
               DownloadFrameFileInput.force_download :=
                 GetFrameDimensionsInput.force_download i;
               DownloadFrameFileInput.recheck_version :=
                 GetFrameDimensionsInput.recheck_version i |})
         (Some (FindBestWorkerOutput.task_queue w)) ;;
  d <- Wf.execute_activity_method
         (get_hdu_dimensions
            {| GetHduDimensionsInput.fits_path := DownloadFrameFileOuput.file_path f;
               GetHduDimensionsInput.hdu_index := GetFrameDimensionsInput.hdu_index i |})
         (Some (FindBestWorkerOutput.task_queue w)) ;;
  Wf.ret {| GetFrameDimensionsOutput.width := GetHduDimensionsOutput.width d;
            GetFrameDimensionsOutput.height := GetHduDimensionsOutput.height d |}.

Definition run (fuel : nat) (i : GetFrameDimensionsInput.t)
  : workflow (option GetFrameDimensionsOutput.t) :=
  retry_shell fuel (_run i).
End GetFrameDimensions.

Module CreateImage.
Import ActivitiesSchema WorkflowsSchema.
Local Open Scope wf_scope.

(** [5 * 1024 * 1024] *)
Definition part_size : Z := 5 * 1024 * 1024.

(** [ceil(file_size / part_size)] *)
Definition part_count (file_size : Z) : result Z :=
  (q <- PyFloat.int_truediv file_size part_size ;; PyFloat.ceil q)%py.

(** The activity input of part [part_i] (lines 193-201). *)
Definition part_input (generated_img : CreateImageFileOutput.t)
  (mp_upload : StartS3MultipartUploadOutput.t) (part_i : Z)
  : UploadS3PartInput.t :=
  {| UploadS3PartInput.file_path := CreateImageFileOutput.file_path generated_img;
     UploadS3PartInput.file_size := CreateImageFileOutput.file_size generated_img;
     UploadS3PartInput.file_offset := part_size * part_i;
     UploadS3PartInput.part_size := part_size;
     UploadS3PartInput.object_key := StartS3MultipartUploadOutput.object_key mp_upload;
     UploadS3PartInput.upload_id := StartS3MultipartUploadOutput.upload_id mp_upload;
     UploadS3PartInput.part_number := part_i + 1 |}.

(** Lines 180-223, the body of the inner [try]: the parts, uploaded by the
    tasks of one [TaskGroup], then the finalize step. *)
Definition transfer (task_queue : string)
  (generated_img : CreateImageFileOutput.t)
  (mp_upload : StartS3MultipartUploadOutput.t)
  : workflow FinishS3MultipartUploadOutput.t :=
  part_count <- Wf.lift
                  (part_count (CreateImageFileOutput.file_size generated_img)) ;;
  uploaded_parts <-
    Wf.TaskGroup
      (map (fun part_i =>
              Wf.execute_activity_method
                (upload_s3_part (part_input generated_img mp_upload part_i))
                (Some task_queue))
           (range part_count)) ;;
  Wf.execute_activity_method
    (finish_s3_multipart_upload
       {| FinishS3MultipartUploadInput.object_key :=
            StartS3MultipartUploadOutput.object_key mp_upload;
          FinishS3MultipartUploadInput.upload_id :=
            StartS3MultipartUploadOutput.upload_id mp_upload;
          FinishS3MultipartUploadInput.uploaded_parts := uploaded_parts |})
    None.

(** Lines 224-233, the handler of [except Exception]: abort, then
    [raise]. *)
Definition compensate (mp_upload : StartS3MultipartUploadOutput.t) (e : exn)
  : workflow FinishS3MultipartUploadOutput.t :=
  Wf.execute_activity_method
    (abort_s3_multipart_upload
       {| AbortS3MultipartUploadInput.object_key :=
            StartS3MultipartUploadOutput.object_key mp_upload;
          AbortS3MultipartUploadInput.upload_id :=
            StartS3MultipartUploadOutput.upload_id mp_upload |})
    None ;;;
  Wf.raise e.

(** Lines 234-246, the [finally] block. *)
Definition cleanup (task_queue : string)
  (generated_img : CreateImageFileOutput.t) : workflow unit :=
  Wf.execute_activity_method
    (delete_file
       {| DeleteFileInput.file_path :=
            CreateImageFileOutput.file_path generated_img |})
    (Some task_queue).

(** Lines 169-246: the upload, its compensation and the cleanup. *)
Definition upload (task_queue : string)
  (generated_img : CreateImageFileOutput.t) (object_key : string)
  : workflow FinishS3MultipartUploadOutput.t :=
  Wf.try_finally
    (mp_upload <- Wf.execute_activity_method
                    (start_s3_multipart_upload
                       {| StartS3MultipartUploadInput.object_key := object_key |})
                    None ;;
     Wf.try_except_Exception
       (transfer task_queue generated_img mp_upload)
       (compensate mp_upload))
    (cleanup task_queue generated_img).

Definition _run (i : CreateImageInput.t) : workflow CreateImageOutput.t :=
  w <- Wf.execute_activity_method
         (find_best_worker
            {| FindBestWorkerInput.frame_id := CreateImageInput.frame_id i |})
         None ;;
  f <- Wf.execute_activity_method
         (download_frame_file_with_workflow
            {| DownloadFrameFileInput.frame_id := CreateImageInput.frame_id i;
               DownloadFrameFileInput.force_download := false;
               DownloadFrameFileInput.recheck_version := false |})
         (Some (FindBestWorkerOutput.task_queue w)) ;;
  let pixel_region :=
    {| ActivitiesSchema.PixelRegion.x := PixelRegion.x (CreateImageInput.pixel_region i);
       ActivitiesSchema.PixelRegion.y := PixelRegion.y (CreateImageInput.pixel_region i);
       ActivitiesSchema.PixelRegion.w := PixelRegion.w (CreateImageInput.pixel_region i);
       ActivitiesSchema.PixelRegion.h := PixelRegion.h (CreateImageInput.pixel_region i) |} in
  let pixel_size :=
    {| ActivitiesSchema.PixelSize.width := PixelSize.width (CreateImageInput.pixel_size i);
       ActivitiesSchema.PixelSize.height := PixelSize.height (CreateImageInput.pixel_size i) |} in
  generated_img <-
    Wf.execute_activity_method
      (create_image_file
         {| CreateImageFileInput.fits_path := DownloadFrameFileOuput.file_path f;
            CreateImageFileInput.hdu_index := CreateImageInput.hdu_index i;
            CreateImageFileInput.pixel_region := pixel_region;
            CreateImageFileInput.pixel_size := pixel_size;
            CreateImageFileInput.fmt := CreateImageInput.fmt i |})
      (Some (FindBestWorkerOutput.task_queue w)) ;;
  let object_key := ("generated/" ++ CreateImageFileOutput.sha256 generated_img)%string in
  finshed_upload <-
    upload (FindBestWorkerOutput.task_queue w) generated_img object_key ;;
  Wf.ret {| CreateImageOutput.s3_object_key :=
              FinishS3MultipartUploadOutput.object_key finshed_upload |}.

Definition run (fuel : nat) (i : CreateImageInput.t)
  : workflow (option CreateImageOutput.t) :=
  retry_shell fuel (_run i).
End CreateImage.

(** ** Properties of histories *)

(** The frame download, when it is scheduled, is asked neither to force the
    download nor to recheck the version. *)
Definition download_unforced (ev : event) : Prop :=
  match ev with
  | Scheduled a _ =>
      match a with
      | download_frame_file_with_workflow i =>
          ActivitiesSchema.DownloadFrameFileInput.force_download i = false /\
          ActivitiesSchema.DownloadFrameFileInput.recheck_version i = false
      | _ => True
      end
  | Slept _ => True
  end.

(** [m] only appends to the history, and every event it appends
    satisfies [P]. *)
Definition appends (P : event -> Prop) {A} (m : workflow A) : Prop :=
  forall W h, exists new, fst (m W h) = h ++ new /\ Forall P new.

Definition is_Slept (ev : event) : bool :=
  match ev with
  | Slept _ => true
  | Scheduled _ _ => false
  end.

(** The number of timers in a history. *)
Definition naps (h : history) : nat := List.length (filter is_Slept h).

(** What the specification asks of the outer shell [run] around the pipeline
    [_run]: it ends only by returning the pipeline's value or by the
    cancellation; a cancelled pipeline is not retried; a failed pipeline is
    followed by one 5-second timer and by the whole pipeline again; and a
    pipeline that keeps failing is retried without end. *)
Definition retries_until_cancelled {A} (_run : workflow A)
  (run : nat -> workflow (option A)) : Prop :=
  (forall fuel W h h' e,
     run fuel W h = (h', Raise e) -> e = CancelledError) /\
  (forall fuel W h h' a,
     _run W h = (h', Ok a) -> run (S fuel) W h = (h', Ok (Some a))) /\
  (forall fuel W h h',
     _run W h = (h', Raise CancelledError) ->
     run (S fuel) W h = (h', Raise CancelledError)) /\
  (forall fuel W h h' e,
     _run W h = (h', Raise e) -> e <> CancelledError ->
     run (S fuel) W h =
       if wakes W h' 5 then run fuel W (h' ++ [Slept 5])
       else (h' ++ [Slept 5], Raise CancelledError)) /\
  (forall W,
     (forall h, exists h' e,
        _run W h = (h', Raise e) /\ e <> CancelledError) ->
     (forall h s, wakes W h s = true) ->
     forall fuel h,
       snd (run fuel W h) = Ok None /\
       (naps (fst (run fuel W h)) >= naps h + fuel)%nat).

(** ** Concrete runs of the workflows *)

Module Scenario.
Import ActivitiesSchema WorkflowsSchema.

(** What every activity returns when it succeeds. *)
Definition answer (file_size : Z) {A : Type} (a : activity A) : A :=
  match a in activity T return T with
  | find_best_worker _ =>
      {| FindBestWorkerOutput.task_queue := "worker-1" |}
  | download_frame_file_with_workflow _ =>
      {| DownloadFrameFileOuput.file_path := "/work/cache/frame.fits.fz";
         DownloadFrameFileOuput.cached := true |}
  | get_hdu_dimensions _ =>
      {| GetHduDimensionsOutput.width := 200;
         GetHduDimensionsOutput.height := 100 |}
  | create_image_file _ =>
      {| CreateImageFileOutput.file_path := "/work/generated/tmp1.webp";
         CreateImageFileOutput.sha256 := "ab12";
         CreateImageFileOutput.file_size := file_size |}
  | start_s3_multipart_upload i =>
      {| StartS3MultipartUploadOutput.upload_id := "upload-1";
         StartS3MultipartUploadOutput.object_key :=
           StartS3MultipartUploadInput.object_key i |}
  | upload_s3_part i =>
      {| UploadS3PartOutput.etag := "etag";
         UploadS3PartOutput.part_number := UploadS3PartInput.part_number i |}
  | finish_s3_multipart_upload i =>
      {| FinishS3MultipartUploadOutput.object_key :=
           FinishS3MultipartUploadInput.object_key i |}
  | abort_s3_multipart_upload _ => tt
  | delete_file _ => tt
  end.

Definition is_upload_s3_part {A} (a : activity A) : bool :=
  match a with upload_s3_part _ => true | _ => false end.

Definition is_finish {A} (a : activity A) : bool :=
  match a with finish_s3_multipart_upload _ => true | _ => false end.

(** Every activity succeeds; the encoded file has 7 000 000 bytes. *)
Definition all_succeed : World :=
  {| respond := fun A _ a _ => Ok (answer 7000000 a);
     wakes := fun _ _ => true |}.

(** The workflow is cancelled while it waits for the part uploads. *)
Definition cancelled_during_part_uploads : World :=
  {| respond := fun A _ a _ =>
       if is_upload_s3_part a then Raise CancelledError
       else Ok (answer 7000000 a);
     wakes := fun _ _ => true |}.

(** The workflow is cancelled while it waits for the finalize step. *)
Definition cancelled_during_finish : World :=
  {| respond := fun A _ a _ =>
       if is_finish a then Raise CancelledError
       else Ok (answer 7000000 a);
     wakes := fun _ _ => true |}.

(** A part upload fails for good: the activity error reaches the workflow. *)
Definition part_upload_fails : World :=
  {| respond := fun A _ a _ =>
       if is_upload_s3_part a then Raise (OtherException "ActivityError")
       else Ok (answer 7000000 a);
     wakes := fun _ _ => true |}.

(** The first activity of the first attempt fails, everything after that
    succeeds. *)
Definition fails_once : World :=
  {| respond := fun A h a _ =>
       match h with
       | [] => Raise (OtherException "ActivityError")
       | _ => Ok (answer 7000000 a)
       end;
     wakes := fun _ _ => true |}.

(** Every activity fails, and no one cancels. *)
Definition always_fails : World :=
  {| respond := fun A _ _ _ => Raise (OtherException "ActivityError");
     wakes := fun _ _ => true |}.

Definition request : CreateImageInput.t :=
  {| CreateImageInput.frame_id := "42";
     CreateImageInput.hdu_index := 1;
     CreateImageInput.pixel_region :=
       {| PixelRegion.x := 0; PixelRegion.y := 0;
          PixelRegion.w := 200; PixelRegion.h := 100 |};
     CreateImageInput.pixel_size :=
       {| PixelSize.width := 100; PixelSize.height := 50 |};
     CreateImageInput.fmt := "webp" |}.

Definition dimensions_request : GetFrameDimensionsInput.t :=
  {| GetFrameDimensionsInput.frame_id := "42";
     GetFrameDimensionsInput.hdu_index := 1;
     GetFrameDimensionsInput.force_download := true;
     GetFrameDimensionsInput.recheck_version := true |}.

(** The encoded file and the multipart upload of these runs. *)
Definition generated_img : CreateImageFileOutput.t :=
  {| CreateImageFileOutput.file_path := "/work/generated/tmp1.webp";
     CreateImageFileOutput.sha256 := "ab12";
     CreateImageFileOutput.file_size := 7000000 |}.

Definition mp_upload : StartS3MultipartUploadOutput.t :=
  {| StartS3MultipartUploadOutput.upload_id := "upload-1";
     StartS3MultipartUploadOutput.object_key := "generated/ab12" |}.

(** The activities of the run of [request], in order. *)
Definition find : event :=
  Scheduled (find_best_worker {| FindBestWorkerInput.frame_id := "42" |}) None.
Definition download : event :=
  Scheduled
    (download_frame_file_with_workflow
       {| DownloadFrameFileInput.frame_id := "42";
          DownloadFrameFileInput.force_download := false;
          DownloadFrameFileInput.recheck_version := false |})
    (Some "worker-1"%string).
Definition create : event :=
  Scheduled
    (create_image_file
       {| CreateImageFileInput.fits_path := "/work/cache/frame.fits.fz";
          CreateImageFileInput.hdu_index := 1;
          CreateImageFileInput.pixel_region :=
            {| ActivitiesSchema.PixelRegion.x := 0; ActivitiesSchema.PixelRegion.y := 0;
               ActivitiesSchema.PixelRegion.w := 200; ActivitiesSchema.PixelRegion.h := 100 |};
          CreateImageFileInput.pixel_size :=
            {| ActivitiesSchema.PixelSize.width := 100;
               ActivitiesSchema.PixelSize.height := 50 |};
          CreateImageFileInput.fmt := "webp" |})
    (Some "worker-1"%string).
Definition start : event :=
  Scheduled
    (start_s3_multipart_upload
       {| StartS3MultipartUploadInput.object_key := "generated/ab12" |})
    None.
Definition part (part_i : Z) : event :=
  Scheduled
    (upload_s3_part
       {| UploadS3PartInput.file_path := "/work/generated/tmp1.webp";
          UploadS3PartInput.file_size := 7000000;
          UploadS3PartInput.file_offset := 5242880 * part_i;
          UploadS3PartInput.part_size := 5242880;
          UploadS3PartInput.object_key := "generated/ab12";
          UploadS3PartInput.upload_id := "upload-1";
          UploadS3PartInput.part_number := part_i + 1 |})
    (Some "worker-1"%string).
Definition finish : event :=
  Scheduled
    (finish_s3_multipart_upload
       {| FinishS3MultipartUploadInput.object_key := "generated/ab12";
          FinishS3MultipartUploadInput.upload_id := "upload-1";
          FinishS3MultipartUploadInput.uploaded_parts :=
            [ {| UploadS3PartOutput.etag := "etag";
                 UploadS3PartOutput.part_number := 1 |};
              {| UploadS3PartOutput.etag := "etag";
                 UploadS3PartOutput.part_number := 2 |} ] |})
    None.
Definition abort : event :=
  Scheduled
    (abort_s3_multipart_upload
       {| AbortS3MultipartUploadInput.object_key := "generated/ab12";
          AbortS3MultipartUploadInput.upload_id := "upload-1" |})
    None.
Definition delete : event :=
  Scheduled
    (delete_file {| DeleteFileInput.file_path := "/work/generated/tmp1.webp" |})
    (Some "worker-1"%string).
End Scenario.

(** ** [temporal/activities/activities.py] *)

(** A parsed JSON document, as [Response.json()] returns it. *)
#[warnings="-register-all"]
Inductive json : Type :=
| JNull
| JBool (b : bool)
| JNumber (n : Z)
| JString (s : string)
| JArray (items : list json)
| JObject (fields : list (string * json)).

Module httpx.
(** The response to the metadata request: its status code, and its body
    parsed as JSON when the body is a JSON document. *)
Record Response : Type := { status_code : Z; json_body : option json }.

Definition is_success (r : Response) : bool :=
  (200 <=? status_code r) && (status_code r <=? 299).

Definition is_server_error (r : Response) : bool :=
  (500 <=? status_code r) && (status_code r <=? 599).
End httpx.

Module Activities.
Import ActivitiesSchema.

Fixpoint lookup (key : string) (fields : list (string * json)) : option json :=
  match fields with
  | [] => None
  | (k, v) :: fields' => if String.eqb k key then Some v else lookup key fields'
  end.

(** [v[key]]: [None] when the subscript raises ([KeyError] on a dict
    without the key, [TypeError] on anything but a dict). *)
Definition item (v : json) (key : string) : option json :=
  match v with
  | JObject fields => lookup key fields
  | _ => None
  end.

(** [v[0]]: the first element of a list, the first character of a string;
    [None] when the subscript raises. *)
Definition item_0 (v : json) : option json :=
  match v with
  | JArray (first :: _) => Some first
  | JString (String c _) => Some (JString (String c EmptyString))
  | _ => None
  end.

(** What lines 144-149 read from the metadata; [version_id] is the value
    that [str] is applied to. *)
Record FrameMetadata : Type := {
  basename : json; version_id : json; ext : json; download_url : json
}.

Definition opt_bind {A B} (o : option A) (k : A -> option B) : option B :=
  match o with
  | Some a => k a
  | None => None
  end.

(** The body of the [try] of lines 143-149; [None] when it raises. *)
Definition parse_frame_metadata (r : httpx.Response) : option FrameMetadata :=
  opt_bind (httpx.json_body r) (fun r_json =>
  opt_bind (item r_json "basename") (fun basename =>
  opt_bind (item r_json "version_set") (fun version_set =>
  opt_bind (item_0 version_set) (fun version =>
  opt_bind (item version "id") (fun id =>
  opt_bind (item version "extension") (fun ext =>
  opt_bind (item version "url") (fun download_url =>
  Some {| basename := basename; version_id := id; ext := ext;
          download_url := download_url |}))))))).

(** Lines 140-151 of [download_frame_file], on the response [r]. *)
Definition frame_metadata (r : httpx.Response) : result FrameMetadata :=
  if negb (httpx.is_success r) && negb (httpx.is_server_error r) then
    Raise (ApplicationError "Failed to fetch frame info" true)
  else
    match parse_frame_metadata r with
    | Some m => Ok m
    | None => Raise (ApplicationError "Failed to parse frame metadata" false)
    end.

(** Lines 135-151: the request itself may raise (a network failure), and
    what it raises is not caught. *)
Definition fetch_frame_metadata (get : result httpx.Response)
  : result FrameMetadata :=
  r <- get ;; frame_metadata r.

(** Lines 328-331 of [upload_s3_part]: the [content-length] header. *)
Definition content_length (i : UploadS3PartInput.t) : Z :=
  if UploadS3PartInput.file_offset i + UploadS3PartInput.part_size i
     >? UploadS3PartInput.file_size i
  then UploadS3PartInput.file_size i - UploadS3PartInput.file_offset i
  else UploadS3PartInput.part_size i.
End Activities.

(** A metadata document of the archive, with one version. *)
Definition frame_document : json :=
  JObject
    [ ("basename"%string, JString "frame");
      ("version_set"%string,
       JArray [ JObject [ ("id"%string, JNumber 7);
                          ("extension"%string, JString ".fits.fz");
                          ("url"%string, JString "https://archive/7") ] ]) ].

(** [ceil(a / b)] on the integers, for [b > 0]. *)
Definition ceil_div (a b : Z) : Z := (a + b - 1) / b.


(** ** [api/routes.py]: the response of [get_image_information]
    (lines 73-86) *)

(** [ImageInfoTile]; an absent [height] means a square tile. *)
Record ImageInfoTile : Type := {
  tile_width : Z;
  tile_height : option Z;
  scale_factors : list Z
}.

(** The [ImageInfoResponse] that [get_image_information] builds: the fields
    normalization reads, the id and the tiles; every other field keeps its
    default. *)
Record ImageInfoDocument : Type := {
  info : ImageInfoResponse;
  id_ : string;
  tiles : list ImageInfoTile
}.

(** [s.removesuffix(suffix)] *)
Fixpoint removesuffix (s suffix : string) : string :=
  if String.eqb s suffix then EmptyString
  else
    match s with
    | EmptyString => EmptyString
    | String c s' => String c (removesuffix s' suffix)
    end.

(** Lines 73-86, on the URL of the request (without its query) and the
    dimensions that [get_frame_dimensions] returned.  pydantic checks
    [width, height >= 1] when the response is built. *)
Definition image_information (url : string)
  (dimensions : WorkflowsSchema.GetFrameDimensionsOutput.t)
  : result ImageInfoDocument :=
  let w := WorkflowsSchema.GetFrameDimensionsOutput.width dimensions in
  let h := WorkflowsSchema.GetFrameDimensionsOutput.height dimensions in
  if (1 <=? w) && (1 <=? h) then
    Ok {| info := {| width := w; height := h;
                     max_width := Some w; max_height := Some h;
                     max_area := None |};
          id_ := removesuffix url "/info.json";
          tiles := [ {| tile_width := 512; tile_height := Some 512;
                        scale_factors := map Z.of_nat (seq 1 19) |} ] |}
  else Raise (ValidationError "ImageInfoResponse").

(** ** [temporal/activities/activities.py]: the body of [upload_s3_part]
    (lines 309-326) *)

Module UploadS3Part.
Import ActivitiesSchema.

(** A file opened for reading: its bytes, and what one underlying read
    yields: [grant pos n] bytes for [read1(n)] at position [pos], never less
    than one while bytes are left. *)
Record File : Type := { content : list Byte.byte; grant : Z -> Z -> Z }.

(** [len(l)] *)
Definition len {A} (l : list A) : Z := Z.of_nat (List.length l).

(** [content[start:start+n]] *)
Definition slice (content : list Byte.byte) (start n : Z) : list Byte.byte :=
  firstn (Z.to_nat n) (skipn (Z.to_nat start) content).

(** [await fobj.read1(n)] at position [pos]: at most [n] bytes (no limit
    for a negative [n]), and no byte only at the end of the file. *)
Definition read1 (f : File) (pos n : Z) : list Byte.byte :=
  let rest := skipn (Z.to_nat pos) (content f) in
  let limit := if n <? 0 then len rest else n in
  firstn (Z.to_nat (Z.min limit (Z.max 1 (grant f pos n)))) rest.

(** The [while remaining:] loop of [gen], from position [pos]: the chunks it
    yields.  [fuel] bounds the number of iterations; [None] is the loop still
    running when the fuel is spent. *)
Fixpoint gen_loop (fuel : nat) (f : File) (total remaining pos : Z)
  : option (list (list Byte.byte)) :=
  if remaining =? 0 then Some []
  else
    match fuel with
    | O => None
    | S fuel' =>
        let chunk := read1 f pos remaining in
        if len chunk =? 0 then Some []
        else
          let remaining := total - len chunk in
          option_map (cons chunk)
            (gen_loop fuel' f total remaining (pos + len chunk))
    end.

(** [gen()]: the file is opened, [seek] goes to the offset of the part (a
    negative position is refused), and the loop starts with
    [remaining = total = i.part_size]. *)
Definition gen (fuel : nat) (f : File) (i : UploadS3PartInput.t)
  : option (result (list (list Byte.byte))) :=
  if UploadS3PartInput.file_offset i <? 0 then
    Some (Raise (OtherException "OSError"))
  else
    option_map Ok
      (gen_loop fuel f (UploadS3PartInput.part_size i)
         (UploadS3PartInput.part_size i) (UploadS3PartInput.file_offset i)).

(** The request body that [http_client.put(.., content=gen())] streams: the
    chunks, one after the other. *)
Definition body (fuel : nat) (f : File) (i : UploadS3PartInput.t)
  : option (result (list Byte.byte)) :=
  option_map (fun r => (chunks <- r ;; Ok (List.concat chunks))%py) (gen fuel f i).

(** Every read yields all that it is asked for, up to the end of the
    file. *)
Definition full_reads (f : File) : Prop := forall pos n, n <= grant f pos n.
End UploadS3Part.

(** ** Properties of the runs of [CreateImage] *)

(** The tasks of one group, each the activity [a x] for an [x] of [l], run
    from the history [h]: task after task, the world's answer to each, given
    the history of the tasks before it, is the value at the same place of
    [ps]. *)
Fixpoint answered {A X : Type} (W : World) (a : X -> activity A)
  (task_queue : option string) (h : history) (l : list X) (ps : list A) : Prop :=
  match l, ps with
  | [], [] => True
  | x :: l', p :: ps' =>
      respond W A h (a x) task_queue = Ok p /\
      answered W a task_queue (h ++ [Scheduled (a x) task_queue]) l' ps'
  | _, _ => False
  end.

(** The history of a run of the generation pipeline that returns [out]:
    worker lookup, download, encoding, start of the multipart upload, one
    upload per part in the order of the part numbers, finalize, deletion of
    the local file, and nothing else; every value that flows on is the
    world's answer to the activity before, at the history of that moment, and
    [out] carries the key that the finalize step answered. *)
Definition generated (i : WorkflowsSchema.CreateImageInput.t) (W : World)
  (h h' : history) (out : WorkflowsSchema.CreateImageOutput.t) : Prop :=
  exists w f img mp parts fin count,
    let q := Some (ActivitiesSchema.FindBestWorkerOutput.task_queue w) in
    let find :=
      find_best_worker
        {| ActivitiesSchema.FindBestWorkerInput.frame_id :=
             WorkflowsSchema.CreateImageInput.frame_id i |} in
    let download :=
      download_frame_file_with_workflow
        {| ActivitiesSchema.DownloadFrameFileInput.frame_id :=
             WorkflowsSchema.CreateImageInput.frame_id i;
           ActivitiesSchema.DownloadFrameFileInput.force_download := false;
           ActivitiesSchema.DownloadFrameFileInput.recheck_version := false |} in
    let create :=
      create_image_file
        {| ActivitiesSchema.CreateImageFileInput.fits_path :=
             ActivitiesSchema.DownloadFrameFileOuput.file_path f;
           ActivitiesSchema.CreateImageFileInput.hdu_index :=
             WorkflowsSchema.CreateImageInput.hdu_index i;
           ActivitiesSchema.CreateImageFileInput.pixel_region :=
             {| ActivitiesSchema.PixelRegion.x :=
                  WorkflowsSchema.PixelRegion.x
                    (WorkflowsSchema.CreateImageInput.pixel_region i);
                ActivitiesSchema.PixelRegion.y :=
                  WorkflowsSchema.PixelRegion.y
                    (WorkflowsSchema.CreateImageInput.pixel_region i);
                ActivitiesSchema.PixelRegion.w :=
                  WorkflowsSchema.PixelRegion.w
                    (WorkflowsSchema.CreateImageInput.pixel_region i);
                ActivitiesSchema.PixelRegion.h :=
                  WorkflowsSchema.PixelRegion.h
                    (WorkflowsSchema.CreateImageInput.pixel_region i) |};
           ActivitiesSchema.CreateImageFileInput.pixel_size :=
             {| ActivitiesSchema.PixelSize.width :=
                  WorkflowsSchema.PixelSize.width
                    (WorkflowsSchema.CreateImageInput.pixel_size i);
                ActivitiesSchema.PixelSize.height :=
                  WorkflowsSchema.PixelSize.height
                    (WorkflowsSchema.CreateImageInput.pixel_size i) |};
           ActivitiesSchema.CreateImageFileInput.fmt :=
             WorkflowsSchema.CreateImageInput.fmt i |} in
    let start :=
      start_s3_multipart_upload
        {| ActivitiesSchema.StartS3MultipartUploadInput.object_key :=
             ("generated/" ++
              ActivitiesSchema.CreateImageFileOutput.sha256 img)%string |} in
    let part := fun part_i => upload_s3_part (CreateImage.part_input img mp part_i) in
    let finish :=
      finish_s3_multipart_upload
        {| ActivitiesSchema.FinishS3MultipartUploadInput.object_key :=
             ActivitiesSchema.StartS3MultipartUploadOutput.object_key mp;
           ActivitiesSchema.FinishS3MultipartUploadInput.upload_id :=
             ActivitiesSchema.StartS3MultipartUploadOutput.upload_id mp;
           ActivitiesSchema.FinishS3MultipartUploadInput.uploaded_parts :=
             parts |} in
    let delete :=
      delete_file
        {| ActivitiesSchema.DeleteFileInput.file_path :=
             ActivitiesSchema.CreateImageFileOutput.file_path img |} in
    let started :=
      h ++ [Scheduled find None; Scheduled download q; Scheduled create q;
            Scheduled start None] in
    let uploaded :=
      started ++ map (fun part_i => Scheduled (part part_i) q) (range count) in
    respond W _ h find None = Ok w /\
    respond W _ (h ++ [Scheduled find None]) download q = Ok f /\
    respond W _ (h ++ [Scheduled find None; Scheduled download q]) create q
      = Ok img /\
    respond W _
      (h ++ [Scheduled find None; Scheduled download q; Scheduled create q])
      start None = Ok mp /\
    CreateImage.part_count (ActivitiesSchema.CreateImageFileOutput.file_size img)
      = Ok count /\
    answered W part q started (range count) parts /\
    respond W _ uploaded finish None = Ok fin /\
    h' = uploaded ++ [Scheduled finish None; Scheduled delete q] /\
    out = {| WorkflowsSchema.CreateImageOutput.s3_object_key :=
               ActivitiesSchema.FinishS3MultipartUploadOutput.object_key fin |}.

(** The activities that work on the files of one worker. *)
Definition uses_worker_files {A} (a : activity A) : bool :=
  match a with
  | download_frame_file_with_workflow _ | get_hdu_dimensions _
  | create_image_file _ | upload_s3_part _ | delete_file _ => true
  | find_best_worker _ | start_s3_multipart_upload _
  | finish_s3_multipart_upload _ | abort_s3_multipart_upload _ => false
  end.

(** The event is an activity that is scheduled on the queue [q] when it
    works on the worker's files, and on the workflow's own queue
    otherwise. *)
Definition on_queue (q : string) (ev : event) : Prop :=
  match ev with
  | Scheduled a task_queue =>
      task_queue = if uses_worker_files a then Some q else None
  | Slept _ => False
  end.

(** ** [api/utils.py] and the handlers of [api/routes.py]

    A handler awaits the Temporal client and the S3 client.  What they
    answer is theirs to say: [Services] answers every call, from the log of
    the calls made before, with a value or with the exception raised at that
    call. *)

Module Api.

Inductive WorkflowIDReusePolicy : Type :=
| ALLOW_DUPLICATE
| ALLOW_DUPLICATE_FAILED_ONLY.

(** The calls of the handlers, indexed by what they return:
    [tc.get_workflow_handle_for(W.run, workflow_id=..).result()],
    [tc.execute_workflow(W.run, i, id=.., task_queue=.., id_reuse_policy=..,
    execution_timeout=..)] (the timeout in seconds) and
    [s3.generate_presigned_url(method, Params={Bucket, Key}, ExpiresIn=..)]. *)
Inductive call : Type -> Type :=
| GetFrameDimensions_result (workflow_id : string)
    : call WorkflowsSchema.GetFrameDimensionsOutput.t
| GetFrameDimensions_execute (i : WorkflowsSchema.GetFrameDimensionsInput.t)
    (id task_queue : string) (id_reuse_policy : WorkflowIDReusePolicy)
    (execution_timeout : Z)
    : call WorkflowsSchema.GetFrameDimensionsOutput.t
| CreateImage_result (workflow_id : string)
    : call WorkflowsSchema.CreateImageOutput.t
| CreateImage_execute (i : WorkflowsSchema.CreateImageInput.t)
    (id task_queue : string) (id_reuse_policy : WorkflowIDReusePolicy)
    (execution_timeout : Z)
    : call WorkflowsSchema.CreateImageOutput.t
| generate_presigned_url (client_method bucket key : string) (expires_in : Z)
    : call string.

Inductive request : Type :=
| Called {A : Type} (c : call A).

Definition log : Type := list request.

Record Services : Type := {
  answer : forall A : Type, log -> call A -> result A
}.

Definition handler (A : Type) : Type := Services -> log -> log * result A.

Definition ret {A} (a : A) : handler A := fun _ l => (l, Ok a).

Definition raise {A} (e : exn) : handler A := fun _ l => (l, Raise e).

(** a computation of the handler itself, with no await in it *)
Definition lift {A} (r : result A) : handler A := fun _ l => (l, r).

Definition bind {A B} (m : handler A) (k : A -> handler B) : handler B :=
  fun S l =>
    match m S l with
    | (l', Ok a) => k a S l'
    | (l', Raise e) => (l', Raise e)
    end.

Definition await {A} (c : call A) : handler A :=
  fun S l => (l ++ [Called c], answer S A l c).

(** [try: body  except <class>: handler], for the class recognised by
    [caught]. *)
Definition try_except {A} (caught : exn -> bool) (body : handler A)
  (handle : exn -> handler A) : handler A :=
  fun S l =>
    match body S l with
    | (l', Ok a) => (l', Ok a)
    | (l', Raise e) => if caught e then handle e S l' else (l', Raise e)
    end.

(** [temporalio.exceptions.WorkflowAlreadyStartedError] *)
Definition WorkflowAlreadyStartedError : exn :=
  OtherException "WorkflowAlreadyStartedError".

Definition is_WorkflowAlreadyStartedError (e : exn) : bool :=
  match e with
  | OtherException name => String.eqb name "WorkflowAlreadyStartedError"
  | _ => false
  end.

(** Lines 35-38 of [utils.py], 111-114 of [routes.py]. *)
Definition id_reuse_policy (reuse_workflow : bool) : WorkflowIDReusePolicy :=
  if reuse_workflow then ALLOW_DUPLICATE_FAILED_ONLY else ALLOW_DUPLICATE.

(** [utils.get_frame_dimensions] *)
Definition get_frame_dimensions (frame_id : string) (hdu_index : Z)
  (reuse_workflow force_download recheck_version : bool)
  : handler WorkflowsSchema.GetFrameDimensionsOutput.t :=
  let workflow_id :=
    ("GetFrameDimensions:frames/" ++ frame_id ++ "/fits/hdus/" ++ str hdu_index)%string in
  try_except isinstance_Exception
    (if negb reuse_workflow then raise (OtherException "Exception")
     else await (GetFrameDimensions_result workflow_id))
    (fun _ =>
       try_except is_WorkflowAlreadyStartedError
         (await
            (GetFrameDimensions_execute
               {| WorkflowsSchema.GetFrameDimensionsInput.frame_id := frame_id;
                  WorkflowsSchema.GetFrameDimensionsInput.hdu_index := hdu_index;
                  WorkflowsSchema.GetFrameDimensionsInput.force_download := force_download;
                  WorkflowsSchema.GetFrameDimensionsInput.recheck_version := recheck_version |}
               workflow_id "generic" (id_reuse_policy reuse_workflow) 3600))
         (fun _ => await (GetFrameDimensions_result workflow_id))).

(** [routes.get_image_information]; [url] is the URL of the request without
    its query. *)
Definition get_image_information (frame_id : string) (hdu_index : Z)
  (url : string) (reuse_workflow force_download recheck_version : bool)
  : handler ImageInfoDocument :=
  bind (get_frame_dimensions frame_id hdu_index reuse_workflow force_download
          recheck_version)
    (fun dimensions => lift (image_information url dimensions)).

(** [PixelRegion.__str__] and [PixelSize.__str__] of [api/schema.py] *)
Definition PixelRegion_str (r : PixelRegion.t) : string :=
  (str (PixelRegion.x r) ++ "," ++ str (PixelRegion.y r) ++ "," ++
   str (PixelRegion.w r) ++ "," ++ str (PixelRegion.h r))%string.

Definition PixelSize_str (s : PixelSize.t) : string :=
  let up := if PixelSize.upscaleable s then "^"%string else ""%string in
  (up ++ str (PixelSize.width s) ++ "," ++ str (PixelSize.height s))%string.

(** Line 108 of [routes.py]: the id of the generation workflow. *)
Definition CreateImage_id (frame_id : string) (hdu_index : Z)
  (norm_region : PixelRegion.t) (norm_size : PixelSize.t)
  (rotation quality fmt : string) : string :=
  ("CreateImage:" ++ frame_id ++ "/" ++ str hdu_index ++ "/" ++
   PixelRegion_str norm_region ++ "/" ++ PixelSize_str norm_size ++ "/" ++
   rotation ++ "/" ++ quality ++ "." ++ fmt)%string.

(** Lines 118-135: the input of the generation workflow. *)
Definition CreateImage_input (frame_id : string) (hdu_index : Z)
  (norm_region : PixelRegion.t) (norm_size : PixelSize.t) (fmt : string)
  : WorkflowsSchema.CreateImageInput.t :=
  {| WorkflowsSchema.CreateImageInput.frame_id := frame_id;
     WorkflowsSchema.CreateImageInput.hdu_index := hdu_index;
     WorkflowsSchema.CreateImageInput.pixel_region :=
       {| WorkflowsSchema.PixelRegion.x := PixelRegion.x norm_region;
          WorkflowsSchema.PixelRegion.y := PixelRegion.y norm_region;
          WorkflowsSchema.PixelRegion.w := PixelRegion.w norm_region;
          WorkflowsSchema.PixelRegion.h := PixelRegion.h norm_region |};
     WorkflowsSchema.CreateImageInput.pixel_size :=
       {| WorkflowsSchema.PixelSize.width := PixelSize.width norm_size;
          WorkflowsSchema.PixelSize.height := PixelSize.height norm_size |};
     WorkflowsSchema.CreateImageInput.fmt := fmt |}.

Record RedirectResponse : Type := { url : string }.

(** [routes.get_image].  The handler calls [get_image_information] as a
    plain function, with the frame, the HDU, the client and the request only:
    the three flags of that function take their defaults. *)
Definition get_image (frame_id : string) (hdu_index : Z) (region : Region)
  (size : Size) (rotation quality fmt : string) (bucket : string)
  (req_url : string) (reuse_workflow : bool) : handler RedirectResponse :=
  bind (get_image_information frame_id hdu_index req_url true false false)
    (fun doc =>
  bind (lift (normalize_region region (info doc))) (fun norm_region =>
  bind (lift (normalize_size size norm_region (info doc))) (fun norm_size =>
  let workflow_id :=
    CreateImage_id frame_id hdu_index norm_region norm_size rotation quality fmt in
  bind
    (try_except is_WorkflowAlreadyStartedError
       (await
          (CreateImage_execute
             (CreateImage_input frame_id hdu_index norm_region norm_size fmt)
             workflow_id "generic" (id_reuse_policy reuse_workflow) 86400))
       (fun _ => await (CreateImage_result workflow_id)))
    (fun r =>
  bind
    (await
       (generate_presigned_url "get_object" bucket
          (WorkflowsSchema.CreateImageOutput.s3_object_key r) (5 * 60)))
    (fun presigned_url => ret {| url := presigned_url |}))))).

(** [m] only appends to the log, and every call it appends satisfies
    [P]. *)
Definition sends (P : request -> Prop) {A} (m : handler A) : Prop :=
  forall S l, exists new, fst (m S l) = l ++ new /\ Forall P new.

(** What [get_image] may ask of the workflow engine for a request on
    [frame_id], [hdu_index] and [fmt]: the dimension workflow, on the
    [generic] queue, asked neither to force the download nor to recheck the
    version and started under the failed-only policy; and the generation
    workflow, on the [generic] queue under the policy of the request, for a
    rectangle with a non-negative origin, at least one pixel wide and high,
    and a size of at least one pixel and at most the rectangle's. *)
Definition well_formed_request (frame_id : string) (hdu_index : Z)
  (fmt : string) (reuse_workflow : bool) (ev : request) : Prop :=
  match ev with
  | Called c =>
      match c with
      | GetFrameDimensions_execute i _ task_queue policy _ =>
          WorkflowsSchema.GetFrameDimensionsInput.frame_id i = frame_id /\
          WorkflowsSchema.GetFrameDimensionsInput.hdu_index i = hdu_index /\
          WorkflowsSchema.GetFrameDimensionsInput.force_download i = false /\
          WorkflowsSchema.GetFrameDimensionsInput.recheck_version i = false /\
          task_queue = "generic"%string /\
          policy = ALLOW_DUPLICATE_FAILED_ONLY
      | CreateImage_execute i _ task_queue policy _ =>
          let r := WorkflowsSchema.CreateImageInput.pixel_region i in
          let s := WorkflowsSchema.CreateImageInput.pixel_size i in
          WorkflowsSchema.CreateImageInput.frame_id i = frame_id /\
          WorkflowsSchema.CreateImageInput.hdu_index i = hdu_index /\
          WorkflowsSchema.CreateImageInput.fmt i = fmt /\
          task_queue = "generic"%string /\
          policy = id_reuse_policy reuse_workflow /\
          0 <= WorkflowsSchema.PixelRegion.x r /\
          0 <= WorkflowsSchema.PixelRegion.y r /\
          1 <= WorkflowsSchema.PixelRegion.w r /\
          1 <= WorkflowsSchema.PixelRegion.h r /\
          1 <= WorkflowsSchema.PixelSize.width s <= WorkflowsSchema.PixelRegion.w r /\
          1 <= WorkflowsSchema.PixelSize.height s <= WorkflowsSchema.PixelRegion.h r
      | _ => True
      end
  end.
End Api.

(** [c not in s] *)
Fixpoint free_of (c : ascii) (s : string) : bool :=
  match s with
  | EmptyString => true
  | String a s' => negb (Ascii.eqb a c) && free_of c s'
  end.

(** The characters of a printed integer. *)
Definition in_number (c : ascii) : bool :=
  existsb (Ascii.eqb c)
    ["-"; "0"; "1"; "2"; "3"; "4"; "5"; "6"; "7"; "8"; "9"]%char.

(** ** The queue of a worker: [temporal/worker.py] lines 139-157 and
    [activities.py] lines 60-84

    A path is the list of its components; [p / "name"] adds one. *)

Module WorkerQueue.

Definition path : Type := list string.

(** The text files of the disk: the text of each file that exists. *)
Definition disk : Type := path -> option string.

Definition same_path (p q : path) : bool :=
  if list_eq_dec string_dec p q then true else false.

(** [file_path.write_text(text)] *)
Definition write_text (d : disk) (file_path : path) (text : string) : disk :=
  fun p => if same_path p file_path then Some text else d p.

(** [working_dir / "worker-task-queue.txt"], in both files. *)
Definition queue_file (working_dir : path) : path :=
  working_dir ++ ["worker-task-queue.txt"%string].

(** [generate_worker_specific_task_queue]; [uuid] is what [uuid4()]
    prints.  The name and the disk afterwards. *)
Definition generate_worker_specific_task_queue (working_dir : path)
  (uuid : string) (d : disk) : string * disk :=
  let file_path := queue_file working_dir in
  match d file_path with
  | Some q => (q, d)
  | None =>
      let q := ("worker/" ++ uuid)%string in
      (q, write_text d file_path q)
  end.

(** [Activities.get_worker_specific_task_queue]: the [name] of its
    output. *)
Definition get_worker_specific_task_queue (working_dir : path) (d : disk)
  : result string :=
  let file_path := queue_file working_dir in
  match d file_path with
  | Some q => Ok q
  | None => Raise (OtherException "FileNotFoundError")
  end.

(** [Activities.find_best_worker] *)
Definition find_best_worker (working_dir : path) (d : disk)
  (i : ActivitiesSchema.FindBestWorkerInput.t)
  : result ActivitiesSchema.FindBestWorkerOutput.t :=
  wq <- get_worker_specific_task_queue working_dir d ;;
  Ok {| ActivitiesSchema.FindBestWorkerOutput.task_queue := wq |}.
End WorkerQueue.

(** ** [activities.py]: the HDU of a FITS file (lines 195-229 and
    234-242) *)

Module Fits.

(** An HDU as the activities read it: its [shape], and its [data], the
    rows of an image. *)
Record HDU (A : Type) : Type := { shape : list Z; data : list (list A) }.
Arguments shape {A} _.
Arguments data {A} _.

(** [l[i]], with Python's negative indices; [None] is [IndexError]. *)
Definition index {A} (l : list A) (i : Z) : option A :=
  let n := UploadS3Part.len l in
  if (i <? - n) || (n <=? i) then None
  else nth_error l (Z.to_nat (if i <? 0 then i + n else i)).

(** [l[start:stop]], with Python's negative and out-of-range bounds. *)
Definition slice {A} (l : list A) (start stop : Z) : list A :=
  let n := UploadS3Part.len l in
  let clamp (i : Z) := if i <? 0 then Z.max (i + n) 0 else Z.min i n in
  firstn (Z.to_nat (clamp stop - clamp start)) (skipn (Z.to_nat (clamp start)) l).

(** [_get_hdu] *)
Definition _get_hdu {A} (hdus : list (HDU A)) (hdu_index : Z)
  : result (HDU A) :=
  match index hdus hdu_index with
  | Some hdu => Ok hdu
  | None =>
      Raise (ApplicationError ("HDU index " ++ str hdu_index ++ " not found") true)
  end.

(** [_get_hdu_dimensions], on the HDUs of the opened file: the pair it
    returns. *)
Definition _get_hdu_dimensions {A} (hdus : list (HDU A)) (hdu_index : Z)
  : result (Z * Z) :=
  hdu <- _get_hdu hdus hdu_index ;;
  let shape := shape hdu in
  let num_dimensions := UploadS3Part.len shape in
  if negb (num_dimensions =? 2) then
    Raise (ApplicationError
             ("HDU has an invalid number of dimensions: " ++ str num_dimensions)
             true)
  else Ok (nth 0 shape 0, nth 1 shape 0).

(** [get_hdu_dimensions]; [opened] is what [fits.open(i.fits_path)] gives,
    or raises. *)
Definition get_hdu_dimensions {A} (opened : result (list (HDU A)))
  (i : ActivitiesSchema.GetHduDimensionsInput.t)
  : result ActivitiesSchema.GetHduDimensionsOutput.t :=
  hdus <- opened ;;
  hw <- _get_hdu_dimensions hdus (ActivitiesSchema.GetHduDimensionsInput.hdu_index i) ;;
  let '(height, width) := hw in
  Ok {| ActivitiesSchema.GetHduDimensionsOutput.width := width;
        ActivitiesSchema.GetHduDimensionsOutput.height := height |}.

(** Line 242 of [_create_image_threaded]: [data[y:y+h, x:x+w]]. *)
Definition cropped {A} (data : list (list A))
  (pixel_region : ActivitiesSchema.PixelRegion.t) : list (list A) :=
  let x := ActivitiesSchema.PixelRegion.x pixel_region in
  let y := ActivitiesSchema.PixelRegion.y pixel_region in
  let w := ActivitiesSchema.PixelRegion.w pixel_region in
  let h := ActivitiesSchema.PixelRegion.h pixel_region in
  map (fun row => slice row x (x + w)) (slice data y (y + h)).

(** An image of [height] rows of [width] pixels, with the shape that
    says so. *)
Definition image_hdu {A} (hdu : HDU A) (width height : Z) : Prop :=
  shape hdu = [height; width] /\
  UploadS3Part.len (data hdu) = height /\
  Forall (fun row => UploadS3Part.len row = width) (data hdu).
End Fits.

(** The rectangle as the API hands it to the generation workflow and the
    workflow to [create_image_file] (routes.py lines 122-127, workflows.py
    lines 138-143): the four numbers, unchanged. *)
Definition activity_region (norm_region : PixelRegion.t)
  : ActivitiesSchema.PixelRegion.t :=
  {| ActivitiesSchema.PixelRegion.x := PixelRegion.x norm_region;
     ActivitiesSchema.PixelRegion.y := PixelRegion.y norm_region;
     ActivitiesSchema.PixelRegion.w := PixelRegion.w norm_region;
     ActivitiesSchema.PixelRegion.h := PixelRegion.h norm_region |}.

(** The dimensions as [GetFrameDimensions._run] returns them (workflows.py
    line 81): the activity's, unchanged. *)
Definition workflow_dimensions (d : ActivitiesSchema.GetHduDimensionsOutput.t)
  : WorkflowsSchema.GetFrameDimensionsOutput.t :=
  {| WorkflowsSchema.GetFrameDimensionsOutput.width :=
       ActivitiesSchema.GetHduDimensionsOutput.width d;
     WorkflowsSchema.GetFrameDimensionsOutput.height :=
       ActivitiesSchema.GetHduDimensionsOutput.height d |}.

(** ** [api/schema.py]: the string forms of [PixelRegion] and [PixelSize]
    (lines 333-347 and 458-483)

    [to_int] is the conversion of a string to an [int] field by the model's
    own validation; [None] when the string is refused. *)

Module Validate.

(** [s.split(sep)] for a separator of one character *)
Fixpoint split (sep : ascii) (s : string) : list string :=
  match s with
  | EmptyString => [EmptyString]
  | String c s' =>
      if Ascii.eqb c sep then EmptyString :: split sep s'
      else
        match split sep s' with
        | first :: others => String c first :: others
        | [] => [String c EmptyString]
        end
  end.

(** [v.startswith("^")] and [v.removeprefix("^")] *)
Definition startswith_caret (v : string) : bool :=
  match v with
  | String c _ => Ascii.eqb c "^"
  | EmptyString => false
  end.

Definition removeprefix_caret (v : string) : string :=
  match v with
  | String c v' => if Ascii.eqb c "^" then v' else v
  | EmptyString => v
  end.

Definition int_field (to_int : string -> option Z) (model : string)
  (s : string) : result Z :=
  match to_int s with
  | Some n => Ok n
  | None => Raise (ValidationError model)
  end.

(** [PixelRegion._validate] on a string *)
Definition PixelRegion_validate (to_int : string -> option Z) (v : string)
  : result PixelRegion.t :=
  match split "," v with
  | [x; y; w; h] =>
      x <- int_field to_int "PixelRegion" x ;;
      y <- int_field to_int "PixelRegion" y ;;
      w <- int_field to_int "PixelRegion" w ;;
      h <- int_field to_int "PixelRegion" h ;;
      PixelRegion.new x y w h
  | _ => Raise ValueError
  end.

(** [PixelSize._validate] on a string *)
Definition PixelSize_validate (to_int : string -> option Z) (v : string)
  : result PixelSize.t :=
  let upscale := startswith_caret v in
  match split "," (removeprefix_caret v) with
  | [width; height] =>
      width <- int_field to_int "PixelSize" width ;;
      height <- int_field to_int "PixelSize" height ;;
      PixelSize.new upscale width height
  | _ => Raise (OtherException "AssertionError")
  end.
End Validate.

(** ** [activities.py]: the cache of [download_frame_file] (lines 110-188)

    The activity awaits the file system and the archive.  [Env] answers
    every operation, from the trace of the operations before.

    A path is the list of its parts, as [PurePosixPath.parts] gives them: the
    root first, when there is one.  Every path of the activity is built by
    [joinpath], which reads its segments as [pathlib] does: slashes split a
    segment, empty components and ["."] are dropped, and a segment with a
    root starts the path again. *)

Module Download.

Definition path : Type := list string.

(** The operations, indexed by what they return.  [stream_to_file] is the
    [with] block of lines 167-172 as a whole: the file is opened for writing
    and the body of the response to [GET download_url] is written to it. *)
Inductive op : Type -> Type :=
| path_exists (p : path) : op bool
| listdir (p : path) : op (list string)
| resolve (p : path) : op string
| http_get (base reference : string) : op httpx.Response
| makedirs (p : path) : op unit
| stream_to_file (download_url : json) (p : path) : op unit
| rename (src dst : path) : op unit
| unlink (p : path) : op unit
| symlink (target link : path) : op unit.

Inductive event : Type :=
| Did {A : Type} (o : op A).

Definition trace : Type := list event.

Record Env : Type := {
  reply : forall A : Type, trace -> op A -> result A;
  (** [str(v)] and [f"{v}"] for a parsed JSON value [v] *)
  format : json -> string
}.

Definition act (A : Type) : Type := Env -> trace -> trace * result A.

Definition ret {A} (a : A) : act A := fun _ t => (t, Ok a).

Definition raise {A} (e : exn) : act A := fun _ t => (t, Raise e).

Definition lift {A} (r : result A) : act A := fun _ t => (t, r).

Definition bind {A B} (m : act A) (k : A -> act B) : act B :=
  fun E t =>
    match m E t with
    | (t', Ok a) => k a E t'
    | (t', Raise e) => (t', Raise e)
    end.

Definition await {A} (o : op A) : act A :=
  fun E t => (t ++ [Did o], reply E A t o).

(** [with suppress(Exception): body] *)
Definition suppress_Exception (body : act unit) : act unit :=
  fun E t =>
    match body E t with
    | (t', Ok u) => (t', Ok u)
    | (t', Raise e) =>
        if isinstance_Exception e then (t', Ok tt) else (t', Raise e)
    end.

(** The root of a segment, as [pathlib] reads it: none, ["/"], or ["//"]
    for exactly two leading slashes. *)
Definition root_of (segment : string) : option string :=
  match segment with
  | String "/" (String "/" (String "/" _)) => Some "/"%string
  | String "/" (String "/" _) => Some "//"%string
  | String "/" _ => Some "/"%string
  | _ => None
  end.

Definition is_root (part : string) : bool :=
  String.eqb part "/" || String.eqb part "//".

(** The parts of one segment: its root, when it has one, and its
    components between slashes, the empty ones and ["."] left out. *)
Definition segment_parts (segment : string) : path :=
  let components :=
    filter (fun c => negb (String.eqb c "") && negb (String.eqb c "."))
      (Validate.split "/" segment) in
  match root_of segment with
  | Some root => root :: components
  | None => components
  end.

Definition is_absolute (p : path) : bool :=
  match p with
  | part :: _ => is_root part
  | [] => false
  end.

(** [p.joinpath(segment, ...)]: a segment with a root starts the path
    again. *)
Definition joinpath (p : path) (segments : list string) : path :=
  fold_left
    (fun p segment =>
       let q := segment_parts segment in
       if is_absolute q then q else p ++ q)
    segments p.

(** [p.parent]: the root is its own parent. *)
Definition parent (p : path) : path :=
  match p with
  | [part] => if is_root part then p else []
  | _ => removelast p
  end.

(** The answer of the activity for the file at [location]. *)
Definition located (location : path) (cached : bool)
  : act ActivitiesSchema.DownloadFrameFileOuput.t :=
  bind (await (resolve location)) (fun file_path =>
  ret {| ActivitiesSchema.DownloadFrameFileOuput.file_path := file_path;
         ActivitiesSchema.DownloadFrameFileOuput.cached := cached |}).

(** Lines 153-188: the versioned location, the download into
    [inprogress], the move into [completed] and the [latest] link. *)
Definition fetch (cache_dir completed_dir latest_version_dir : path)
  (i : ActivitiesSchema.DownloadFrameFileInput.t)
  (m : Activities.FrameMetadata) : act ActivitiesSchema.DownloadFrameFileOuput.t :=
  fun E =>
    let frame_id := ActivitiesSchema.DownloadFrameFileInput.frame_id i in
    let version_id := format E (Activities.version_id m) in
    let name := (format E (Activities.basename m) ++ format E (Activities.ext m))%string in
    let location :=
      joinpath completed_dir
        ["frames"%string; frame_id; "versions"%string; version_id; name] in
    bind
      (if negb (ActivitiesSchema.DownloadFrameFileInput.force_download i)
       then await (path_exists location)
       else ret false)
      (fun present =>
         if present then located location true
         else
           let inprogress_dir := joinpath cache_dir ["inprogress"%string] in
           let inprogress_location :=
             joinpath inprogress_dir
               ["frames"%string; frame_id; "versions"%string; version_id; name] in
           bind (await (makedirs (parent inprogress_location))) (fun _ =>
           bind (await (stream_to_file (Activities.download_url m) inprogress_location))
             (fun _ =>
           bind (await (makedirs (parent location))) (fun _ =>
           bind (await (rename inprogress_location location)) (fun _ =>
           bind (suppress_Exception (await (unlink latest_version_dir))) (fun _ =>
           bind (await (symlink (parent location) latest_version_dir)) (fun _ =>
           located location false)))))))
      E.

(** [download_frame_file]; [cache_dir] is
    [working_dir / "cache/archive" / host_hash] and [ocsarchive_api] the
    configured URL of the archive. *)
Definition download_frame_file (cache_dir : path) (ocsarchive_api : string)
  (i : ActivitiesSchema.DownloadFrameFileInput.t)
  : act ActivitiesSchema.DownloadFrameFileOuput.t :=
  let frame_id := ActivitiesSchema.DownloadFrameFileInput.frame_id i in
  let completed_dir := joinpath cache_dir ["completed"%string] in
  let latest_version_dir :=
    joinpath completed_dir
      ["frames"%string; frame_id; "versions"%string; "latest"%string] in
  bind
    (if negb (ActivitiesSchema.DownloadFrameFileInput.force_download i)
        && negb (ActivitiesSchema.DownloadFrameFileInput.recheck_version i)
     then await (path_exists latest_version_dir)
     else ret false)
    (fun latest_present =>
       if latest_present then
         bind (await (listdir latest_version_dir)) (fun latest_version_dir_files =>
         if negb (UploadS3Part.len latest_version_dir_files =? 1) then
           raise (ApplicationError "Download cache is in invalid state" true)
         else
           located
             (joinpath latest_version_dir
                [nth 0 latest_version_dir_files EmptyString])
             true)
       else
         bind (await (http_get ocsarchive_api ("/frames/" ++ frame_id ++ "/")))
           (fun r =>
         bind (lift (Activities.frame_metadata r)) (fun m =>
         fetch cache_dir completed_dir latest_version_dir i m))).

Definition is_request (ev : event) : bool :=
  match ev with
  | Did o =>
      match o with
      | http_get _ _ | stream_to_file _ _ => true
      | _ => false
      end
  end.

End Download.


(** A segment that is one component of a path: not empty, not ["."], and
    without a slash. *)
Definition plain (segment : string) : bool :=
  free_of "/" segment &&
  negb (String.eqb segment "") && negb (String.eqb segment ".").

(** The last steps of a download of the frame [frame_id] in the version and
    under the name that the metadata [m] give, with the paths as the code
    builds them: the directory of the file in the [inprogress] tree is made,
    the body is streamed into the file there, the directory of the location
    in the [completed] tree is made, the file is moved to the location, the
    [latest] link is removed and made again towards the directory of the
    location, and the location is resolved. *)
Definition fresh_download (E : Download.Env) (cache_dir : Download.path)
  (frame_id : string) (m : Activities.FrameMetadata) : Download.trace :=
  let version_id := Download.format E (Activities.version_id m) in
  let name :=
    (Download.format E (Activities.basename m) ++
     Download.format E (Activities.ext m))%string in
  let segments :=
    ["frames"%string; frame_id; "versions"%string; version_id; name] in
  let completed_dir := Download.joinpath cache_dir ["completed"%string] in
  let inprogress_dir := Download.joinpath cache_dir ["inprogress"%string] in
  let location := Download.joinpath completed_dir segments in
  let inprogress_location := Download.joinpath inprogress_dir segments in
  let latest :=
    Download.joinpath completed_dir
      ["frames"%string; frame_id; "versions"%string; "latest"%string] in
  [ Download.Did (Download.makedirs (Download.parent inprogress_location));
    Download.Did
      (Download.stream_to_file (Activities.download_url m) inprogress_location);
    Download.Did (Download.makedirs (Download.parent location));
    Download.Did (Download.rename inprogress_location location);
    Download.Did (Download.unlink latest);
    Download.Did (Download.symlink (Download.parent location) latest);
    Download.Did (Download.resolve location) ].

(** A worker whose cache holds the frame: every directory exists and holds
    the one file [frame.fits.fz]; the archive is out of reach. *)
Definition warm_cache : Download.Env :=
  {| Download.reply := fun A _ o =>
       match o in Download.op T return result T with
       | Download.path_exists _ => Ok true
       | Download.listdir _ => Ok ["frame.fits.fz"%string]
       | Download.resolve _ => Ok "/work/cache/frame.fits.fz"%string
       | _ => Raise (OtherException "OSError")
       end;
     Download.format := fun _ => "7"%string |}.





Definition is_delete_file (ev : event) : bool :=
  match ev with
  | Scheduled a _ =>
      match a with
      | delete_file _ => true
      | _ => false
      end
  | Slept _ => false
  end.

(** The attempts of the outer shell before the one that returned: each a
    run of the pipeline that raised an [Exception], followed by the
    5-second timer. *)
Inductive failed_attempts {A} (_run : workflow A) (W : World)
  : history -> history -> Prop :=
| no_attempt h : failed_attempts _run W h h
| one_more_attempt h h1 e h2 :
    _run W h = (h1, Raise e) -> isinstance_Exception e = true ->
    wakes W h1 5 = true ->
    failed_attempts _run W (h1 ++ [Slept 5]) h2 ->
    failed_attempts _run W h h2.

(** Lines 138-158 of [workflows.py]: the input of [create_image_file] for
    the workflow input [i] and the downloaded file [f]. *)
Definition create_image_file_input (i : WorkflowsSchema.CreateImageInput.t)
  (f : ActivitiesSchema.DownloadFrameFileOuput.t)
  : ActivitiesSchema.CreateImageFileInput.t :=
  {| ActivitiesSchema.CreateImageFileInput.fits_path :=
       ActivitiesSchema.DownloadFrameFileOuput.file_path f;
     ActivitiesSchema.CreateImageFileInput.hdu_index :=
       WorkflowsSchema.CreateImageInput.hdu_index i;
     ActivitiesSchema.CreateImageFileInput.pixel_region :=
       {| ActivitiesSchema.PixelRegion.x :=
            WorkflowsSchema.PixelRegion.x (WorkflowsSchema.CreateImageInput.pixel_region i);
          ActivitiesSchema.PixelRegion.y :=
            WorkflowsSchema.PixelRegion.y (WorkflowsSchema.CreateImageInput.pixel_region i);
          ActivitiesSchema.PixelRegion.w :=
            WorkflowsSchema.PixelRegion.w (WorkflowsSchema.CreateImageInput.pixel_region i);
          ActivitiesSchema.PixelRegion.h :=
            WorkflowsSchema.PixelRegion.h (WorkflowsSchema.CreateImageInput.pixel_region i) |};
     ActivitiesSchema.CreateImageFileInput.pixel_size :=
       {| ActivitiesSchema.PixelSize.width :=
            WorkflowsSchema.PixelSize.width (WorkflowsSchema.CreateImageInput.pixel_size i);
          ActivitiesSchema.PixelSize.height :=
            WorkflowsSchema.PixelSize.height (WorkflowsSchema.CreateImageInput.pixel_size i) |};
     ActivitiesSchema.CreateImageFileInput.fmt :=
       WorkflowsSchema.CreateImageInput.fmt i |}.

(** * Theorems *)

(** ** Results *)

Lemma bind_Ok_inv {A B} (r : result A) (k : A -> result B) (b : B) :
  bind r k = Ok b -> exists a, r = Ok a /\ k a = Ok b.
Proof.
  destruct r as [a|e]; simpl; intros H; [eauto | discriminate].
Qed.

Lemma bind_Raise_inv {A B} (r : result A) (k : A -> result B) (e : exn) :
  bind r k = Raise e ->
  r = Raise e \/ exists a, r = Ok a /\ k a = Raise e.
Proof.
  destruct r as [a|e']; simpl; intros H; [right; eauto | left; congruence].
Qed.

(** ** What the float operations can raise *)

Lemma of_int_raises n e : PyFloat.of_int n = Raise e -> e = OverflowError.
Proof.
  unfold PyFloat.of_int.
  destruct (binary_normalize _ _ _ _ _); intros H; congruence.
Qed.

Lemma round_raises f e :
  PyFloat.round f = Raise e -> e = OverflowError \/ e = ValueError.
Proof.
  destruct f as [s|s| |s m ex]; simpl; intros H; try discriminate.
  - left; congruence.
  - right; congruence.
  - destruct ex; discriminate.
Qed.

Lemma round_int_mul_raises n f e :
  round_int_mul n f = Raise e -> e = OverflowError \/ e = ValueError.
Proof.
  unfold round_int_mul, PyFloat.int_mul. intros H.
  apply bind_Raise_inv in H. destruct H as [H|[p [Hp H]]].
  - apply bind_Raise_inv in H. destruct H as [H|[a [_ H]]].
    + left. eapply of_int_raises; eassumption.
    + discriminate.
  - eapply round_raises; eassumption.
Qed.

(** The float operations and the model constructors raise no
    [HTTPException]. *)
Lemma of_int_plain n e : PyFloat.of_int n = Raise e -> is_HTTPException e = false.
Proof. intros H. apply of_int_raises in H. subst e. reflexivity. Qed.

Lemma round_plain f e : PyFloat.round f = Raise e -> is_HTTPException e = false.
Proof. intros H. apply round_raises in H. destruct H; subst e; reflexivity. Qed.

Lemma truediv_plain a b e :
  PyFloat.truediv a b = Raise e -> is_HTTPException e = false.
Proof.
  unfold PyFloat.truediv. destruct (PyFloat.is_zero b); [|discriminate].
  intros H; injection H as <-. reflexivity.
Qed.

Lemma int_truediv_plain a b e :
  PyFloat.int_truediv a b = Raise e -> is_HTTPException e = false.
Proof.
  unfold PyFloat.int_truediv.
  destruct (b =? 0); [intros H; injection H as <-; reflexivity|].
  destruct (a =? 0); [discriminate|].
  destruct (SFdiv_core_binary _ _ _ _ _ _) as [[mz ez] lz].
  destruct (binary_round_aux _ _ _ _ _ _); try discriminate.
  intros H; injection H as <-. reflexivity.
Qed.

Lemma PixelSize_new_plain u w h e :
  PixelSize.new u w h = Raise e -> is_HTTPException e = false.
Proof.
  unfold PixelSize.new. destruct (PixelSize.fields_ok w h); [discriminate|].
  intros H; injection H as <-. reflexivity.
Qed.

Ltac raised_in_bind H :=
  apply bind_Raise_inv in H; destruct H as [H|[? [_ H]]].

Lemma size_norm_plain org aspect region info e :
  size_norm org aspect region info = Raise e -> is_HTTPException e = false.
Proof.
  destruct org;
    unfold size_norm, PyFloat.int_truediv_float, PyFloat.int_mul,
      PyFloat.truediv_int;
    intros H;
    repeat first
      [ discriminate H
      | eapply PixelSize_new_plain; eassumption
      | eapply round_plain; eassumption
      | eapply of_int_plain; eassumption
      | eapply truediv_plain; eassumption
      | injection H as <-; reflexivity
      | raised_in_bind H ].
Qed.

(** ** Region normalization *)

Lemma PixelRegion_new_Ok x y w h r :
  PixelRegion.new x y w h = Ok r ->
  r = {| PixelRegion.x := x; PixelRegion.y := y;
         PixelRegion.w := w; PixelRegion.h := h |} /\
  PixelRegion.valid r.
Proof.
  unfold PixelRegion.new, PixelRegion.valid.
  destruct (PixelRegion.fields_ok x y w h) eqn:E; intros H; [|discriminate].
  injection H as <-. split; [reflexivity | exact E].
Qed.

Lemma PixelRegion_new_raises x y w h e :
  PixelRegion.new x y w h = Raise e -> e = ValidationError "PixelRegion".
Proof.
  unfold PixelRegion.new.
  destruct (PixelRegion.fields_ok x y w h); intros H; congruence.
Qed.

Lemma PixelRegion_valid_bounds r :
  PixelRegion.valid r ->
  0 <= PixelRegion.x r /\ 0 <= PixelRegion.y r /\
  1 <= PixelRegion.w r /\ 1 <= PixelRegion.h r.
Proof.
  unfold PixelRegion.valid, PixelRegion.fields_ok. intros H.
  repeat (apply andb_prop in H; destruct H as [H ?]). lia.
Qed.

(** Every rectangle the [if / elif] chain produces satisfies the field
    constraints of [PixelRegion]. *)
Lemma region_norm_valid org info norm :
  Region_valid org ->
  region_norm org info = Ok norm -> PixelRegion.valid norm.
Proof.
  intros Hv H. destruct org as [| |p|r]; simpl in *.
  - apply PixelRegion_new_Ok in H. tauto.
  - apply PixelRegion_new_Ok in H. tauto.
  - repeat (apply bind_Ok_inv in H; destruct H as [? [_ H]]).
    apply PixelRegion_new_Ok in H. tauto.
  - injection H as <-. exact Hv.
Qed.

(** The [if / elif] chain never raises the out-of-bounds error itself. *)
Lemma region_norm_not_out_of_bounds org info :
  region_norm org info <> Raise region_out_of_bounds.
Proof.
  unfold region_out_of_bounds. intros H.
  destruct org as [| |p|r]; simpl in H.
  - apply PixelRegion_new_raises in H. discriminate.
  - apply PixelRegion_new_raises in H. discriminate.
  - repeat (apply bind_Raise_inv in H;
            destruct H as [H|[? [_ H]]];
            [apply round_int_mul_raises in H; destruct H; discriminate|]).
    apply PixelRegion_new_raises in H. discriminate.
  - discriminate.
Qed.

Lemma gtb_false a b : a <= b -> (a >? b) = false.
Proof. intros H. rewrite Z.gtb_ltb. apply Z.ltb_ge. exact H. Qed.

Lemma gtb_true a b : a > b -> (a >? b) = true.
Proof. intros H. rewrite Z.gtb_ltb. apply Z.ltb_lt. lia. Qed.

Lemma leb_true a b : a <= b -> (a <=? b) = true.
Proof. apply Z.leb_le. Qed.

(** [full] and [square] are accepted on every image. *)
Lemma normalize_region_Full info :
  ImageInfoResponse_valid info ->
  normalize_region FullRegion info =
  Ok {| PixelRegion.x := 0; PixelRegion.y := 0;
        PixelRegion.w := width info; PixelRegion.h := height info |}.
Proof.
  intros (Hw & Hh & _).
  unfold normalize_region, region_norm, PixelRegion.new, PixelRegion.fields_ok.
  replace (1 <=? width info) with true by (symmetry; apply leb_true; lia).
  replace (1 <=? height info) with true by (symmetry; apply leb_true; lia).
  simpl.
  replace (0 >? width info) with false by (symmetry; apply gtb_false; lia).
  replace (0 >? height info) with false by (symmetry; apply gtb_false; lia).
  reflexivity.
Qed.

Lemma normalize_region_Square info :
  ImageInfoResponse_valid info ->
  normalize_region SquareRegion info =
  Ok {| PixelRegion.x := width info / 2; PixelRegion.y := height info / 2;
        PixelRegion.w := Z.min (width info) (height info);
        PixelRegion.h := Z.min (width info) (height info) |}.
Proof.
  intros (Hw & Hh & _).
  assert (0 <= width info / 2 <= width info)
    by (split; [apply Z.div_pos | apply Z.div_le_upper_bound]; lia).
  assert (0 <= height info / 2 <= height info)
    by (split; [apply Z.div_pos | apply Z.div_le_upper_bound]; lia).
  unfold normalize_region, region_norm, PixelRegion.new, PixelRegion.fields_ok.
  replace (0 <=? width info / 2) with true by (symmetry; apply leb_true; lia).
  replace (0 <=? height info / 2) with true by (symmetry; apply leb_true; lia).
  replace (1 <=? Z.min (width info) (height info)) with true
    by (symmetry; apply leb_true; lia).
  simpl.
  replace (width info / 2 >? width info) with false
    by (symmetry; apply gtb_false; lia).
  replace (height info / 2 >? height info) with false
    by (symmetry; apply gtb_false; lia).
  reflexivity.
Qed.

Lemma gtb_orb_true a b c d :
  (a >? b) || (c >? d) = true <-> a > b \/ c > d.
Proof.
  rewrite orb_true_iff, !Z.gtb_ltb, !Z.ltb_lt. lia.
Qed.

Lemma gtb_orb_false a b c d :
  (a >? b) || (c >? d) = false <-> a <= b /\ c <= d.
Proof.
  rewrite orb_false_iff, !Z.gtb_ltb, !Z.ltb_ge. lia.
Qed.

(** C8.  [normalize_region] raises the out-of-bounds [HTTPException] exactly
    when the rectangle computed for the region has [x > width] or
    [y > height]; a rectangle it returns has [x, y >= 0], [w, h >= 1],
    [x <= width] and [y <= height]; and a pixel region that starts inside the
    image is returned as it is, however far [x + w] or [y + h] reach. *)
Theorem normalize_region_bounds (org : Region) (info : ImageInfoResponse) :
  Region_valid org ->
  ImageInfoResponse_valid info ->
  (normalize_region org info = Raise region_out_of_bounds <->
   exists norm, region_norm org info = Ok norm /\
     (PixelRegion.x norm > width info \/ PixelRegion.y norm > height info)) /\
  (forall r, normalize_region org info = Ok r ->
     region_norm org info = Ok r /\
     0 <= PixelRegion.x r /\ 0 <= PixelRegion.y r /\
     1 <= PixelRegion.w r /\ 1 <= PixelRegion.h r /\
     PixelRegion.x r <= width info /\ PixelRegion.y r <= height info) /\
  (forall r, org = PixelRegion r ->
     PixelRegion.x r <= width info -> PixelRegion.y r <= height info ->
     normalize_region org info = Ok r).
Proof.
  intros Hv Hi. unfold normalize_region. repeat split.
  - intros H. apply bind_Raise_inv in H. destruct H as [H|[norm [Hn H]]].
    + exfalso. eapply region_norm_not_out_of_bounds; eassumption.
    + exists norm. split; [exact Hn|].
      destruct (_ || _) eqn:E; [|discriminate].
      apply gtb_orb_true; exact E.
  - intros [norm [Hn Hb]]. rewrite Hn. simpl.
    apply gtb_orb_true in Hb. rewrite Hb. reflexivity.
  - apply bind_Ok_inv in H. destruct H as [norm [Hn H]].
    destruct (_ || _); [discriminate|]. congruence.
  - apply bind_Ok_inv in H. destruct H as [norm [Hn H]].
    destruct (_ || _) eqn:E; [discriminate|]. injection H as <-.
    apply gtb_orb_false in E.
    pose proof (PixelRegion_valid_bounds _ (region_norm_valid _ _ _ Hv Hn)). lia.
  - apply bind_Ok_inv in H. destruct H as [norm [Hn H]].
    destruct (_ || _) eqn:E; [discriminate|]. injection H as <-.
    apply gtb_orb_false in E.
    pose proof (PixelRegion_valid_bounds _ (region_norm_valid _ _ _ Hv Hn)). lia.
  - apply bind_Ok_inv in H. destruct H as [norm [Hn H]].
    destruct (_ || _) eqn:E; [discriminate|]. injection H as <-.
    apply gtb_orb_false in E.
    pose proof (PixelRegion_valid_bounds _ (region_norm_valid _ _ _ Hv Hn)). lia.
  - apply bind_Ok_inv in H. destruct H as [norm [Hn H]].
    destruct (_ || _) eqn:E; [discriminate|]. injection H as <-.
    apply gtb_orb_false in E.
    pose proof (PixelRegion_valid_bounds _ (region_norm_valid _ _ _ Hv Hn)). lia.
  - apply bind_Ok_inv in H. destruct H as [norm [Hn H]].
    destruct (_ || _) eqn:E; [discriminate|]. injection H as <-.
    apply gtb_orb_false in E. lia.
  - apply bind_Ok_inv in H. destruct H as [norm [Hn H]].
    destruct (_ || _) eqn:E; [discriminate|]. injection H as <-.
    apply gtb_orb_false in E. lia.
  - intros r -> Hx Hy. simpl.
    assert (E : (PixelRegion.x r >? width info) || (PixelRegion.y r >? height info) = false)
      by (apply gtb_orb_false; lia).
    rewrite E. reflexivity.
Qed.

Lemma normalize_region_bounds_witness :
  (normalize_region (PixelRegion (rect 200 100 50 50)) (image 200 100 None None None)
     = Raise region_out_of_bounds <->
   exists norm,
     region_norm (PixelRegion (rect 200 100 50 50)) (image 200 100 None None None)
       = Ok norm /\
     (PixelRegion.x norm > 200 \/ PixelRegion.y norm > 100)) /\
  (forall r,
     normalize_region (PixelRegion (rect 200 100 50 50)) (image 200 100 None None None)
       = Ok r ->
     region_norm (PixelRegion (rect 200 100 50 50)) (image 200 100 None None None)
       = Ok r /\
     0 <= PixelRegion.x r /\ 0 <= PixelRegion.y r /\
     1 <= PixelRegion.w r /\ 1 <= PixelRegion.h r /\
     PixelRegion.x r <= 200 /\ PixelRegion.y r <= 100) /\
  (forall r, PixelRegion (rect 200 100 50 50) = PixelRegion r ->
     PixelRegion.x r <= 200 -> PixelRegion.y r <= 100 ->
     normalize_region (PixelRegion (rect 200 100 50 50)) (image 200 100 None None None)
       = Ok r).
Proof.
  apply (normalize_region_bounds (PixelRegion (rect 200 100 50 50))
           (image 200 100 None None None)).
  - reflexivity.
  - unfold ImageInfoResponse_valid; simpl. repeat split; discriminate.
Defined.

(** C1.  On [pct:50,50,50,50] and a 200x100 image the code multiplies the
    dimensions by the percentages without dividing by 100: the rectangle is
    (10000, 5000, 10000, 5000) and the request is refused as out of bounds,
    where the documented rule gives (100, 50, 100, 50). *)
Theorem percent_region_not_divided_by_100 :
  region_norm (PercentRegion pct_50) (image 200 100 None None None)
    = Ok (rect 10000 5000 10000 5000) /\
  normalize_region (PercentRegion pct_50) (image 200 100 None None None)
    = Raise region_out_of_bounds /\
  percent_region_by_rule pct_50 (image 200 100 None None None)
    = Ok (rect 100 50 100 50).
Proof. repeat split; vm_compute; reflexivity. Qed.

(** ** Size normalization *)

Lemma over_None v o : over v o = None <-> within v o.
Proof.
  destruct o as [m|]; simpl; [|tauto].
  destruct (v >? m) eqn:E; rewrite Z.gtb_ltb in E.
  - apply Z.ltb_lt in E. split; [discriminate | lia].
  - apply Z.ltb_ge in E. tauto.
Qed.

Lemma over_Some v o m : over v o = Some m <-> o = Some m /\ v > m.
Proof.
  destruct o as [m'|]; simpl.
  - destruct (v >? m') eqn:E; rewrite Z.gtb_ltb in E.
    + apply Z.ltb_lt in E. split.
      * intros H; injection H as <-. split; [reflexivity | lia].
      * intros [H _]. exact H.
    + apply Z.ltb_ge in E. split; [discriminate|].
      intros [H ?]. injection H as ->. lia.
  - split; [discriminate | intros [? _]; discriminate].
Qed.

(** The checks of lines 266-296 report the first failing one, in the order
    the specification gives. *)
Lemma size_checks_first_failing norm region info :
  first_failing_check norm region info (size_checks norm region info).
Proof.
  unfold size_checks.
  destruct (PixelSize.width norm >? PixelRegion.w region) eqn:E1;
    rewrite Z.gtb_ltb in E1;
    [apply Z.ltb_lt in E1; apply fails_region_width; lia | apply Z.ltb_ge in E1].
  destruct (PixelSize.height norm >? PixelRegion.h region) eqn:E2;
    rewrite Z.gtb_ltb in E2;
    [apply Z.ltb_lt in E2; apply fails_region_height; lia | apply Z.ltb_ge in E2].
  destruct (over (PixelSize.width norm) (max_width info)) as [mw|] eqn:E3.
  { apply over_Some in E3. destruct E3. now apply fails_max_width. }
  apply over_None in E3.
  destruct (over (PixelSize.height norm) (max_height info)) as [mh|] eqn:E4.
  { apply over_Some in E4. destruct E4. now apply fails_max_height. }
  apply over_None in E4.
  destruct (over (PixelSize.width norm * PixelSize.height norm) (max_area info))
    as [ma|] eqn:E5.
  { apply over_Some in E5. destruct E5. now apply fails_max_area. }
  apply over_None in E5. now apply passes_all.
Qed.

Lemma size_checks_Ok norm region info r :
  size_checks norm region info = Ok r ->
  r = norm /\
  PixelSize.width r <= PixelRegion.w region /\
  PixelSize.height r <= PixelRegion.h region /\
  within (PixelSize.width r) (max_width info) /\
  within (PixelSize.height r) (max_height info) /\
  within (PixelSize.width r * PixelSize.height r) (max_area info).
Proof.
  intros H. pose proof (size_checks_first_failing norm region info) as F.
  rewrite H in F. inversion F; subst. tauto.
Qed.

(** The two clauses of [normalize_size], by computation. *)
Lemma normalize_size_direct org region info :
  Size_rank org = 0%nat ->
  normalize_size org region info =
  if Size_upscaleable org then Raise upscaling_unsupported else
  region_aspect <- PyFloat.int_truediv (PixelRegion.w region) (PixelRegion.h region) ;;
  norm <- size_norm org region_aspect region info ;;
  size_checks norm region info.
Proof.
  intros H. destruct org; try discriminate H; reflexivity.
Qed.

Lemma normalize_size_preserved_aspect upscaleable width height region info :
  normalize_size (PreservedAspectPixelSize upscaleable width height) region info =
  if upscaleable then Raise upscaling_unsupported else
  region_aspect <- PyFloat.int_truediv (PixelRegion.w region) (PixelRegion.h region) ;;
  norm <-
    (let cap_w := min3 width (PixelRegion.w region) (or_0 (max_width info)) in
     norm_max_w <-
       (if 1 <=? cap_w
        then normalize_size (FixedWidthSize false cap_w) region info
        else Raise (ValidationError "FixedWidthSize")) ;;
     let cap_h := min3 height (PixelRegion.h region) (or_0 (max_height info)) in
     norm_max_h <-
       (if 1 <=? cap_h
        then normalize_size (FixedHeightSize false cap_h) region info
        else Raise (ValidationError "FixedHeightSize")) ;;
     if PixelSize.width norm_max_w * PixelSize.height norm_max_w
        >=? PixelSize.width norm_max_h * PixelSize.width norm_max_h
     then Ok norm_max_w
     else Ok norm_max_h) ;;
  size_checks norm region info.
Proof. reflexivity. Qed.

Lemma Size_rank_cases org :
  Size_rank org = 0%nat \/
  exists upscaleable width height,
    org = PreservedAspectPixelSize upscaleable width height.
Proof. destruct org; eauto. Qed.

(** Whatever the size variant, a size that [normalize_size] returns went
    through the checks. *)
Lemma normalize_size_Ok_checked org region info r :
  normalize_size org region info = Ok r ->
  size_checks r region info = Ok r.
Proof.
  intros H.
  assert (G : forall (m : result PixelSize.t),
             (norm <- m ;; size_checks norm region info) = Ok r ->
             size_checks r region info = Ok r).
  { intros m Hm. apply bind_Ok_inv in Hm. destruct Hm as [norm [_ Hc]].
    destruct (size_checks_Ok _ _ _ _ Hc) as [-> _]. exact Hc. }
  destruct (Size_rank_cases org) as [Hr|(u & w & h & ->)];
    [rewrite (normalize_size_direct _ _ _ Hr) in H
    |rewrite normalize_size_preserved_aspect in H];
    match type of H with
    | (if ?b then _ else _) = _ => destruct b; [discriminate|]
    end;
    apply bind_Ok_inv in H; destruct H as [aspect [_ H]];
    eapply G; exact H.
Qed.

(** The variants that do not recurse: the computed size goes straight to the
    checks. *)
Lemma normalize_size_simple org region info aspect :
  Size_rank org = 0%nat ->
  Size_upscaleable org = false ->
  PyFloat.int_truediv (PixelRegion.w region) (PixelRegion.h region) = Ok aspect ->
  normalize_size org region info =
  (norm <- size_norm org aspect region info ;; size_checks norm region info).
Proof.
  intros Hr Hu Ha.
  rewrite (normalize_size_direct _ _ _ Hr), Hu, Ha. reflexivity.
Qed.




(** The five messages are told apart by their text: they name the width, the
    height or the area, and the region or the limit. *)
Lemma append_inv_head (s a b : string) : (s ++ a = s ++ b)%string -> a = b.
Proof.
  induction s as [|c s IH]; simpl; intros H; [exact H|].
  injection H as H. auto.
Qed.





(** C2.  Two requests on which the preserved-aspect branch leaves the rule.
    On a 100x200 region with limits 100x200, [!40,100] has the candidates
    40x80 (area 3200) and 50x100 (area 5000); the code compares 3200 with
    50 * 50 and returns 40x80, where the rule picks 50x100.  With no server
    limits, [!100,100] on a 100x50 region makes the code build
    [FixedWidthSize(width=0)], which pydantic refuses, where the rule gives
    100x50. *)
Theorem preserved_aspect_leaves_the_rule :
  normalize_size (FixedWidthSize false 40) (rect 0 0 100 200)
    (image 100 200 (Some 100) (Some 200) None) = Ok (size 40 80) /\
  normalize_size (FixedHeightSize false 100) (rect 0 0 100 200)
    (image 100 200 (Some 100) (Some 200) None) = Ok (size 50 100) /\
  normalize_size (PreservedAspectPixelSize false 40 100) (rect 0 0 100 200)
    (image 100 200 (Some 100) (Some 200) None) = Ok (size 40 80) /\
  preserved_aspect_by_rule 40 100 (rect 0 0 100 200)
    (image 100 200 (Some 100) (Some 200) None) = Ok (size 50 100) /\
  normalize_size (PreservedAspectPixelSize false 100 100) (rect 0 0 100 50)
    (image 100 50 None None None) = Raise (ValidationError "FixedWidthSize") /\
  preserved_aspect_by_rule 100 100 (rect 0 0 100 50)
    (image 100 50 None None None) = Ok (size 100 50).
Proof. repeat split; vm_compute; reflexivity. Qed.

(** ** Printed integers inside a text *)

Lemma string_app_assoc (a b c : string) :
  ((a ++ b) ++ c)%string = (a ++ (b ++ c))%string.
Proof. induction a as [|x a IH]; simpl; [reflexivity | rewrite IH; reflexivity]. Qed.

Lemma free_of_app (c : ascii) (a b : string) :
  free_of c (a ++ b) = free_of c a && free_of c b.
Proof.
  induction a as [|x a IH]; simpl; [reflexivity|].
  rewrite IH, andb_assoc. reflexivity.
Qed.

(** Two strings that agree, each cut at its first [c]. *)
Lemma cut_at_delimiter (c : ascii) (a a' r r' : string) :
  free_of c a = true -> free_of c a' = true ->
  (a ++ String c r)%string = (a' ++ String c r')%string ->
  a = a' /\ r = r'.
Proof.
  revert a'. induction a as [|x a IH]; intros [|x' a']; simpl; intros Ha Ha' H.
  - injection H as ->. auto.
  - injection H as <- _. rewrite Ascii.eqb_refl in Ha'. discriminate.
  - injection H as -> _. rewrite Ascii.eqb_refl in Ha. discriminate.
  - injection H as <- H.
    apply andb_prop in Ha. apply andb_prop in Ha'.
    destruct (IH a' (proj2 Ha) (proj2 Ha') H) as [-> ->]. auto.
Qed.

Lemma uint_free_of (c : ascii) (d : Decimal.uint) :
  in_number c = false -> free_of c (NilEmpty.string_of_uint d) = true.
Proof.
  intros Hc. unfold in_number in Hc. cbn [existsb] in Hc.
  repeat (apply orb_false_elim in Hc; destruct Hc as [? Hc]).
  induction d; cbn [NilEmpty.string_of_uint free_of]; try reflexivity;
    rewrite IHd, andb_true_r, Ascii.eqb_sym;
    apply negb_true_iff; assumption.
Qed.

Lemma str_free_of (c : ascii) (n : Z) :
  in_number c = false -> free_of c (str n) = true.
Proof.
  intros Hc. unfold str, NilZero.string_of_int, NilZero.string_of_uint.
  assert (Hm : Ascii.eqb "-" c = false).
  { unfold in_number in Hc. cbn [existsb] in Hc.
    apply orb_false_elim in Hc. rewrite Ascii.eqb_sym. tauto. }
  assert (Hz : Ascii.eqb "0" c = false).
  { unfold in_number in Hc. cbn [existsb] in Hc.
    apply orb_false_elim in Hc. destruct Hc as [_ Hc].
    apply orb_false_elim in Hc. rewrite Ascii.eqb_sym. tauto. }
  destruct (Z.to_int n) as [d|d];
    [|cbn [free_of]; rewrite Hm; cbn [negb andb]];
    (destruct d; [cbn [free_of]; rewrite Hz; reflexivity
                 | apply uint_free_of; exact Hc ..]).
Qed.

Lemma str_inj (a b : Z) : str a = str b -> a = b.
Proof.
  intros H. apply DecimalZ.to_int_inj.
  assert (N : forall n, Z.to_int n <> Decimal.Pos Decimal.Nil /\
                        Z.to_int n <> Decimal.Neg Decimal.Nil).
  { intros [|p|p]; simpl; split; try discriminate;
      intros E; injection E as E;
      exact (DecimalPos.Unsigned.to_uint_nonnil p E). }
  assert (E : Some (Z.to_int a) = Some (Z.to_int b)).
  { rewrite <- (NilZero.isi (Z.to_int a)) by apply N.
    rewrite <- (NilZero.isi (Z.to_int b)) by apply N.
    unfold str in H. rewrite H. reflexivity. }
  injection E as E. exact E.
Qed.

(** A printed integer followed by [c], a character that no integer has. *)
Lemma cut_number (c : ascii) (a b : Z) (r r' : string) :
  in_number c = false ->
  (str a ++ String c r)%string = (str b ++ String c r')%string ->
  a = b /\ r = r'.
Proof.
  intros Hc H.
  apply cut_at_delimiter in H; try (apply str_free_of; exact Hc).
  destruct H as [H ->]. split; [apply str_inj; exact H | reflexivity].
Qed.

Lemma split_no_separator (sep : ascii) (s : string) :
  free_of sep s = true -> Validate.split sep s = [s].
Proof.
  induction s as [|c s IH]; cbn [free_of Validate.split]; [reflexivity|].
  intros H. apply andb_prop in H. destruct H as [Hc Hs].
  apply negb_true_iff in Hc. rewrite Hc, (IH Hs). reflexivity.
Qed.

(** ** Server limits *)

Lemma or_0_Some m : or_0 (Some m) = m.
Proof.
  unfold or_0. destruct (m =? 0) eqn:E; [|reflexivity].
  apply Z.eqb_eq in E. congruence.
Qed.





(** ** Workflows: what a run adds to the history *)

Section Appends.
Variable P : event -> Prop.

Lemma appends_ret {A} (a : A) : appends P (Wf.ret a).
Proof. intros W h. exists []. simpl. rewrite app_nil_r. auto. Qed.

Lemma appends_raise {A} (e : exn) : appends P (@Wf.raise A e).
Proof. intros W h. exists []. simpl. rewrite app_nil_r. auto. Qed.

Lemma appends_lift {A} (r : result A) : appends P (Wf.lift r).
Proof. intros W h. exists []. simpl. rewrite app_nil_r. auto. Qed.

Lemma appends_bind {A B} (m : workflow A) (k : A -> workflow B) :
  appends P m -> (forall a, appends P (k a)) -> appends P (Wf.bind m k).
Proof.
  intros Hm Hk W h. destruct (Hm W h) as [n1 [E1 F1]].
  unfold Wf.bind. destruct (m W h) as [h' [a|e]]; simpl in E1; subst h'.
  - destruct (Hk a W (h ++ n1)) as [n2 [E2 F2]].
    exists (n1 ++ n2). rewrite E2, app_assoc.
    split; [reflexivity | apply Forall_app; auto].
  - exists n1. auto.
Qed.

Lemma appends_execute {A} (a : activity A) (tq : option string) :
  P (Scheduled a tq) -> appends P (Wf.execute_activity_method a tq).
Proof. intros Hp W h. exists [Scheduled a tq]. simpl. auto. Qed.

Lemma appends_sleep (s : Z) : P (Slept s) -> appends P (Wf.sleep s).
Proof. intros Hp W h. exists [Slept s]. simpl. auto. Qed.

Lemma appends_try_except {A} (body : workflow A) (handler : exn -> workflow A) :
  appends P body -> (forall e, appends P (handler e)) ->
  appends P (Wf.try_except_Exception body handler).
Proof.
  intros Hb Hh W h. destruct (Hb W h) as [n1 [E1 F1]].
  unfold Wf.try_except_Exception.
  destruct (body W h) as [h' [a|e]]; simpl in E1; subst h'.
  - exists n1. auto.
  - destruct (isinstance_Exception e).
    + destruct (Hh e W (h ++ n1)) as [n2 [E2 F2]].
      exists (n1 ++ n2). rewrite E2, app_assoc.
      split; [reflexivity | apply Forall_app; auto].
    + exists n1. auto.
Qed.

Lemma appends_try_finally {A} (body : workflow A) (final : workflow unit) :
  appends P body -> appends P final -> appends P (Wf.try_finally body final).
Proof.
  intros Hb Hf W h. destruct (Hb W h) as [n1 [E1 F1]].
  unfold Wf.try_finally.
  destruct (body W h) as [h' r]; simpl in E1; subst h'.
  destruct (Hf W (h ++ n1)) as [n2 [E2 F2]].
  destruct (final W (h ++ n1)) as [h'' [u|e]]; simpl in E2; subst h'';
    exists (n1 ++ n2); rewrite app_assoc;
    (split; [reflexivity | apply Forall_app; auto]).
Qed.

Lemma appends_gather {A} (tasks : list (workflow A)) :
  Forall (appends P) tasks ->
  forall W h, exists new,
    fst (Wf.gather tasks W h) = h ++ new /\ Forall P new.
Proof.
  induction 1 as [|t tasks Ht _ IH]; intros W h; simpl.
  - exists []. rewrite app_nil_r. auto.
  - destruct (Ht W h) as [n1 [E1 F1]].
    destruct (t W h) as [h' r]; simpl in E1; subst h'.
    destruct (IH W (h ++ n1)) as [n2 [E2 F2]].
    destruct (Wf.gather tasks W (h ++ n1)) as [h'' rs]; simpl in E2; subst h''.
    exists (n1 ++ n2). simpl. rewrite app_assoc.
    split; [reflexivity | apply Forall_app; auto].
Qed.

Lemma appends_TaskGroup {A} (tasks : list (workflow A)) :
  Forall (appends P) tasks -> appends P (Wf.TaskGroup tasks).
Proof.
  intros Ht W h. destruct (appends_gather tasks Ht W h) as [new [E F]].
  unfold Wf.TaskGroup. destruct (Wf.gather tasks W h) as [h' rs].
  exists new. auto.
Qed.

Lemma appends_retry_shell {A} (_run : workflow A) :
  P (Slept 5) -> appends P _run ->
  forall fuel, appends P (retry_shell fuel _run).
Proof.
  intros Hs Hr. induction fuel as [|fuel IH]; intros W h; simpl.
  - exists []. rewrite app_nil_r. auto.
  - destruct (Hr W h) as [n1 [E1 F1]].
    destruct (_run W h) as [h' [a|e]]; simpl in E1; subst h'.
    + exists n1. auto.
    + assert (R : appends P (Wf.bind (Wf.sleep 5)
                               (fun _ => retry_shell fuel _run)))
        by (apply appends_bind; [apply appends_sleep; exact Hs | intros _; exact IH]).
      destruct (R W (h ++ n1)) as [n2 [E2 F2]].
      destruct e; simpl;
        try (exists (n1 ++ n2); rewrite E2, app_assoc;
             split; [reflexivity | apply Forall_app; auto]).
      exists n1. auto.
Qed.
End Appends.

Lemma appends_weaken (P Q : event -> Prop) {A} (m : workflow A) :
  (forall ev, P ev -> Q ev) -> appends P m -> appends Q m.
Proof.
  intros HPQ Hm W h. destruct (Hm W h) as [new [E F]].
  exists new. split; [exact E | eapply Forall_impl; eassumption].
Qed.

(** The events of the two pipelines, one activity after the other. *)
Ltac appends_step :=
  first
    [ apply appends_bind; [|intros ?]
    | apply appends_try_finally
    | apply appends_try_except; [|intros ?]
    | apply appends_TaskGroup;
      apply Forall_forall; intros ? ?Hin;
      apply in_map_iff in Hin; destruct Hin as [? [<- _]]
    | apply appends_execute; simpl; auto
    | apply appends_ret
    | apply appends_raise
    | apply appends_lift ].

Lemma appends_CreateImage_upload tq img key :
  appends download_unforced (CreateImage.upload tq img key).
Proof.
  unfold CreateImage.upload, CreateImage.transfer, CreateImage.compensate,
    CreateImage.cleanup.
  repeat appends_step.
Qed.

Lemma appends_CreateImage__run i :
  appends download_unforced (CreateImage._run i).
Proof.
  unfold CreateImage._run.
  repeat (first [apply appends_CreateImage_upload | appends_step]).
Qed.

Lemma appends_GetFrameDimensions__run i :
  appends (fun _ => True) (GetFrameDimensions._run i).
Proof.
  unfold GetFrameDimensions._run. repeat appends_step.
Qed.

(** ** The outer retry shell *)

Lemma naps_app h1 h2 : naps (h1 ++ h2) = (naps h1 + naps h2)%nat.
Proof. unfold naps. rewrite filter_app, length_app. reflexivity. Qed.

Lemma retry_shell_only_cancelled {A} (_run : workflow A) fuel :
  forall W h h' e,
    retry_shell fuel _run W h = (h', Raise e) -> e = CancelledError.
Proof.
  induction fuel as [|fuel IH]; intros W h h' e; simpl.
  - unfold Wf.ret. discriminate.
  - destruct (_run W h) as [h1 [a|e1]]; [discriminate|].
    unfold Wf.bind, Wf.sleep.
    destruct e1; simpl;
      try (destruct (wakes W h1 5);
           [apply IH | intros H; injection H as _ <-; reflexivity]).
    intros H; injection H as _ <-; reflexivity.
Qed.

(** Every exception of the model but the cancellation is an [Exception]. *)
Lemma not_cancelled_is_Exception e :
  e <> CancelledError <-> isinstance_Exception e = true.
Proof. destruct e; simpl; split; congruence. Qed.

Lemma retry_shell_retries {A} (_run : workflow A) fuel W h h' e :
  _run W h = (h', Raise e) -> e <> CancelledError ->
  retry_shell (S fuel) _run W h =
    if wakes W h' 5 then retry_shell fuel _run W (h' ++ [Slept 5])
    else (h' ++ [Slept 5], Raise CancelledError).
Proof.
  intros E He. simpl. rewrite E. unfold Wf.bind, Wf.sleep.
  destruct e; try (exfalso; apply He; reflexivity); simpl;
    destruct (wakes W h' 5); reflexivity.
Qed.

Lemma retry_shell_contract {A} (_run : workflow A) :
  appends (fun _ => True) _run ->
  retries_until_cancelled _run (fun fuel => retry_shell fuel _run).
Proof.
  intros Happ. unfold retries_until_cancelled. repeat split.
  - intros fuel W h h' e. apply retry_shell_only_cancelled.
  - intros fuel W h h' a E. simpl. rewrite E. reflexivity.
  - intros fuel W h h' E. simpl. rewrite E. reflexivity.
  - intros fuel W h h' e. apply retry_shell_retries.
  - revert h. induction fuel as [|fuel IH]; intros h; [reflexivity|].
    destruct (H h) as [h' [e [E He]]].
    rewrite (retry_shell_retries _run fuel W h h' e E He), H0. apply IH.
  - revert h. induction fuel as [|fuel IH]; intros h; [simpl; lia|].
    destruct (H h) as [h' [e [E He]]].
    rewrite (retry_shell_retries _run fuel W h h' e E He), H0.
    specialize (IH (h' ++ [Slept 5])). rewrite naps_app in IH.
    destruct (Happ W h) as [new [En _]]. rewrite E in En. simpl in En.
    subst h'. rewrite naps_app in IH.
    change (naps [Slept 5]) with 1%nat in IH. lia.
Qed.

(** C4.  For the dimension pipeline and for the generation pipeline alike,
    the outer shell ends only with the pipeline's value or with the
    cancellation; a cancelled pipeline is re-raised with no timer and no new
    attempt; after any other failure the shell sets one 5-second timer and
    runs the whole pipeline again, which begins with [find_best_worker]; and
    while the pipeline keeps failing, no number of attempts ends the loop. *)
Theorem outer_shell_retries_until_cancelled :
  (forall i, retries_until_cancelled (GetFrameDimensions._run i)
               (fun fuel => GetFrameDimensions.run fuel i)) /\
  (forall i, retries_until_cancelled (CreateImage._run i)
               (fun fuel => CreateImage.run fuel i)) /\
  (forall i W h, exists rest,
     fst (GetFrameDimensions._run i W h) =
     h ++ Scheduled
            (find_best_worker
               {| ActivitiesSchema.FindBestWorkerInput.frame_id :=
                    WorkflowsSchema.GetFrameDimensionsInput.frame_id i |}) None
          :: rest) /\
  (forall i W h, exists rest,
     fst (CreateImage._run i W h) =
     h ++ Scheduled
            (find_best_worker
               {| ActivitiesSchema.FindBestWorkerInput.frame_id :=
                    WorkflowsSchema.CreateImageInput.frame_id i |}) None
          :: rest).
Proof.
  split; [|split; [|split]].
  - intros i. apply retry_shell_contract, appends_GetFrameDimensions__run.
  - intros i. apply retry_shell_contract.
    eapply appends_weaken; [|apply appends_CreateImage__run]. auto.
  - intros i W h. unfold GetFrameDimensions._run.
    match goal with
    | |- context [Wf.bind (Wf.execute_activity_method ?a ?tq) ?k] =>
        assert (Hk : forall w, appends (fun _ => True) (k w))
          by (intros w; repeat appends_step);
        unfold Wf.bind at 1, Wf.execute_activity_method at 1;
        destruct (respond W _ h a tq) as [w|e]
    end.
    + destruct (Hk w W (h ++ [Scheduled
          (find_best_worker
             {| ActivitiesSchema.FindBestWorkerInput.frame_id :=
                  WorkflowsSchema.GetFrameDimensionsInput.frame_id i |}) None]))
        as [new [E _]].
      exists new. rewrite E, <- app_assoc. reflexivity.
    + exists []. reflexivity.
  - intros i W h. unfold CreateImage._run.
    match goal with
    | |- context [Wf.bind (Wf.execute_activity_method ?a ?tq) ?k] =>
        assert (Hk : forall w, appends (fun _ => True) (k w))
          by (intros w;
              repeat (first
                [ eapply appends_weaken;
                  [|apply appends_CreateImage_upload]; solve [auto]
                | appends_step ]));
        unfold Wf.bind at 1, Wf.execute_activity_method at 1;
        destruct (respond W _ h a tq) as [w|e]
    end.
    + destruct (Hk w W (h ++ [Scheduled
          (find_best_worker
             {| ActivitiesSchema.FindBestWorkerInput.frame_id :=
                  WorkflowsSchema.CreateImageInput.frame_id i |}) None]))
        as [new [E _]].
      exists new. rewrite E, <- app_assoc. reflexivity.
    + exists []. reflexivity.
Qed.

Lemma outer_shell_retries_until_cancelled_witness :
  CreateImage.run 2 Scenario.request Scenario.fails_once [] =
    ([Scenario.find; Slept 5; Scenario.find; Scenario.download; Scenario.create;
      Scenario.start; Scenario.part 0; Scenario.part 1; Scenario.finish;
      Scenario.delete],
     Ok (Some {| WorkflowsSchema.CreateImageOutput.s3_object_key := "generated/ab12" |})) /\
  CreateImage.run 1 Scenario.request Scenario.cancelled_during_finish [] =
    ([Scenario.find; Scenario.download; Scenario.create; Scenario.start;
      Scenario.part 0; Scenario.part 1; Scenario.finish; Scenario.delete],
     Raise CancelledError) /\
  snd (CreateImage.run 7 Scenario.request Scenario.always_fails []) = Ok None.
Proof.
  destruct outer_shell_retries_until_cancelled as (_ & Hc & _).
  destruct (Hc Scenario.request) as (_ & Hok & Hcancel & Hretry & Hloop).
  split; [|split].
  - rewrite (Hretry 1%nat Scenario.fails_once [] [Scenario.find]
               (OtherException "ActivityError") eq_refl ltac:(discriminate)).
    simpl. apply (Hok 0%nat). vm_compute. reflexivity.
  - apply (Hcancel 0%nat). vm_compute. reflexivity.
  - apply (Hloop Scenario.always_fails).
    + intros h. eexists. eexists. split; [reflexivity | discriminate].
    + reflexivity.
Defined.

(** ** The generation saga *)

(** The [finally] block runs last, whatever happened in the [try]. *)
Lemma upload_ends_with_cleanup W h tq img key :
  exists before,
    fst (CreateImage.upload tq img key W h) =
    before ++
    [Scheduled
       (delete_file
          {| ActivitiesSchema.DeleteFileInput.file_path :=
               ActivitiesSchema.CreateImageFileOutput.file_path img |})
       (Some tq)].
Proof.
  unfold CreateImage.upload, Wf.try_finally.
  match goal with |- context [let '(_, _) := ?b in _] => destruct b as [h' r] end.
  unfold CreateImage.cleanup, Wf.execute_activity_method.
  destruct (respond W unit h' _ _); exists h'; reflexivity.
Qed.

(** Once the multipart upload exists, an [Exception] raised by the parts or
    by the finalize step is followed by the abort and then by the cleanup; a
    [CancelledError] raised there is followed by the cleanup alone. *)
Lemma upload_after_failed_transfer W h tq img key mp h2 e :
  respond W _ h
    (start_s3_multipart_upload
       {| ActivitiesSchema.StartS3MultipartUploadInput.object_key := key |}) None
    = Ok mp ->
  CreateImage.transfer tq img mp W
    (h ++ [Scheduled
             (start_s3_multipart_upload
                {| ActivitiesSchema.StartS3MultipartUploadInput.object_key := key |})
             None])
    = (h2, Raise e) ->
  fst (CreateImage.upload tq img key W h) =
    h2 ++
    (if isinstance_Exception e
     then [Scheduled
             (abort_s3_multipart_upload
                {| ActivitiesSchema.AbortS3MultipartUploadInput.object_key :=
                     ActivitiesSchema.StartS3MultipartUploadOutput.object_key mp;
                   ActivitiesSchema.AbortS3MultipartUploadInput.upload_id :=
                     ActivitiesSchema.StartS3MultipartUploadOutput.upload_id mp |})
             None]
     else []) ++
    [Scheduled
       (delete_file
          {| ActivitiesSchema.DeleteFileInput.file_path :=
               ActivitiesSchema.CreateImageFileOutput.file_path img |})
       (Some tq)].
Proof.
  intros Hs Ht.
  unfold CreateImage.upload, Wf.try_finally, Wf.bind at 1,
    Wf.execute_activity_method at 1, Wf.try_except_Exception.
  rewrite Hs, Ht.
  unfold CreateImage.compensate, CreateImage.cleanup, Wf.bind,
    Wf.execute_activity_method, Wf.raise.
  destruct (isinstance_Exception e).
  - destruct (respond W unit h2 _ None);
      match goal with
      | |- context [respond W unit ?hh (delete_file ?d) ?q] =>
          destruct (respond W unit hh (delete_file d) q)
      end; simpl; rewrite <- app_assoc; reflexivity.
  - match goal with
    | |- context [respond W unit ?hh (delete_file ?d) ?q] =>
        destruct (respond W unit hh (delete_file d) q)
    end; reflexivity.
Qed.

(** C3.  A cancellation that reaches the workflow while it waits for the
    part uploads, or for the finalize step, is not an [Exception]: the local
    file is deleted but the multipart upload [upload-1] is never aborted, and
    the shell re-raises the cancellation.  A part upload that fails with an
    exception is compensated: abort, then delete. *)
Theorem cancelled_upload_is_not_aborted :
  CreateImage._run Scenario.request Scenario.cancelled_during_part_uploads [] =
    ([Scenario.find; Scenario.download; Scenario.create; Scenario.start;
      Scenario.part 0; Scenario.part 1; Scenario.delete],
     Raise CancelledError) /\
  CreateImage._run Scenario.request Scenario.cancelled_during_finish [] =
    ([Scenario.find; Scenario.download; Scenario.create; Scenario.start;
      Scenario.part 0; Scenario.part 1; Scenario.finish; Scenario.delete],
     Raise CancelledError) /\
  CreateImage.run 3 Scenario.request Scenario.cancelled_during_part_uploads [] =
    ([Scenario.find; Scenario.download; Scenario.create; Scenario.start;
      Scenario.part 0; Scenario.part 1; Scenario.delete],
     Raise CancelledError) /\
  CreateImage._run Scenario.request Scenario.part_upload_fails [] =
    ([Scenario.find; Scenario.download; Scenario.create; Scenario.start;
      Scenario.part 0; Scenario.part 1; Scenario.abort; Scenario.delete],
     Raise (ExceptionGroup "unhandled errors in a TaskGroup")).
Proof. repeat split; vm_compute; reflexivity. Qed.

(** C10.  Whatever the input, the world and the number of attempts, every
    frame download that the generation workflow schedules has
    [force_download = False] and [recheck_version = False]; and the download
    is scheduled, with exactly this input, as soon as [find_best_worker] has
    returned. *)
Theorem generation_never_forces_the_download :
  (forall fuel i W h, exists new,
     fst (CreateImage.run fuel i W h) = h ++ new /\
     Forall download_unforced new) /\
  (forall i W h w,
     respond W _ h
       (find_best_worker
          {| ActivitiesSchema.FindBestWorkerInput.frame_id :=
               WorkflowsSchema.CreateImageInput.frame_id i |}) None = Ok w ->
     exists rest,
       fst (CreateImage._run i W h) =
       h ++
       [Scheduled
          (find_best_worker
             {| ActivitiesSchema.FindBestWorkerInput.frame_id :=
                  WorkflowsSchema.CreateImageInput.frame_id i |}) None;
        Scheduled
          (download_frame_file_with_workflow
             {| ActivitiesSchema.DownloadFrameFileInput.frame_id :=
                  WorkflowsSchema.CreateImageInput.frame_id i;
                ActivitiesSchema.DownloadFrameFileInput.force_download := false;
                ActivitiesSchema.DownloadFrameFileInput.recheck_version := false |})
          (Some (ActivitiesSchema.FindBestWorkerOutput.task_queue w))] ++ rest).
Proof.
  split.
  - intros fuel i. unfold CreateImage.run.
    apply appends_retry_shell; [exact I | apply appends_CreateImage__run].
  - intros i W h w Hw. unfold CreateImage._run.
    unfold Wf.bind at 1, Wf.execute_activity_method at 1. rewrite Hw.
    match goal with
    | |- context [Wf.bind (Wf.execute_activity_method ?a ?tq) ?k] =>
        assert (Hk : forall f, appends (fun _ => True) (k f))
          by (intros f;
              repeat (first
                [ eapply appends_weaken;
                  [|apply appends_CreateImage_upload]; solve [auto]
                | appends_step ]));
        unfold Wf.bind at 1, Wf.execute_activity_method at 1;
        match goal with
        | |- context [respond W ?T ?hh a tq] =>
            destruct (respond W T hh a tq) as [f|e];
            [ destruct (Hk f W (hh ++ [Scheduled a tq])) as [new [E _]];
              exists new; rewrite E, <- !app_assoc; reflexivity
            | exists []; simpl; rewrite <- app_assoc; reflexivity ]
        end
    end.
Qed.

Lemma generation_never_forces_the_download_witness :
  exists rest,
    fst (CreateImage._run Scenario.request Scenario.all_succeed []) =
    [] ++ [Scenario.find; Scenario.download] ++ rest.
Proof.
  destruct generation_never_forces_the_download as [_ H].
  apply (H Scenario.request Scenario.all_succeed []
           {| ActivitiesSchema.FindBestWorkerOutput.task_queue := "worker-1" |}).
  reflexivity.
Defined.

(** ** The metadata stage of the frame download *)

(** C6, as the claim states it, fails: a 200 response whose body is the
    empty JSON object cannot be parsed, and the error raised has
    [non_retryable=False]; so has the error raised for a 503 response with
    no JSON body; and a failure of the request itself is raised as it is. *)
Lemma parse_failure_is_retryable :
  Activities.frame_metadata
    {| httpx.status_code := 200; httpx.json_body := Some (JObject []) |}
    = Raise (ApplicationError "Failed to parse frame metadata" false) /\
  Activities.frame_metadata
    {| httpx.status_code := 200; httpx.json_body := Some (JObject []) |}
    <> Raise (ApplicationError "Failed to parse frame metadata" true) /\
  Activities.frame_metadata
    {| httpx.status_code := 503; httpx.json_body := None |}
    = Raise (ApplicationError "Failed to parse frame metadata" false) /\
  Activities.fetch_frame_metadata (Raise (OtherException "httpx.ConnectError"))
    = Raise (OtherException "httpx.ConnectError").
Proof.
  repeat split; try reflexivity. vm_compute. discriminate.
Qed.

(** C6, amended.  A metadata response that is neither a success nor a
    server error is raised as a non-retryable application error; a response
    that is a success or a server error and whose metadata cannot be read is
    raised as an application error with [non_retryable=False]; the stage
    raises nothing else on a response. *)
Theorem metadata_errors (r : httpx.Response) :
  (httpx.is_success r = false -> httpx.is_server_error r = false ->
   Activities.frame_metadata r
     = Raise (ApplicationError "Failed to fetch frame info" true)) /\
  (httpx.is_success r = true \/ httpx.is_server_error r = true ->
   Activities.parse_frame_metadata r = None ->
   Activities.frame_metadata r
     = Raise (ApplicationError "Failed to parse frame metadata" false)) /\
  (forall m,
   httpx.is_success r = true \/ httpx.is_server_error r = true ->
   Activities.parse_frame_metadata r = Some m ->
   Activities.frame_metadata r = Ok m) /\
  (forall e, Activities.frame_metadata r = Raise e ->
   e = ApplicationError "Failed to fetch frame info" true \/
   e = ApplicationError "Failed to parse frame metadata" false).
Proof.
  unfold Activities.frame_metadata. repeat split.
  - intros -> ->. reflexivity.
  - intros [H|H] Hp; rewrite H, Hp;
      [|rewrite andb_false_r]; reflexivity.
  - intros m [H|H] Hp; rewrite H, Hp;
      [|rewrite andb_false_r]; reflexivity.
  - intros e.
    destruct (negb (httpx.is_success r) && negb (httpx.is_server_error r)).
    + intros H; injection H as <-. left; reflexivity.
    + destruct (Activities.parse_frame_metadata r); [discriminate|].
      intros H; injection H as <-. right; reflexivity.
Qed.

Lemma metadata_errors_witness :
  Activities.frame_metadata
    {| httpx.status_code := 404; httpx.json_body := None |}
    = Raise (ApplicationError "Failed to fetch frame info" true) /\
  Activities.frame_metadata
    {| httpx.status_code := 502; httpx.json_body := Some (JString "Bad Gateway") |}
    = Raise (ApplicationError "Failed to parse frame metadata" false) /\
  Activities.frame_metadata
    {| httpx.status_code := 200;
       httpx.json_body := Some frame_document |}
    = Ok {| Activities.basename := JString "frame";
            Activities.version_id := JNumber 7;
            Activities.ext := JString ".fits.fz";
            Activities.download_url := JString "https://archive/7" |}.
Proof.
  split; [|split].
  - apply (metadata_errors
             {| httpx.status_code := 404; httpx.json_body := None |});
      reflexivity.
  - apply (metadata_errors
             {| httpx.status_code := 502;
                httpx.json_body := Some (JString "Bad Gateway") |});
      [right|]; reflexivity.
  - apply (metadata_errors
             {| httpx.status_code := 200;
                httpx.json_body := Some frame_document |});
      [left|]; reflexivity.
Defined.

(** ** The part count: a binary64 quotient and its ceiling

    [ceil(file_size / part_size)] divides two integers into a double and
    takes the ceiling of the double.  The lemmas below follow the Standard
    Library's [SFdiv_core_binary] and [binary_round_aux] on the quotient of a
    file size below 2^53 by the part size: the quotient has 53 or 54 bits
    before it is rounded, and the rounded double stays on the same side of
    every integer. *)

Lemma digits2_pos_bounds p :
  2 ^ (Zpos (digits2_pos p) - 1) <= Zpos p < 2 ^ Zpos (digits2_pos p).
Proof.
  induction p as [p IH|p IH|]; simpl digits2_pos.
  - rewrite Pos2Z.inj_succ.
    replace (Z.succ (Zpos (digits2_pos p)) - 1) with (Z.succ (Zpos (digits2_pos p) - 1)) by lia.
    rewrite !Z.pow_succ_r by lia. lia.
  - rewrite Pos2Z.inj_succ.
    replace (Z.succ (Zpos (digits2_pos p)) - 1) with (Z.succ (Zpos (digits2_pos p) - 1)) by lia.
    rewrite !Z.pow_succ_r by lia. lia.
  - simpl. lia.
Qed.

Lemma Zdigits2_unique n d :
  2 ^ (d - 1) <= n < 2 ^ d -> 0 < d -> Zdigits2 n = d.
Proof.
  intros [Hlo Hhi] Hd.
  assert (0 < n) by (pose proof (Z.pow_pos_nonneg 2 (d - 1)); lia).
  destruct n as [|p|p]; try lia. simpl.
  pose proof (digits2_pos_bounds p) as [Blo Bhi].
  destruct (Z.lt_trichotomy (Zpos (digits2_pos p)) d) as [L|[E|G]]; [|exact E|].
  - pose proof (Z.pow_le_mono_r 2 (Zpos (digits2_pos p)) (d - 1)). lia.
  - pose proof (Z.pow_le_mono_r 2 d (Zpos (digits2_pos p) - 1)). lia.
Qed.

Ltac pow_consts :=
  change (2 ^ 52) with 4503599627370496 in *;
  change (2 ^ 53) with 9007199254740992 in *;
  change (2 ^ 54) with 18014398509481984 in *.

Lemma shr_record_of_loc_m m l : shr_m (shr_record_of_loc m l) = m.
Proof. destruct l as [|[]]; reflexivity. Qed.

Lemma loc_of_shr_record_of_loc m l :
  loc_of_shr_record (shr_record_of_loc m l) = l.
Proof. destruct l as [|[]]; reflexivity. Qed.

Lemma round_nearest_even_cases m l :
  (round_nearest_even m l = m \/ round_nearest_even m l = m + 1) /\
  (l = loc_Exact -> round_nearest_even m l = m) /\
  (l = loc_Inexact Gt -> round_nearest_even m l = m + 1).
Proof.
  destruct l as [|[]]; simpl; repeat split; auto; try discriminate.
  destruct (Z.even m); auto.
Qed.

(** Rounding a mantissa that already has 53 bits, with no location left. *)
Lemma renormalize M e :
  2 ^ 52 <= M <= 2 ^ 53 -> -1074 <= e <= 969 ->
  exists m e2,
    (let '(mrs, e'') := shr_fexp 53 1024 M e loc_Exact in
     match shr_m mrs with
     | Z0 => S754_zero false
     | Zpos m => if e'' <=? 1024 - 53 then S754_finite false m e'' else S754_infinity false
     | Zneg _ => S754_nan
     end) = S754_finite false m e2 /\
    e <= e2 <= e + 1 /\ Zpos m * 2 ^ (e2 - e) = M.
Proof.
  intros HM He.
  destruct (Z.eq_dec M (2 ^ 53)) as [->|Hne].
  - exists (Z.to_pos (2 ^ 52)), (e + 1).
    unfold shr_fexp. change (Zdigits2 (2 ^ 53)) with 54.
    unfold fexp, emin. replace (Z.max (54 + e - 53) (3 - 1024 - 53) - e) with 1 by lia.
    simpl shr. cbv beta iota zeta. simpl shr_m. cbv beta iota.
    rewrite (leb_true (e + 1) (1024 - 53)) by lia.
    split; [reflexivity|]. split; [lia|].
    replace (e + 1 - e) with 1 by lia. reflexivity.
  - assert (Hd : Zdigits2 M = 53) by (apply Zdigits2_unique; simpl; lia).
    destruct M as [|m|m]; try (simpl in HM; lia).
    exists m, e. unfold shr_fexp. rewrite Hd.
    unfold fexp, emin. replace (Z.max (53 + e - 53) (3 - 1024 - 53) - e) with 0 by lia.
    simpl shr. cbv beta iota zeta. simpl shr_m. cbv beta iota.
    rewrite (leb_true e (1024 - 53)) by lia.
    split; [reflexivity|]. split; [lia|].
    rewrite Z.sub_diag. simpl. lia.
Qed.

Lemma shr_1_of_loc q l :
  0 < q ->
  shr_1 (shr_record_of_loc q l) =
  {| shr_m := q / 2; shr_r := Z.odd q;
     shr_s := match l with loc_Exact => false | loc_Inexact _ => true end |}.
Proof.
  intros Hq. rewrite <- Z.div2_div.
  destruct q as [|[p|p|]|]; try lia; destruct l as [|[]]; reflexivity.
Qed.

Lemma ceil_of_finite m e k :
  e < 0 ->
  (k - 1) * 2 ^ (- e) < Zpos m <= k * 2 ^ (- e) ->
  PyFloat.ceil (S754_finite false m e) = Ok k.
Proof.
  intros He Hk. destruct e as [|p|p]; try lia.
  unfold PyFloat.ceil. change (- Zneg p) with (Zpos p) in Hk.
  assert (0 < 2 ^ Zpos p) by (apply Z.pow_pos_nonneg; lia).
  f_equal. symmetry.
  replace k with (- - k) at 1 by lia. f_equal.
  apply (Z.div_unique (- Zpos m) (2 ^ Zpos p) (- k) (k * 2 ^ Zpos p - Zpos m)); lia.
Qed.

Lemma pow2_split e : e < 0 -> 2 ^ (- e) = 2 * 2 ^ (- (e + 1)).
Proof.
  intros He. replace (- e) with (Z.succ (- (e + 1))) by lia.
  rewrite Z.pow_succ_r by lia. reflexivity.
Qed.

(** The quotient [q * 2^e], located by [l], lies in [(k-1, k]]; its
    rounding to binary64 has ceiling [k]. *)
Lemma ceil_binary_round_aux q e l k :
  2 ^ 52 <= q < 2 ^ 54 -> -100 <= e <= -23 ->
  (k - 1) * 2 ^ (- e) < q <= k * 2 ^ (- e) ->
  (q = k * 2 ^ (- e) -> l = loc_Exact) ->
  (q = (k - 1) * 2 ^ (- e) + 1 -> l <> loc_Exact) ->
  exists m e2,
    binary_round_aux 53 1024 false q e l = S754_finite false m e2 /\
    PyFloat.ceil (S754_finite false m e2) = Ok k.
Proof.
  intros Hq He Hk Hex Hin.
  set (a := k * 2 ^ (- e)) in *.
  replace ((k - 1) * 2 ^ (- e)) with (a - 2 ^ (- e)) in * by (unfold a; ring).
  assert (Hl : (l = loc_Exact /\ q <> a - 2 ^ (- e) + 1) \/
               (exists c, l = loc_Inexact c /\ q <> a)).
  { destruct l as [|c].
    - left. split; [reflexivity|]. intros E. apply (Hin E). reflexivity.
    - right. exists c. split; [reflexivity|]. intros E. discriminate (Hex E). }
  clear Hex Hin.
  assert (HN : 0 < 2 ^ (- e)) by (apply Z.pow_pos_nonneg; lia).
  assert (HN1 : 0 < 2 ^ (- (e + 1))) by (apply Z.pow_pos_nonneg; lia).
  assert (HN2 : 0 < 2 ^ (- (e + 2))) by (apply Z.pow_pos_nonneg; lia).
  pose proof (pow2_split e ltac:(lia)) as S1.
  pose proof (pow2_split (e + 1) ltac:(lia)) as S2.
  replace (e + 1 + 1) with (e + 2) in S2 by lia.
  assert (Ha : a = 2 * (k * 2 ^ (- (e + 1)))) by (unfold a; rewrite S1; ring).
  assert (Ha1 : k * 2 ^ (- (e + 1)) = 2 * (k * 2 ^ (- (e + 2))))
    by (rewrite S2; ring).
  clearbody a.
  unfold binary_round_aux.
  destruct (Z.lt_ge_cases q (2 ^ 53)) as [Hlt|Hge].
  - (* a quotient of 53 bits *)
    unfold shr_fexp at 1.
    rewrite (Zdigits2_unique q 53) by (simpl; lia).
    unfold fexp at 1, emin.
    replace (Z.max (53 + e - 53) (3 - 1024 - 53) - e) with 0 by lia.
    simpl shr. cbv beta iota zeta.
    rewrite shr_record_of_loc_m, loc_of_shr_record_of_loc.
    assert (HMk : a - 2 ^ (- e) < round_nearest_even q l <= a).
    { destruct Hl as [[-> Hne]|[c [-> Hne]]]; unfold round_nearest_even;
        [|destruct c; [destruct (Z.even q)| |]]; lia. }
    assert (HMr : 2 ^ 52 <= round_nearest_even q l <= 2 ^ 53)
      by (destruct (round_nearest_even_cases q l) as ([E|E] & _);
          rewrite E; pow_consts; lia).
    destruct (renormalize (round_nearest_even q l) e) as (m & e2 & -> & He2 & Hm);
      [exact HMr | lia |].
    exists m, e2. split; [reflexivity|].
    apply ceil_of_finite; [lia|].
    replace ((k - 1) * 2 ^ (- e2)) with (k * 2 ^ (- e2) - 2 ^ (- e2)) by ring.
    assert (C : e2 = e \/ e2 = e + 1) by lia.
    destruct C as [->| ->].
    + rewrite Z.sub_diag in Hm. simpl in Hm.
      assert (k * 2 ^ (- e) = 2 * (k * 2 ^ (- (e + 1)))) by (rewrite S1; ring).
      lia.
    + replace (e + 1 - e) with 1 in Hm by lia.
      change (2 ^ 1) with 2 in Hm. lia.
  - (* a quotient of 54 bits: one bit is shifted out *)
    unfold shr_fexp at 1.
    rewrite (Zdigits2_unique q 54) by (simpl; lia).
    unfold fexp at 1, emin.
    replace (Z.max (54 + e - 53) (3 - 1024 - 53) - e) with 1 by lia.
    simpl shr. cbv beta iota zeta.
    rewrite shr_1_of_loc by (pow_consts; lia).
    simpl shr_m. unfold loc_of_shr_record.
    pose proof (Z.div_mod q 2 ltac:(lia)) as Hdm.
    pose proof (Z.mod_pos_bound q 2 ltac:(lia)) as Hmb.
    assert (Hodd : q mod 2 = if Z.odd q then 1 else 0) by apply Zmod_odd.
    match goal with
    | |- context [round_nearest_even (q / 2) ?loc] =>
        set (M := round_nearest_even (q / 2) loc)
    end.
    assert (HMk : a - 2 ^ (- e) < 2 * M <= a).
    { unfold M, round_nearest_even.
      destruct Hl as [[-> Hne]|[c [-> Hne]]]; destruct (Z.odd q);
        try destruct (Z.even (q / 2)); lia. }
    assert (HMr : 2 ^ 52 <= M <= 2 ^ 53)
      by (destruct (round_nearest_even_cases (q / 2)
                      match Z.odd q, match l with
                                     | loc_Exact => false
                                     | loc_Inexact _ => true
                                     end with
                      | false, false => loc_Exact
                      | false, true => loc_Inexact Lt
                      | true, false => loc_Inexact Eq
                      | true, true => loc_Inexact Gt
                      end) as ([E|E] & _);
          unfold M; rewrite E; pow_consts; lia).
    clearbody M.
    destruct (renormalize M (e + 1)) as (m & e2 & -> & He2 & Hm);
      [exact HMr | lia |].
    exists m, e2. split; [reflexivity|].
    apply ceil_of_finite; [lia|].
    replace ((k - 1) * 2 ^ (- e2)) with (k * 2 ^ (- e2) - 2 ^ (- e2)) by ring.
    assert (C : e2 = e + 1 \/ e2 = e + 2) by lia.
    destruct C as [->| ->].
    + rewrite Z.sub_diag in Hm. simpl in Hm. lia.
    + replace (e + 2 - (e + 1)) with 1 in Hm by lia.
      change (2 ^ 1) with 2 in Hm. lia.
Qed.

Lemma div_eucl_div_mod a b : Z.div_eucl a b = (a / b, a mod b).
Proof. unfold Z.div, Z.modulo. destruct (Z.div_eucl a b); reflexivity. Qed.

Lemma ceil_div_bounds a b :
  0 < b -> (ceil_div a b - 1) * b < a <= ceil_div a b * b.
Proof.
  intros Hb. unfold ceil_div.
  pose proof (Z.div_mod (a + b - 1) b ltac:(lia)) as Hdm.
  pose proof (Z.mod_pos_bound (a + b - 1) b Hb) as Hmb.
  nia.
Qed.

(** [ceil(file_size / part_size)], computed through a binary64 quotient, is
    the exact ceiling for every file size below 2^53 bytes. *)
Lemma part_count_exact S :
  0 <= S < 2 ^ 53 ->
  CreateImage.part_count S = Ok (ceil_div S CreateImage.part_size).
Proof.
  intros HS. unfold CreateImage.part_count, CreateImage.part_size.
  change (5 * 1024 * 1024) with 5242880.
  destruct (Z.eq_dec S 0) as [->|Hnz]; [reflexivity|].
  assert (Hpos : 0 < S) by lia.
  unfold PyFloat.int_truediv.
  change (5242880 =? 0) with false. cbv iota.
  replace (S =? 0) with false by (symmetry; apply Z.eqb_neq; exact Hnz).
  rewrite (Z.abs_eq S) by lia. change (Z.abs 5242880) with 5242880.
  replace (S <? 0) with false by (symmetry; apply Z.ltb_ge; lia).
  change (xorb false (5242880 <? 0)) with false.
  (* the digits of S *)
  set (d := Zdigits2 S).
  assert (Hd : 2 ^ (d - 1) <= S < 2 ^ d /\ 1 <= d <= 53).
  { unfold d. destruct S as [|p|p]; try lia. simpl Zdigits2.
    pose proof (digits2_pos_bounds p) as B. split; [exact B|].
    split; [lia|].
    destruct (Z.le_gt_cases (Zpos (digits2_pos p)) 53) as [L|G]; [exact L|].
    pose proof (Z.pow_le_mono_r 2 53 (Zpos (digits2_pos p) - 1)). lia. }
  destruct Hd as [HdS Hd].
  set (N := 2 ^ (76 - d)).
  assert (HN : 2 ^ 23 <= N) by (apply Z.pow_le_mono_r; lia).
  assert (HT : 2 ^ 75 <= S * N < 2 ^ 76).
  { assert (E1 : 2 ^ 75 = 2 ^ (d - 1) * N)
      by (unfold N; rewrite <- Z.pow_add_r by lia; f_equal; lia).
    assert (E2 : 2 ^ 76 = 2 ^ d * N)
      by (unfold N; rewrite <- Z.pow_add_r by lia; f_equal; lia).
    rewrite E1, E2. split.
    - apply Z.mul_le_mono_nonneg_r; lia.
    - apply Z.mul_lt_mono_pos_r; lia. }
  (* the division of the mantissas *)
  unfold SFdiv_core_binary. fold d.
  change (Zdigits2 5242880) with 23.
  unfold fexp, emin, PyFloat.prec, PyFloat.emax.
  replace (Z.min (Z.max (d + 0 - (23 + 0) - 53) (3 - 1024 - 53)) (0 - 0))
    with (d - 76) by lia.
  replace (0 - 0 - (d - 76)) with (76 - d) by lia.
  assert (Hs : exists p, 76 - d = Zpos p)
    by (destruct (76 - d) as [|p|p] eqn:E; try lia; eauto).
  destruct Hs as [p Hp]. rewrite Hp. rewrite <- Hp.
  rewrite Z.shiftl_mul_pow2 by lia. fold N.
  rewrite div_eucl_div_mod.
  pose proof (Z.div_mod (S * N) 5242880 ltac:(lia)) as Hdm.
  pose proof (Z.mod_pos_bound (S * N) 5242880 ltac:(lia)) as Hmb.
  set (q := S * N / 5242880) in *. set (r := (S * N) mod 5242880) in *.
  change (new_location 5242880 r) with (new_location_even 5242880 r).
  unfold new_location_even.
  (* the ceiling, scaled by N *)
  pose proof (ceil_div_bounds S 5242880 ltac:(lia)) as Hk.
  set (k := ceil_div S 5242880) in *.
  assert (Hup : S * N <= 5242880 * (k * N)) by nia.
  assert (Hlo : 5242880 * (k * N) - 5242880 * N + N <= S * N) by nia.
  change (2 ^ 23) with 8388608 in HN.
  change (2 ^ 75) with 37778931862957161709568 in HT.
  change (2 ^ 76) with 75557863725914323419136 in HT.
  destruct (ceil_binary_round_aux q (d - 76)
              (if r =? 0 then loc_Exact else loc_Inexact (2 * r ?= 5242880)) k)
    as (m & e2 & Hr & Hc).
  - pow_consts. lia.
  - lia.
  - replace (- (d - 76)) with (76 - d) by lia. fold N. lia.
  - replace (- (d - 76)) with (76 - d) by lia. fold N. intros E.
    replace (r =? 0) with true; [reflexivity|].
    symmetry. apply Z.eqb_eq. lia.
  - replace (- (d - 76)) with (76 - d) by lia. fold N. intros E.
    replace (r =? 0) with false; [discriminate|].
    symmetry. apply Z.eqb_neq. lia.
  - rewrite Hr. simpl bind. exact Hc.
Qed.

Lemma gather_execute {A X} (a : X -> activity A) (tq : option string)
  (l : list X) (W : World) :
  forall h,
    fst (Wf.gather (map (fun x => Wf.execute_activity_method (a x) tq) l) W h) =
    h ++ map (fun x => Scheduled (a x) tq) l.
Proof.
  induction l as [|x l IH]; intros h; simpl.
  - rewrite app_nil_r. reflexivity.
  - specialize (IH (h ++ [Scheduled (a x) tq])).
    destruct (Wf.gather _ W (h ++ [Scheduled (a x) tq])) as [h' rs].
    simpl in *. rewrite IH, <- app_assoc. reflexivity.
Qed.

(** C9.  For a file of [S] bytes, [S] below 2^53, the part size is 5 MiB, the
    part count is the ceiling of [S / P], the workflow schedules one upload
    per part [0 .. count-1], part [i] starts at offset [P * i] with part
    number [i + 1], every part but the last is sent with content length [P],
    and the last with [S - P * (count - 1)]. *)
Theorem multipart_split (img : ActivitiesSchema.CreateImageFileOutput.t)
  (mp : ActivitiesSchema.StartS3MultipartUploadOutput.t) :
  let S := ActivitiesSchema.CreateImageFileOutput.file_size img in
  let P := CreateImage.part_size in
  let count := ceil_div S P in
  0 <= S < 2 ^ 53 ->
  P = 5 * 2 ^ 20 /\
  CreateImage.part_count S = Ok count /\
  (count - 1) * P < S <= count * P /\
  (forall tq W h, exists rest,
     fst (CreateImage.transfer tq img mp W h) =
     h ++ map (fun part_i =>
                 Scheduled (upload_s3_part (CreateImage.part_input img mp part_i))
                   (Some tq))
              (range count) ++ rest) /\
  range count = map Z.of_nat (seq 0 (Z.to_nat count)) /\
  (forall part_i, 0 <= part_i < count ->
     ActivitiesSchema.UploadS3PartInput.file_offset
       (CreateImage.part_input img mp part_i) = P * part_i /\
     ActivitiesSchema.UploadS3PartInput.part_number
       (CreateImage.part_input img mp part_i) = part_i + 1 /\
     Activities.content_length (CreateImage.part_input img mp part_i) =
       if part_i =? count - 1 then S - P * (count - 1) else P).
Proof.
  intros S P count HS.
  assert (HP : P = 5242880) by reflexivity.
  pose proof (ceil_div_bounds S P ltac:(lia)) as Hk. fold count in Hk.
  pose proof (part_count_exact S HS) as Hc. fold P count in Hc.
  split; [reflexivity|]. split; [exact Hc|]. split; [exact Hk|].
  split; [|split; [reflexivity|]].
  - intros tq W h. unfold CreateImage.transfer.
    unfold Wf.bind at 1, Wf.lift. fold S. rewrite Hc.
    unfold Wf.bind at 1, Wf.TaskGroup.
    pose proof (gather_execute
                  (fun part_i => upload_s3_part (CreateImage.part_input img mp part_i))
                  (Some tq) (range count) W h) as G.
    destruct (Wf.gather _ W h) as [h' rs]. simpl in G. subst h'.
    destruct (Wf.join rs) as [parts|e].
    + eexists. unfold Wf.execute_activity_method. simpl.
      rewrite <- app_assoc. reflexivity.
    + exists []. simpl. rewrite app_nil_r. reflexivity.
  - intros part_i Hi. split; [reflexivity|]. split; [reflexivity|].
    unfold Activities.content_length, CreateImage.part_input.
    cbn [ActivitiesSchema.UploadS3PartInput.file_offset
         ActivitiesSchema.UploadS3PartInput.part_size
         ActivitiesSchema.UploadS3PartInput.file_size].
    fold P S.
    destruct (part_i =? count - 1) eqn:E.
    + apply Z.eqb_eq in E. subst part_i.
      destruct (P * (count - 1) + P >? S) eqn:G; [reflexivity|].
      rewrite Z.gtb_ltb in G. apply Z.ltb_ge in G. lia.
    + apply Z.eqb_neq in E.
      rewrite gtb_false by nia. reflexivity.
Qed.

Lemma multipart_split_witness :
  CreateImage.part_count 7000000 = Ok 2 /\
  Activities.content_length
    (CreateImage.part_input Scenario.generated_img Scenario.mp_upload 1)
  = 7000000 - 5242880 * (2 - 1).
Proof.
  pose proof (multipart_split Scenario.generated_img Scenario.mp_upload) as H.
  cbv zeta in H.
  change (ActivitiesSchema.CreateImageFileOutput.file_size Scenario.generated_img)
    with 7000000 in H.
  destruct H as (_ & Hc & _ & _ & _ & Hp).
  - split; [discriminate | reflexivity].
  - split; [exact Hc|]. apply (Hp 1). split; [discriminate | reflexivity].
Defined.

(** The bound on the file size is needed: at 2^31 parts and one byte, about
    ten pebibytes, the quotient rounds down to 2^31 and one part is missing. *)
Remark part_count_above_the_bound :
  CreateImage.part_count (2 ^ 31 * CreateImage.part_size + 1) = Ok (2 ^ 31) /\
  ceil_div (2 ^ 31 * CreateImage.part_size + 1) CreateImage.part_size = 2 ^ 31 + 1.
Proof. split; vm_compute; reflexivity. Qed.

(** * Further properties of the code *)

(** ** Size normalization: what is refused, what is returned *)

Lemma size_checks_raises_400 norm region info e :
  size_checks norm region info = Raise e -> exists d, e = HTTPException 400 d.
Proof.
  unfold size_checks, width_over_region, height_over_region, width_over_limit,
    height_over_limit, area_over_limit.
  repeat match goal with
         | |- context [if ?b then _ else _] => destruct b
         | |- context [match over ?v ?o with _ => _ end] => destruct (over v o)
         end;
    intros H; try discriminate H; injection H as <-; eauto.
Qed.

Lemma normalize_size_direct_not_501 org region info :
  Size_rank org = 0%nat -> Size_upscaleable org = false ->
  normalize_size org region info <> Raise upscaling_unsupported.
Proof.
  intros Hr Hu H. rewrite (normalize_size_direct _ _ _ Hr), Hu in H.
  raised_in_bind H; [apply int_truediv_plain in H; discriminate|].
  raised_in_bind H; [apply size_norm_plain in H; discriminate|].
  apply size_checks_raises_400 in H. destruct H as [d H]. discriminate.
Qed.

(** X1.  [normalize_size] answers 501 "Upscaling not supported" exactly on
    the sizes marked upscaleable, whatever the variant, the region and the
    limits: the test comes before the aspect is computed, and nothing after
    it raises this error. *)
Theorem upscaling_refused_exactly (org : Size) (region : PixelRegion.t)
  (info : ImageInfoResponse) :
  normalize_size org region info = Raise upscaling_unsupported <->
  Size_upscaleable org = true.
Proof.
  split.
  - intros H. destruct (Size_upscaleable org) eqn:Hu; [reflexivity|exfalso].
    destruct (Size_rank_cases org) as [Hr|(u & w & h & ->)].
    + eapply normalize_size_direct_not_501; eassumption.
    + simpl in Hu. subst u. rewrite normalize_size_preserved_aspect in H.
      raised_in_bind H; [apply int_truediv_plain in H; discriminate|].
      raised_in_bind H.
      * cbv zeta in H.
        raised_in_bind H.
        { destruct (1 <=? _); [|discriminate].
          eapply normalize_size_direct_not_501; [| |eassumption]; reflexivity. }
        raised_in_bind H.
        { destruct (1 <=? _); [|discriminate].
          eapply normalize_size_direct_not_501; [| |eassumption]; reflexivity. }
        destruct (_ >=? _); discriminate.
      * apply size_checks_raises_400 in H. destruct H as [d H]. discriminate.
  - intros Hu.
    destruct (Size_rank_cases org) as [Hr|(u & w & h & ->)].
    + rewrite (normalize_size_direct _ _ _ Hr), Hu. reflexivity.
    + simpl in Hu. subst u. rewrite normalize_size_preserved_aspect. reflexivity.
Qed.

Lemma PixelSize_new_Ok u w h s :
  PixelSize.new u w h = Ok s ->
  s = {| PixelSize.upscaleable := u; PixelSize.width := w;
         PixelSize.height := h |} /\ 1 <= w /\ 1 <= h.
Proof.
  unfold PixelSize.new, PixelSize.fields_ok.
  destruct ((1 <=? w) && (1 <=? h)) eqn:E; [|discriminate].
  intros H; injection H as <-.
  apply andb_prop in E. destruct E as [E1 E2].
  apply Z.leb_le in E1. apply Z.leb_le in E2. auto.
Qed.

Lemma size_norm_well_formed org aspect region info s :
  Size_valid org -> Size_upscaleable org = false ->
  size_norm org aspect region info = Ok s ->
  PixelSize.upscaleable s = false /\
  1 <= PixelSize.width s /\ 1 <= PixelSize.height s.
Proof.
  intros Hv Hu H. destruct org; simpl in H;
    repeat (apply bind_Ok_inv in H; destruct H as [? [_ H]]);
    try (apply PixelSize_new_Ok in H; destruct H as (-> & ? & ?);
         simpl; auto; fail).
  - injection H as <-. simpl in Hu, Hv.
    unfold PixelSize.valid, PixelSize.fields_ok in Hv.
    apply andb_prop in Hv. destruct Hv as [E1 E2].
    apply Z.leb_le in E1. apply Z.leb_le in E2. auto.
  - discriminate.
Qed.

Lemma normalize_size_direct_well_formed org region info s :
  Size_rank org = 0%nat -> Size_valid org ->
  normalize_size org region info = Ok s ->
  PixelSize.upscaleable s = false /\
  1 <= PixelSize.width s /\ 1 <= PixelSize.height s.
Proof.
  intros Hr Hv H. rewrite (normalize_size_direct _ _ _ Hr) in H.
  destruct (Size_upscaleable org) eqn:Hu; [discriminate|].
  apply bind_Ok_inv in H. destruct H as [aspect [_ H]].
  apply bind_Ok_inv in H. destruct H as [norm [Hn H]].
  apply size_checks_Ok in H. destruct H as [-> _].
  eapply size_norm_well_formed; eassumption.
Qed.

Lemma normalize_size_Ok_positive (org : Size) (region : PixelRegion.t)
  (info : ImageInfoResponse) (s : PixelSize.t) :
  Size_valid org ->
  normalize_size org region info = Ok s ->
  PixelSize.upscaleable s = false /\
  1 <= PixelSize.width s /\ 1 <= PixelSize.height s.
Proof.
  intros Hv H.
  destruct (Size_rank_cases org) as [Hr|(u & w & h & ->)].
  - eapply normalize_size_direct_well_formed; eassumption.
  - rewrite normalize_size_preserved_aspect in H.
    destruct u; [discriminate|].
    apply bind_Ok_inv in H. destruct H as [aspect [_ H]].
    apply bind_Ok_inv in H. destruct H as [norm [Hn H]].
    apply size_checks_Ok in H. destruct H as [-> _].
    cbv zeta in Hn.
    apply bind_Ok_inv in Hn. destruct Hn as [cw [Hw Hn]].
    apply bind_Ok_inv in Hn. destruct Hn as [ch [Hh Hn]].
    destruct (1 <=? _) eqn:Ew in Hw; [|discriminate].
    destruct (1 <=? _) eqn:Eh in Hh; [|discriminate].
    apply Z.leb_le in Ew. apply Z.leb_le in Eh.
    apply normalize_size_direct_well_formed in Hw; [|reflexivity|exact Ew].
    apply normalize_size_direct_well_formed in Hh; [|reflexivity|exact Eh].
    destruct (_ >=? _); injection Hn as <-; assumption.
Qed.

(** X2.  Whatever the variant of a validated size, the size that
    [normalize_size] returns is not upscaleable and has a width and a height
    of at least one pixel, and no more than the region's. *)
Theorem normalize_size_well_formed (org : Size) (region : PixelRegion.t)
  (info : ImageInfoResponse) (s : PixelSize.t) :
  Size_valid org ->
  normalize_size org region info = Ok s ->
  PixelSize.upscaleable s = false /\
  1 <= PixelSize.width s <= PixelRegion.w region /\
  1 <= PixelSize.height s <= PixelRegion.h region.
Proof.
  intros Hv H.
  pose proof (normalize_size_Ok_positive _ _ _ _ Hv H) as (Hu & Hw & Hh).
  apply normalize_size_Ok_checked, size_checks_Ok in H.
  destruct H as (_ & Hrw & Hrh & _).
  repeat split; assumption.
Qed.

Lemma normalize_size_well_formed_witness :
  PixelSize.upscaleable (size 40 80) = false /\
  1 <= PixelSize.width (size 40 80) <= PixelRegion.w (rect 0 0 100 200) /\
  1 <= PixelSize.height (size 40 80) <= PixelRegion.h (rect 0 0 100 200).
Proof.
  apply (normalize_size_well_formed (PreservedAspectPixelSize false 40 100)
           (rect 0 0 100 200) (image 100 200 (Some 100) (Some 200) None)).
  - split; discriminate.
  - vm_compute. reflexivity.
Defined.

(** ** The limits of the image-information response *)

(** X3.  With the limits that [get_image_information] declares (the image's
    own width and height), [max] is accepted only on a region as wide and as
    high as the image, and then returns the image's dimensions; on a narrower
    region it is refused for its width, on a region of the full width and a
    smaller height for its height. *)
Theorem max_size_needs_the_full_region (url : string)
  (dimensions : WorkflowsSchema.GetFrameDimensionsOutput.t)
  (doc : ImageInfoDocument) (region : PixelRegion.t) (aspect : PyFloat.float) :
  image_information url dimensions = Ok doc ->
  PixelRegion.valid region ->
  PyFloat.int_truediv (PixelRegion.w region) (PixelRegion.h region) = Ok aspect ->
  (forall s, normalize_size (MaxSize false) region (info doc) = Ok s <->
     PixelRegion.w region = width (info doc) /\
     PixelRegion.h region = height (info doc) /\
     s = size (width (info doc)) (height (info doc))) /\
  (PixelRegion.w region < width (info doc) ->
   normalize_size (MaxSize false) region (info doc) =
     Raise (width_over_region (width (info doc)) (PixelRegion.w region))) /\
  (PixelRegion.w region = width (info doc) ->
   PixelRegion.h region < height (info doc) ->
   normalize_size (MaxSize false) region (info doc) =
     Raise (height_over_region (height (info doc)) (PixelRegion.w region))).
Proof.
  intros Hd Hv Ha.
  unfold image_information in Hd.
  destruct ((1 <=? _) && (1 <=? _)) eqn:E; [|discriminate].
  injection Hd as <-. simpl info. simpl width. simpl height.
  set (W := WorkflowsSchema.GetFrameDimensionsOutput.width dimensions) in *.
  set (H := WorkflowsSchema.GetFrameDimensionsOutput.height dimensions) in *.
  apply andb_prop in E. destruct E as [EW EH].
  apply Z.leb_le in EW. apply Z.leb_le in EH.
  apply PixelRegion_valid_bounds in Hv. destruct Hv as (_ & _ & Hrw & Hrh).
  assert (E : forall i, max_width i = Some W -> max_height i = Some H ->
                max_area i = None ->
                normalize_size (MaxSize false) region i =
                size_checks (size (Z.max (PixelRegion.w region) W)
                                  (Z.max (PixelRegion.h region) H)) region i).
  { intros i Hmw Hmh _.
    rewrite (normalize_size_simple (MaxSize false) region i aspect
               eq_refl eq_refl Ha).
    unfold size_norm. rewrite Hmw, Hmh, !or_0_Some.
    unfold PixelSize.new, PixelSize.fields_ok.
    rewrite (leb_true 1 (Z.max (PixelRegion.w region) W)) by lia.
    rewrite (leb_true 1 (Z.max (PixelRegion.h region) H)) by lia.
    reflexivity. }
  rewrite E by reflexivity. clear E.
  unfold size_checks, size; simpl.
  split; [|split].
  - intros s; split.
    + intros Hs.
      destruct (Z.max (PixelRegion.w region) W >? PixelRegion.w region) eqn:C1;
        [discriminate|].
      destruct (Z.max (PixelRegion.h region) H >? PixelRegion.h region) eqn:C2;
        [discriminate|].
      destruct (Z.max (PixelRegion.w region) W >? W) eqn:C3; [discriminate|].
      destruct (Z.max (PixelRegion.h region) H >? H) eqn:C4; [discriminate|].
      injection Hs as <-.
      rewrite Z.gtb_ltb in C1, C2, C3, C4.
      apply Z.ltb_ge in C1. apply Z.ltb_ge in C2.
      apply Z.ltb_ge in C3. apply Z.ltb_ge in C4.
      assert (Ew : PixelRegion.w region = W) by lia.
      assert (Eh : PixelRegion.h region = H) by lia.
      rewrite Ew, Eh, !Z.max_id. auto.
    + intros (-> & -> & ->). rewrite !Z.max_id, !gtb_false by lia. reflexivity.
  - intros Hlt. rewrite Z.max_r by lia. rewrite gtb_true by lia. reflexivity.
  - intros -> Hlt. rewrite Z.max_id, gtb_false by lia.
    rewrite Z.max_r by lia. rewrite gtb_true by lia. reflexivity.
Qed.

Lemma max_size_needs_the_full_region_witness :
  normalize_size (MaxSize false) (rect 0 0 100 50)
    (image 200 100 (Some 200) (Some 100) None) =
  Raise (width_over_region 200 100).
Proof.
  refine (proj1 (proj2 (max_size_needs_the_full_region
              "https://iiif/frames/42/fits/hdus/1/info.json"
              {| WorkflowsSchema.GetFrameDimensionsOutput.width := 200;
                 WorkflowsSchema.GetFrameDimensionsOutput.height := 100 |}
              {| info := image 200 100 (Some 200) (Some 100) None;
                 id_ := "https://iiif/frames/42/fits/hdus/1";
                 tiles := [ {| tile_width := 512; tile_height := Some 512;
                               scale_factors := map Z.of_nat (seq 1 19) |} ] |}
              (rect 0 0 100 50) (PyFloat.lit 2) _ _ _)) _);
    reflexivity.
Defined.

(** ** The square region *)

(** X4.  [square] is accepted on every image and is the square of the
    shorter side whose top-left corner is the centre of the image; it lies
    inside the image only when the shorter side is one pixel. *)
Theorem square_region_from_the_centre (info : ImageInfoResponse) :
  ImageInfoResponse_valid info ->
  exists r,
    normalize_region SquareRegion info = Ok r /\
    PixelRegion.x r = width info / 2 /\
    PixelRegion.y r = height info / 2 /\
    PixelRegion.w r = Z.min (width info) (height info) /\
    PixelRegion.h r = Z.min (width info) (height info) /\
    (PixelRegion.x r + PixelRegion.w r <= width info /\
     PixelRegion.y r + PixelRegion.h r <= height info <->
     Z.min (width info) (height info) = 1).
Proof.
  intros Hi. eexists. split; [apply normalize_region_Square; exact Hi|].
  simpl. repeat split; try reflexivity.
  - destruct Hi as (Hw & Hh & _). intros [Hx Hy].
    pose proof (Z.div_mod (width info) 2 ltac:(lia)).
    pose proof (Z.mod_pos_bound (width info) 2 ltac:(lia)).
    pose proof (Z.div_mod (height info) 2 ltac:(lia)).
    pose proof (Z.mod_pos_bound (height info) 2 ltac:(lia)).
    lia.
  - destruct Hi as (Hw & Hh & _).
    pose proof (Z.div_mod (width info) 2 ltac:(lia)).
    pose proof (Z.mod_pos_bound (width info) 2 ltac:(lia)).
    lia.
  - destruct Hi as (Hw & Hh & _).
    pose proof (Z.div_mod (height info) 2 ltac:(lia)).
    pose proof (Z.mod_pos_bound (height info) 2 ltac:(lia)).
    lia.
Qed.

Lemma square_region_from_the_centre_witness :
  exists r,
    normalize_region SquareRegion (image 100 50 None None None) = Ok r /\
    PixelRegion.x r = 100 / 2 /\
    PixelRegion.y r = 50 / 2 /\
    PixelRegion.w r = Z.min 100 50 /\
    PixelRegion.h r = Z.min 100 50 /\
    (PixelRegion.x r + PixelRegion.w r <= 100 /\
     PixelRegion.y r + PixelRegion.h r <= 50 <->
     Z.min 100 50 = 1).
Proof.
  apply (square_region_from_the_centre (image 100 50 None None None)).
  unfold ImageInfoResponse_valid; simpl. repeat split; discriminate.
Defined.

(** ** The generation saga: the runs that return *)

Lemma gather_execute_results {A X} (a : X -> activity A) (tq : option string)
  (l : list X) (W : World) :
  forall h h' rs,
    Wf.gather (map (fun x => Wf.execute_activity_method (a x) tq) l) W h =
      (h', rs) ->
    h' = h ++ map (fun x => Scheduled (a x) tq) l /\
    Forall2 (fun x r => exists hk, respond W A hk (a x) tq = r) l rs.
Proof.
  induction l as [|x l IH]; intros h h' rs; simpl.
  - intros E; injection E as <- <-. rewrite app_nil_r. auto.
  - destruct (Wf.gather _ W (h ++ [Scheduled (a x) tq])) as [h1 rs1] eqn:G.
    intros E; injection E as <- <-.
    apply IH in G. destruct G as [-> F]. rewrite <- app_assoc.
    split; [reflexivity|]. constructor; [eauto | exact F].
Qed.

Lemma results_Some {A} (rs : list (result A)) (l : list A) :
  Wf.results rs = Some l -> rs = map Ok l.
Proof.
  revert l. induction rs as [|[a|e] rs IH]; intros l; simpl.
  - intros E; injection E as <-. reflexivity.
  - destruct (Wf.results rs) as [l'|]; [|discriminate].
    intros E; injection E as <-. simpl. rewrite (IH l' eq_refl). reflexivity.
  - discriminate.
Qed.

Lemma join_Ok {A} (rs : list (result A)) (l : list A) :
  Wf.join rs = Ok l -> rs = map Ok l.
Proof.
  unfold Wf.join. destruct (Wf.results rs) as [l'|] eqn:E.
  - intros H; injection H as <-. apply results_Some. exact E.
  - destruct (existsb _ rs); discriminate.
Qed.

Lemma gather_answered {A X} (a : X -> activity A) (tq : option string)
  (l : list X) (W : World) :
  forall h h' ps,
    Wf.gather (map (fun x => Wf.execute_activity_method (a x) tq) l) W h =
      (h', map Ok ps) ->
    answered W a tq h l ps.
Proof.
  induction l as [|x l IH]; intros h h' ps; simpl.
  - destruct ps; [trivial | discriminate].
  - destruct (Wf.gather _ W (h ++ [Scheduled (a x) tq])) as [h1 rs1] eqn:G.
    destruct ps as [|p ps]; [discriminate|].
    simpl. intros E. injection E as -> Hp ->.
    split; [exact Hp | exact (IH _ _ _ G)].
Qed.

(** X5.  A run of the generation pipeline that returns has scheduled, in this
    order and with nothing between: the worker lookup, the download, the
    encoding, the start of the multipart upload under the key
    [generated/<sha256>], one part upload for each part number of the part
    count, the finalize step and the deletion of the local file; no abort is
    scheduled.  Every step works on what the step before answered: the queue
    of the file activities is the answer to the lookup, the encoded path the
    answer to the download, the hash of the key and the size behind the part
    count the answer to the encoding, the key and upload id of the parts and
    of the finalize step the answer to the start, the uploaded parts of the
    finalize input the answers to the part uploads in the order of the part
    numbers, and the returned key is the one the finalize step answered. *)
Theorem successful_generation (i : WorkflowsSchema.CreateImageInput.t)
  (W : World) (h h' : history) (out : WorkflowsSchema.CreateImageOutput.t) :
  CreateImage._run i W h = (h', Ok out) -> generated i W h h' out.
Proof.
  unfold generated, CreateImage._run.
  unfold Wf.bind at 1, Wf.execute_activity_method at 1.
  destruct (respond W _ h _ None) as [w|e] eqn:Hw; [|discriminate].
  unfold Wf.bind at 1, Wf.execute_activity_method at 1.
  match goal with
  | |- context [respond W ?T ?hh ?a ?tq] =>
      destruct (respond W T hh a tq) as [f|e] eqn:Hf; [|discriminate]
  end.
  cbv zeta.
  unfold Wf.bind at 1, Wf.execute_activity_method at 1.
  match goal with
  | |- context [respond W ?T ?hh (create_image_file ?a) ?tq] =>
      destruct (respond W T hh (create_image_file a) tq) as [img|e] eqn:Hi;
        [|discriminate]
  end.
  unfold Wf.bind at 1, CreateImage.upload, Wf.try_finally.
  unfold Wf.bind at 1, Wf.execute_activity_method at 1.
  match goal with
  | |- context [respond W ?T ?hh (start_s3_multipart_upload ?a) ?tq] =>
      destruct (respond W T hh (start_s3_multipart_upload a) tq) as [mp|e] eqn:Hs
  end.
  2: { unfold CreateImage.cleanup, Wf.execute_activity_method.
       match goal with
       | |- context [respond W unit ?hh ?a ?tq] =>
           destruct (respond W unit hh a tq); discriminate
       end. }
  unfold Wf.try_except_Exception, CreateImage.transfer.
  unfold Wf.bind at 1, Wf.lift.
  destruct (CreateImage.part_count _) as [count|e] eqn:Hc.
  2: { unfold CreateImage.compensate, CreateImage.cleanup, Wf.bind,
         Wf.execute_activity_method, Wf.raise.
       destruct (isinstance_Exception e);
         repeat match goal with
                | |- context [respond W unit ?hh ?a ?tq] =>
                    destruct (respond W unit hh a tq)
                end; discriminate. }
  unfold Wf.bind at 1, Wf.TaskGroup.
  match goal with
  | |- context [Wf.gather ?ts W ?hh] =>
      destruct (Wf.gather ts W hh) as [h3 rs] eqn:G
  end.
  pose proof (gather_execute_results
           (fun part_i => upload_s3_part (CreateImage.part_input img mp part_i))
           _ _ _ _ _ _ G) as [-> _].
  destruct (Wf.join rs) as [parts|e] eqn:J.
  2: { unfold CreateImage.compensate, CreateImage.cleanup, Wf.bind,
         Wf.execute_activity_method, Wf.raise.
       destruct (isinstance_Exception e);
         repeat match goal with
                | |- context [respond W unit ?hh ?a ?tq] =>
                    destruct (respond W unit hh a tq)
                end; discriminate. }
  apply join_Ok in J. subst rs.
  apply (gather_answered
           (fun part_i => upload_s3_part (CreateImage.part_input img mp part_i)))
    in G.
  unfold Wf.execute_activity_method at 1.
  match goal with
  | |- context [respond W ?T ?hh (finish_s3_multipart_upload ?a) ?tq] =>
      destruct (respond W T hh (finish_s3_multipart_upload a) tq) as [fin|e] eqn:Hfin
  end.
  2: { unfold CreateImage.compensate, CreateImage.cleanup, Wf.bind,
         Wf.execute_activity_method, Wf.raise.
       destruct (isinstance_Exception e);
         repeat match goal with
                | |- context [respond W unit ?hh ?a ?tq] =>
                    destruct (respond W unit hh a tq)
                end; discriminate. }
  unfold CreateImage.cleanup, Wf.execute_activity_method, Wf.ret.
  match goal with
  | |- context [respond W unit ?hh ?a ?tq] =>
      destruct (respond W unit hh a tq); [|discriminate]
  end.
  intros E; injection E as <- <-.
  exists w, f, img, mp, parts, fin, count. cbv zeta.
  rewrite <- !app_assoc in *. cbn [app] in *.
  split; [first [exact Hw | reflexivity]|].
  split; [first [exact Hf | reflexivity]|].
  split; [first [exact Hi | reflexivity]|].
  split; [first [exact Hs | reflexivity]|].
  split; [first [exact Hc | reflexivity]|].
  split; [exact G|].
  split; [first [exact Hfin | reflexivity]|].
  split; reflexivity.
Qed.

Lemma successful_generation_witness :
  generated Scenario.request Scenario.all_succeed []
    [Scenario.find; Scenario.download; Scenario.create; Scenario.start;
     Scenario.part 0; Scenario.part 1; Scenario.finish; Scenario.delete]
    {| WorkflowsSchema.CreateImageOutput.s3_object_key := "generated/ab12" |}.
Proof.
  apply (successful_generation Scenario.request Scenario.all_succeed []).
  vm_compute. reflexivity.
Defined.

(** ** Worker affinity *)

(** X6.  Both pipelines start with the worker lookup, on the workflow's own
    queue.  When the lookup fails nothing else is scheduled; when it answers
    the queue [q], every activity that works on the worker's files (download,
    HDU dimensions, encoding, part uploads, deletion) is scheduled on [q], and
    the object-store control steps (start, finalize, abort) on the workflow's
    own queue. *)
Theorem file_activities_follow_the_worker :
  (forall i W h, exists new,
     fst (CreateImage._run i W h) =
       h ++
       Scheduled
         (find_best_worker
            {| ActivitiesSchema.FindBestWorkerInput.frame_id :=
                 WorkflowsSchema.CreateImageInput.frame_id i |}) None :: new /\
     match respond W _ h
             (find_best_worker
                {| ActivitiesSchema.FindBestWorkerInput.frame_id :=
                     WorkflowsSchema.CreateImageInput.frame_id i |}) None with
     | Ok w =>
         Forall (on_queue (ActivitiesSchema.FindBestWorkerOutput.task_queue w)) new
     | Raise _ => new = []
     end) /\
  (forall i W h, exists new,
     fst (GetFrameDimensions._run i W h) =
       h ++
       Scheduled
         (find_best_worker
            {| ActivitiesSchema.FindBestWorkerInput.frame_id :=
                 WorkflowsSchema.GetFrameDimensionsInput.frame_id i |}) None :: new /\
     match respond W _ h
             (find_best_worker
                {| ActivitiesSchema.FindBestWorkerInput.frame_id :=
                     WorkflowsSchema.GetFrameDimensionsInput.frame_id i |}) None with
     | Ok w =>
         Forall (on_queue (ActivitiesSchema.FindBestWorkerOutput.task_queue w)) new
     | Raise _ => new = []
     end).
Proof.
  split; intros i W h.
  - unfold CreateImage._run.
    unfold Wf.bind at 1, Wf.execute_activity_method at 1.
    destruct (respond W _ h _ None) as [w|e].
    + match goal with
      | |- context [Wf.bind ?m ?k W ?hh] =>
          assert (Hk : appends
                         (on_queue (ActivitiesSchema.FindBestWorkerOutput.task_queue w))
                         (Wf.bind m k))
      end.
      { unfold CreateImage.upload, CreateImage.transfer, CreateImage.compensate,
          CreateImage.cleanup.
        repeat appends_step. }
      match goal with
      | |- context [Wf.bind ?m ?k W ?hh] =>
          destruct (Hk W hh) as [new [E F]]
      end.
      exists new. rewrite E, <- app_assoc. auto.
    + exists []. auto.
  - unfold GetFrameDimensions._run.
    unfold Wf.bind at 1, Wf.execute_activity_method at 1.
    destruct (respond W _ h _ None) as [w|e].
    + match goal with
      | |- context [Wf.bind ?m ?k W ?hh] =>
          assert (Hk : appends
                         (on_queue (ActivitiesSchema.FindBestWorkerOutput.task_queue w))
                         (Wf.bind m k))
      end.
      { repeat appends_step. }
      match goal with
      | |- context [Wf.bind ?m ?k W ?hh] =>
          destruct (Hk W hh) as [new [E F]]
      end.
      exists new. rewrite E, <- app_assoc. auto.
    + exists []. auto.
Qed.

(** ** The request body of a part upload *)

Lemma firstn_skipn_length {A} (n : nat) (l : list A) :
  firstn n l ++ skipn (List.length (firstn n l)) l = l.
Proof.
  revert n. induction l as [|a l IH]; intros [|n]; simpl; try reflexivity.
  rewrite IH. reflexivity.
Qed.

Lemma firstn_nil_inv {A} (n : nat) (l : list A) :
  (0 < n)%nat -> firstn n l = [] -> l = [].
Proof. destruct n, l; simpl; intros; (lia || congruence). Qed.

Lemma len_firstn {A} (k : Z) (l : list A) :
  0 <= k ->
  UploadS3Part.len (firstn (Z.to_nat k) l) = Z.min k (UploadS3Part.len l).
Proof. intros Hk. unfold UploadS3Part.len. rewrite length_firstn. lia. Qed.

Lemma len_skipn {A} (k : nat) (l : list A) :
  UploadS3Part.len (skipn k l) =
  Z.max 0 (UploadS3Part.len l - Z.of_nat k).
Proof. unfold UploadS3Part.len. rewrite length_skipn. lia. Qed.

Lemma skipn_advance {A} (pos : Z) (c l : list A) :
  0 <= pos ->
  skipn (Z.to_nat (pos + UploadS3Part.len c)) l =
  skipn (List.length c) (skipn (Z.to_nat pos) l).
Proof.
  intros Hp. rewrite skipn_skipn. f_equal. unfold UploadS3Part.len. lia.
Qed.

(** A read of [n > 0] bytes: some [k] of them, [1 <= k <= n], or what is
    left of the file. *)
Lemma read1_some (f : UploadS3Part.File) (pos n : Z) :
  0 < n ->
  exists k, 1 <= k <= n /\
    (n <= UploadS3Part.grant f pos n -> k = n) /\
    UploadS3Part.read1 f pos n =
    firstn (Z.to_nat k) (skipn (Z.to_nat pos) (UploadS3Part.content f)).
Proof.
  intros Hn. unfold UploadS3Part.read1.
  replace (n <? 0) with false by (symmetry; apply Z.ltb_ge; lia).
  exists (Z.min n (Z.max 1 (UploadS3Part.grant f pos n))).
  split; [lia|]. split; [lia | reflexivity].
Qed.

(** After a short read the loop ends only at the end of the file. *)
Lemma gen_loop_drains (f : UploadS3Part.File) (total : Z) (fuel : nat) :
  forall remaining pos,
    0 <= pos -> 0 < remaining < total ->
    UploadS3Part.len (skipn (Z.to_nat pos) (UploadS3Part.content f))
      < Z.of_nat fuel ->
    exists chunks,
      UploadS3Part.gen_loop fuel f total remaining pos = Some chunks /\
      List.concat chunks = skipn (Z.to_nat pos) (UploadS3Part.content f).
Proof.
  induction fuel as [|fuel IH]; intros remaining pos Hp Hr Hf.
  - unfold UploadS3Part.len in Hf. lia.
  - simpl UploadS3Part.gen_loop.
    replace (remaining =? 0) with false by (symmetry; apply Z.eqb_neq; lia).
    destruct (read1_some f pos remaining ltac:(lia)) as (k & Hk & _ & ->).
    set (rest := skipn (Z.to_nat pos) (UploadS3Part.content f)) in *.
    destruct (UploadS3Part.len (firstn (Z.to_nat k) rest) =? 0) eqn:E.
    + exists []. split; [reflexivity|].
      apply Z.eqb_eq in E. unfold UploadS3Part.len in E.
      symmetry. apply (firstn_nil_inv (Z.to_nat k)); [lia|].
      apply length_zero_iff_nil. lia.
    + apply Z.eqb_neq in E.
      pose proof (len_firstn k rest ltac:(lia)) as L.
      assert (L0 : 0 <= UploadS3Part.len rest)
        by (unfold UploadS3Part.len; lia).
      destruct (IH (total - UploadS3Part.len (firstn (Z.to_nat k) rest))
                  (pos + UploadS3Part.len (firstn (Z.to_nat k) rest)))
        as (chunks & -> & C).
      * lia.
      * lia.
      * rewrite skipn_advance by lia. fold rest. rewrite len_skipn.
        unfold UploadS3Part.len in *. lia.
      * eexists. split; [reflexivity|]. simpl. rewrite C.
        rewrite skipn_advance by lia. fold rest.
        apply firstn_skipn_length.
Qed.

Lemma body_of_gen_loop (f : UploadS3Part.File)
  (i : ActivitiesSchema.UploadS3PartInput.t) (fuel : nat) :
  let off := ActivitiesSchema.UploadS3PartInput.file_offset i in
  let P := ActivitiesSchema.UploadS3PartInput.part_size i in
  0 <= off -> 1 <= P ->
  UploadS3Part.len (UploadS3Part.content f) < Z.of_nat fuel ->
  UploadS3Part.body fuel f i =
  Some (Ok (if UploadS3Part.len (UploadS3Part.read1 f off P) =? P
            then UploadS3Part.slice (UploadS3Part.content f) off P
            else skipn (Z.to_nat off) (UploadS3Part.content f))).
Proof.
  intros off P Hoff HP Hf.
  unfold UploadS3Part.body, UploadS3Part.gen. fold off P.
  replace (off <? 0) with false by (symmetry; apply Z.ltb_ge; lia).
  destruct fuel as [|fuel]; [unfold UploadS3Part.len in Hf; lia|].
  simpl UploadS3Part.gen_loop.
  replace (P =? 0) with false by (symmetry; apply Z.eqb_neq; lia).
  destruct (read1_some f off P ltac:(lia)) as (k & Hk & _ & ->).
  unfold UploadS3Part.slice.
  set (rest := skipn (Z.to_nat off) (UploadS3Part.content f)) in *.
  pose proof (len_firstn k rest ltac:(lia)) as L.
  assert (L0 : 0 <= UploadS3Part.len rest) by (unfold UploadS3Part.len; lia).
  assert (L1 : UploadS3Part.len rest <= UploadS3Part.len (UploadS3Part.content f))
    by (unfold rest; rewrite len_skipn; unfold UploadS3Part.len; lia).
  destruct (UploadS3Part.len (firstn (Z.to_nat k) rest) =? 0) eqn:E0.
  - apply Z.eqb_eq in E0.
    replace (UploadS3Part.len (firstn (Z.to_nat k) rest) =? P) with false
      by (symmetry; apply Z.eqb_neq; lia).
    simpl. do 2 f_equal. symmetry.
    apply (firstn_nil_inv (Z.to_nat k)); [lia|].
    apply length_zero_iff_nil. unfold UploadS3Part.len in E0. lia.
  - apply Z.eqb_neq in E0.
    destruct (UploadS3Part.len (firstn (Z.to_nat k) rest) =? P) eqn:EP.
    + apply Z.eqb_eq in EP. rewrite EP, Z.sub_diag.
      assert (k = P) by lia. subst k.
      destruct fuel; simpl; rewrite app_nil_r; reflexivity.
    + apply Z.eqb_neq in EP.
      destruct (gen_loop_drains f P fuel
                  (P - UploadS3Part.len (firstn (Z.to_nat k) rest))
                  (off + UploadS3Part.len (firstn (Z.to_nat k) rest)))
        as (chunks & -> & C).
      * lia.
      * lia.
      * rewrite skipn_advance by lia. fold rest. rewrite len_skipn.
        unfold UploadS3Part.len in *. lia.
      * simpl. rewrite C. rewrite skipn_advance by lia. fold rest.
        rewrite firstn_skipn_length. reflexivity.
Qed.

(** X7.  The generator of [upload_s3_part] ends (after at most one
    iteration per byte of the file, and one more), and the body it streams
    is: the first read when that read has the length of a part; the whole
    rest of the file from the offset otherwise, because [remaining] is
    computed from the last chunk alone.  So a first read that is short of the
    part, in a part that is not the last, sends more bytes than the
    [content-length] header declares. *)
Theorem streamed_body (f : UploadS3Part.File)
  (i : ActivitiesSchema.UploadS3PartInput.t) (fuel : nat) :
  let off := ActivitiesSchema.UploadS3PartInput.file_offset i in
  let P := ActivitiesSchema.UploadS3PartInput.part_size i in
  let S := ActivitiesSchema.UploadS3PartInput.file_size i in
  0 <= off -> 1 <= P -> S = UploadS3Part.len (UploadS3Part.content f) ->
  S < Z.of_nat fuel ->
  exists b,
    UploadS3Part.body fuel f i = Some (Ok b) /\
    b = (if UploadS3Part.len (UploadS3Part.read1 f off P) =? P
         then UploadS3Part.slice (UploadS3Part.content f) off P
         else skipn (Z.to_nat off) (UploadS3Part.content f)) /\
    (UploadS3Part.len (UploadS3Part.read1 f off P) < P -> off + P < S ->
     UploadS3Part.len b = S - off /\
     Activities.content_length i < UploadS3Part.len b).
Proof.
  intros off P S Hoff HP HS Hf.
  eexists. split; [apply body_of_gen_loop; fold off P; lia|].
  fold off P. split; [reflexivity|].
  intros Hshort Hmore.
  replace (UploadS3Part.len (UploadS3Part.read1 f off P) =? P) with false
    by (symmetry; apply Z.eqb_neq; lia).
  rewrite len_skipn. unfold Activities.content_length. fold off P S.
  replace (off + P >? S) with false by (symmetry; apply gtb_false; lia).
  lia.
Qed.

Lemma streamed_body_witness :
  exists b,
    UploadS3Part.body 4
      {| UploadS3Part.content := [Byte.x01; Byte.x02; Byte.x03];
         UploadS3Part.grant := fun _ _ => 1 |}
      {| ActivitiesSchema.UploadS3PartInput.file_path := "/work/generated/tmp1.webp";
         ActivitiesSchema.UploadS3PartInput.file_size := 3;
         ActivitiesSchema.UploadS3PartInput.file_offset := 0;
         ActivitiesSchema.UploadS3PartInput.part_size := 2;
         ActivitiesSchema.UploadS3PartInput.object_key := "generated/ab12";
         ActivitiesSchema.UploadS3PartInput.upload_id := "upload-1";
         ActivitiesSchema.UploadS3PartInput.part_number := 1 |}
      = Some (Ok b) /\
    b = [Byte.x01; Byte.x02; Byte.x03] /\
    (1 < 2 -> 0 + 2 < 3 -> UploadS3Part.len b = 3 - 0 /\ 2 < UploadS3Part.len b).
Proof.
  apply (streamed_body
           {| UploadS3Part.content := [Byte.x01; Byte.x02; Byte.x03];
              UploadS3Part.grant := fun _ _ => 1 |}
           {| ActivitiesSchema.UploadS3PartInput.file_path := "/work/generated/tmp1.webp";
              ActivitiesSchema.UploadS3PartInput.file_size := 3;
              ActivitiesSchema.UploadS3PartInput.file_offset := 0;
              ActivitiesSchema.UploadS3PartInput.part_size := 2;
              ActivitiesSchema.UploadS3PartInput.object_key := "generated/ab12";
              ActivitiesSchema.UploadS3PartInput.upload_id := "upload-1";
              ActivitiesSchema.UploadS3PartInput.part_number := 1 |} 4%nat);
    simpl; try reflexivity; lia.
Defined.

Lemma full_read (f : UploadS3Part.File) (off P : Z) :
  UploadS3Part.full_reads f -> 1 <= P ->
  UploadS3Part.read1 f off P = UploadS3Part.slice (UploadS3Part.content f) off P.
Proof.
  intros Hfull HP.
  destruct (read1_some f off P ltac:(lia)) as (k & Hk & Hg & ->).
  rewrite (Hg (Hfull off P)). reflexivity.
Qed.

Lemma concat_slices {A} (p n : nat) :
  forall l : list A,
    (List.length l <= n * p)%nat ->
    List.concat (map (fun k => firstn p (skipn (p * k) l)) (seq 0 n)) = l.
Proof.
  induction n as [|n IH]; intros l Hl.
  - simpl in *. destruct l; simpl in *; [reflexivity | lia].
  - change (seq 0 (S n)) with (0%nat :: seq 1 n).
    rewrite <- seq_shift. cbn [map List.concat]. rewrite map_map.
    rewrite Nat.mul_0_r. cbn [skipn].
    transitivity (firstn p l ++ skipn p l); [|apply firstn_skipn].
    f_equal.
    rewrite <- (IH (skipn p l)) by (rewrite length_skipn; lia).
    apply f_equal. apply map_ext. intros k. rewrite skipn_skipn.
    do 2 f_equal. lia.
Qed.

Lemma full_reads_body (f : UploadS3Part.File)
  (i : ActivitiesSchema.UploadS3PartInput.t) (fuel : nat) :
  let off := ActivitiesSchema.UploadS3PartInput.file_offset i in
  let P := ActivitiesSchema.UploadS3PartInput.part_size i in
  let S := ActivitiesSchema.UploadS3PartInput.file_size i in
  UploadS3Part.full_reads f ->
  S = UploadS3Part.len (UploadS3Part.content f) ->
  S < Z.of_nat fuel -> 1 <= P -> 0 <= off <= S ->
  UploadS3Part.body fuel f i
    = Some (Ok (UploadS3Part.slice (UploadS3Part.content f) off P)) /\
  UploadS3Part.len (UploadS3Part.slice (UploadS3Part.content f) off P) =
    Activities.content_length i.
Proof.
  intros off P S Hfull HS Hf HP Hk.
  split.
  - rewrite body_of_gen_loop; fold off P; try lia.
    rewrite (full_read f _ _ Hfull) by lia.
    destruct (_ =? P) eqn:EP; [reflexivity|].
    apply Z.eqb_neq in EP. unfold UploadS3Part.slice in *.
    rewrite len_firstn in EP by lia.
    rewrite firstn_all2; [reflexivity|].
    unfold UploadS3Part.len in EP. lia.
  - unfold UploadS3Part.slice, Activities.content_length. fold off P S.
    rewrite len_firstn, len_skipn by lia. rewrite <- HS.
    rewrite Z2Nat.id by lia.
    destruct (off + P >? S) eqn:C;
      rewrite Z.gtb_ltb in C;
      [apply Z.ltb_lt in C | apply Z.ltb_ge in C]; lia.
Qed.

(** X8.  When every read yields what it is asked for, the body of each part
    is the slice of the file at the part's offset, as long as the declared
    content length, and the bodies of the parts that the workflow uploads,
    in the order of the part numbers, make up the file (file sizes below
    2^53). *)
Theorem parts_make_up_the_file (f : UploadS3Part.File)
  (img : ActivitiesSchema.CreateImageFileOutput.t)
  (mp : ActivitiesSchema.StartS3MultipartUploadOutput.t) (fuel : nat) :
  let S := ActivitiesSchema.CreateImageFileOutput.file_size img in
  UploadS3Part.full_reads f ->
  S = UploadS3Part.len (UploadS3Part.content f) ->
  S < 2 ^ 53 -> S < Z.of_nat fuel ->
  exists count bodies,
    CreateImage.part_count S = Ok count /\
    Forall2
      (fun part_i b =>
         UploadS3Part.body fuel f (CreateImage.part_input img mp part_i)
           = Some (Ok b) /\
         b = UploadS3Part.slice (UploadS3Part.content f)
               (CreateImage.part_size * part_i) CreateImage.part_size /\
         UploadS3Part.len b =
           Activities.content_length (CreateImage.part_input img mp part_i))
      (range count) bodies /\
    List.concat bodies = UploadS3Part.content f.
Proof.
  intros S Hfull HS H53 Hf.
  assert (S0 : 0 <= S) by (rewrite HS; unfold UploadS3Part.len; lia).
  pose proof (ceil_div_bounds S CreateImage.part_size ltac:(reflexivity)) as B.
  set (count := ceil_div S CreateImage.part_size) in *.
  set (P := CreateImage.part_size) in *.
  assert (HP : P = 5242880) by reflexivity.
  exists count,
    (map (fun part_i => UploadS3Part.slice (UploadS3Part.content f)
                          (P * part_i) P) (range count)).
  split; [apply part_count_exact; lia|]. split.
  - unfold range. rewrite map_map.
    assert (G : forall l : list nat,
              Forall (fun k => (k < Z.to_nat count)%nat) l ->
              Forall2
                (fun part_i b =>
                   UploadS3Part.body fuel f (CreateImage.part_input img mp part_i)
                     = Some (Ok b) /\
                   b = UploadS3Part.slice (UploadS3Part.content f) (P * part_i) P /\
                   UploadS3Part.len b =
                     Activities.content_length
                       (CreateImage.part_input img mp part_i))
                (map Z.of_nat l)
                (map (fun x => UploadS3Part.slice (UploadS3Part.content f)
                                 (P * Z.of_nat x) P) l)).
    { induction 1 as [|k l Hk _ IH]; simpl; constructor; [|exact IH].
      assert (Hk' : Z.of_nat k <= count - 1) by lia.
      assert (Hle : P * Z.of_nat k <= (count - 1) * P) by nia.
      assert (Hge : 0 <= P * Z.of_nat k) by nia.
      destruct (full_reads_body f (CreateImage.part_input img mp (Z.of_nat k))
                  fuel Hfull HS Hf)
        as [E L];
        [ change (1 <= P); lia
        | change (0 <= P * Z.of_nat k <= S); lia |].
      split; [exact E|]. split; [reflexivity | exact L]. }
    apply G. apply Forall_forall. intros k Hk. apply in_seq in Hk. lia.
  - unfold range. rewrite map_map. unfold UploadS3Part.slice.
    etransitivity;
      [|apply (concat_slices (Z.to_nat P) (Z.to_nat count));
        unfold UploadS3Part.len in HS; nia].
    f_equal. apply map_ext. intros k. do 2 f_equal. nia.
Qed.

Lemma parts_make_up_the_file_witness :
  exists count bodies,
    CreateImage.part_count 3 = Ok count /\
    Forall2
      (fun part_i b =>
         UploadS3Part.body 4
           {| UploadS3Part.content := [Byte.x01; Byte.x02; Byte.x03];
              UploadS3Part.grant := fun _ n => n |}
           (CreateImage.part_input
              {| ActivitiesSchema.CreateImageFileOutput.file_path := "/work/generated/tmp1.webp";
                 ActivitiesSchema.CreateImageFileOutput.sha256 := "ab12";
                 ActivitiesSchema.CreateImageFileOutput.file_size := 3 |}
              Scenario.mp_upload part_i)
           = Some (Ok b) /\
         b = UploadS3Part.slice [Byte.x01; Byte.x02; Byte.x03]
               (CreateImage.part_size * part_i) CreateImage.part_size /\
         UploadS3Part.len b =
           Activities.content_length
             (CreateImage.part_input
                {| ActivitiesSchema.CreateImageFileOutput.file_path := "/work/generated/tmp1.webp";
                   ActivitiesSchema.CreateImageFileOutput.sha256 := "ab12";
                   ActivitiesSchema.CreateImageFileOutput.file_size := 3 |}
                Scenario.mp_upload part_i))
      (range count) bodies /\
    List.concat bodies = [Byte.x01; Byte.x02; Byte.x03].
Proof.
  apply (parts_make_up_the_file
           {| UploadS3Part.content := [Byte.x01; Byte.x02; Byte.x03];
              UploadS3Part.grant := fun _ n => n |}
           {| ActivitiesSchema.CreateImageFileOutput.file_path := "/work/generated/tmp1.webp";
              ActivitiesSchema.CreateImageFileOutput.sha256 := "ab12";
              ActivitiesSchema.CreateImageFileOutput.file_size := 3 |}
           Scenario.mp_upload 4%nat).
  - intros pos n. simpl. lia.
  - reflexivity.
  - reflexivity.
  - reflexivity.
Defined.

(** ** The handlers: what reaches the workflow engine *)

Section Sends.
Variable P : Api.request -> Prop.

Lemma sends_ret {A} (a : A) : Api.sends P (Api.ret a).
Proof. intros S l. exists []. simpl. rewrite app_nil_r. auto. Qed.

Lemma sends_raise {A} (e : exn) : Api.sends P (@Api.raise A e).
Proof. intros S l. exists []. simpl. rewrite app_nil_r. auto. Qed.

Lemma sends_lift {A} (r : result A) : Api.sends P (Api.lift r).
Proof. intros S l. exists []. simpl. rewrite app_nil_r. auto. Qed.

Lemma sends_await {A} (c : Api.call A) :
  P (Api.Called c) -> Api.sends P (Api.await c).
Proof. intros Hp S l. exists [Api.Called c]. simpl. auto. Qed.

Lemma sends_bind {A B} (m : Api.handler A) (k : A -> Api.handler B) :
  Api.sends P m ->
  (forall a, (exists S l l', m S l = (l', Ok a)) -> Api.sends P (k a)) ->
  Api.sends P (Api.bind m k).
Proof.
  intros Hm Hk S l. destruct (Hm S l) as [n1 [E1 F1]].
  unfold Api.bind. destruct (m S l) as [l' [a|e]] eqn:Em; simpl in E1; subst l'.
  - destruct (Hk a (ex_intro _ S (ex_intro _ l (ex_intro _ _ Em))) S (l ++ n1))
      as [n2 [E2 F2]].
    exists (n1 ++ n2). rewrite E2, app_assoc.
    split; [reflexivity | apply Forall_app; auto].
  - exists n1. auto.
Qed.

Lemma sends_try_except {A} (caught : exn -> bool) (body : Api.handler A)
  (handle : exn -> Api.handler A) :
  Api.sends P body -> (forall e, Api.sends P (handle e)) ->
  Api.sends P (Api.try_except caught body handle).
Proof.
  intros Hb Hh S l. destruct (Hb S l) as [n1 [E1 F1]].
  unfold Api.try_except.
  destruct (body S l) as [l' [a|e]]; simpl in E1; subst l'.
  - exists n1. auto.
  - destruct (caught e).
    + destruct (Hh e S (l ++ n1)) as [n2 [E2 F2]].
      exists (n1 ++ n2). rewrite E2, app_assoc.
      split; [reflexivity | apply Forall_app; auto].
    + exists n1. auto.
Qed.
End Sends.

Lemma lift_Ok_inv {A} (r : result A) (a : A) :
  (exists S l l', Api.lift r S l = (l', Ok a)) -> r = Ok a.
Proof. intros (S & l & l' & E). unfold Api.lift in E. congruence. Qed.

Lemma image_information_Ok url dimensions doc :
  image_information url dimensions = Ok doc ->
  ImageInfoResponse_valid (info doc) /\
  width (info doc) = WorkflowsSchema.GetFrameDimensionsOutput.width dimensions /\
  height (info doc) = WorkflowsSchema.GetFrameDimensionsOutput.height dimensions /\
  max_width (info doc) = Some (width (info doc)) /\
  max_height (info doc) = Some (height (info doc)) /\
  max_area (info doc) = None.
Proof.
  unfold image_information.
  destruct ((1 <=? _) && (1 <=? _)) eqn:E; [|discriminate].
  intros H; injection H as <-.
  apply andb_prop in E. destruct E as [E1 E2].
  apply Z.leb_le in E1. apply Z.leb_le in E2.
  unfold ImageInfoResponse_valid; simpl. repeat split; auto.
Qed.

Lemma normalize_region_Ok_valid org info r :
  Region_valid org -> normalize_region org info = Ok r -> PixelRegion.valid r.
Proof.
  intros Hv H. unfold normalize_region in H.
  apply bind_Ok_inv in H. destruct H as [norm [Hn H]].
  destruct (_ || _); [discriminate|]. injection H as <-.
  eapply region_norm_valid; eassumption.
Qed.

Lemma sends_get_frame_dimensions P frame_id hdu_index reuse force recheck :
  (forall id t,
     P (Api.Called
          (Api.GetFrameDimensions_execute
             {| WorkflowsSchema.GetFrameDimensionsInput.frame_id := frame_id;
                WorkflowsSchema.GetFrameDimensionsInput.hdu_index := hdu_index;
                WorkflowsSchema.GetFrameDimensionsInput.force_download := force;
                WorkflowsSchema.GetFrameDimensionsInput.recheck_version := recheck |}
             id "generic" (Api.id_reuse_policy reuse) t))) ->
  (forall id, P (Api.Called (Api.GetFrameDimensions_result id))) ->
  Api.sends P (Api.get_frame_dimensions frame_id hdu_index reuse force recheck).
Proof.
  intros He Hr. unfold Api.get_frame_dimensions.
  apply sends_try_except.
  - destruct (negb reuse); [apply sends_raise | apply sends_await; apply Hr].
  - intros _. apply sends_try_except.
    + apply sends_await. apply He.
    + intros _. apply sends_await. apply Hr.
Qed.

(** X9.  Whatever the services answer, the only workflows [get_image] asks
    for are: the dimension workflow of the frame and HDU, never forced and
    never rechecked; and the generation workflow for the frame, HDU and
    format of the request, on the [generic] queue under the reuse policy of
    the request, with a rectangle of non-negative origin and at least one
    pixel each way, and a size of at least one pixel and no more than the
    rectangle's. *)
Theorem get_image_asks_for_valid_generations (frame_id : string)
  (hdu_index : Z) (region : Region) (size : Size)
  (rotation quality fmt bucket req_url : string) (reuse_workflow : bool) :
  Region_valid region -> Size_valid size ->
  Api.sends (Api.well_formed_request frame_id hdu_index fmt reuse_workflow)
    (Api.get_image frame_id hdu_index region size rotation quality fmt bucket
       req_url reuse_workflow).
Proof.
  intros Hr Hs. unfold Api.get_image, Api.get_image_information.
  apply sends_bind.
  { apply sends_bind.
    - apply sends_get_frame_dimensions; intros; simpl; auto 10.
    - intros d _. apply sends_lift. }
  intros doc _.
  apply sends_bind; [apply sends_lift|]. intros nr Hnr.
  apply lift_Ok_inv in Hnr.
  apply sends_bind; [apply sends_lift|]. intros ns Hns.
  apply lift_Ok_inv in Hns.
  apply (normalize_region_Ok_valid _ _ _ Hr) in Hnr.
  apply PixelRegion_valid_bounds in Hnr.
  pose proof (normalize_size_Ok_positive _ _ _ _ Hs Hns) as Hpos.
  apply normalize_size_Ok_checked, size_checks_Ok in Hns.
  apply sends_bind.
  { apply sends_try_except.
    - apply sends_await. simpl. repeat split; tauto || lia.
    - intros _. apply sends_await. exact I. }
  intros r _. apply sends_bind; [apply sends_await; exact I|].
  intros u _. apply sends_ret.
Qed.

Lemma get_image_asks_for_valid_generations_witness :
  Api.sends (Api.well_formed_request "42" 1 "webp" true)
    (Api.get_image "42" 1 FullRegion (MaxSize false) "0" "default" "webp"
       "images" "https://iiif/frames/42/fits/hdus/1/full/max/0/default.webp"
       true).
Proof.
  apply (get_image_asks_for_valid_generations "42" 1 FullRegion (MaxSize false)
           "0" "default" "webp" "images"
           "https://iiif/frames/42/fits/hdus/1/full/max/0/default.webp" true);
    exact I.
Defined.

(** X10.  A request that normalization refuses starts no generation: once
    the dimensions are known, a region or a size that [normalize_region] or
    [normalize_size] refuses ends [get_image] with that very error, and the
    only call made is the one that read the dimensions.  The dimensions are
    read from the stored result of the dimension workflow whatever
    [reuse_workflow] says. *)
Theorem refused_request_starts_nothing (frame_id : string) (hdu_index : Z)
  (region : Region) (size : Size)
  (rotation quality fmt bucket req_url : string) (reuse_workflow : bool)
  (S : Api.Services) (l : Api.log)
  (dimensions : WorkflowsSchema.GetFrameDimensionsOutput.t)
  (doc : ImageInfoDocument) (e : exn) :
  let lookup :=
    Api.GetFrameDimensions_result
      ("GetFrameDimensions:frames/" ++ frame_id ++ "/fits/hdus/" ++ str hdu_index) in
  Api.answer S _ l lookup = Ok dimensions ->
  image_information req_url dimensions = Ok doc ->
  (region_norm <- normalize_region region (info doc) ;;
   normalize_size size region_norm (info doc)) = Raise e ->
  Api.get_image frame_id hdu_index region size rotation quality fmt bucket
    req_url reuse_workflow S l
  = (l ++ [Api.Called lookup], Raise e).
Proof.
  intros lookup Ha Hd Hn.
  unfold Api.get_image, Api.get_image_information, Api.get_frame_dimensions.
  unfold Api.bind at 1. unfold Api.bind at 1.
  unfold Api.try_except at 1. change (negb true) with false. cbv iota.
  unfold Api.await at 1. cbv beta. unfold lookup in Ha. rewrite Ha.
  unfold Api.lift at 1. rewrite Hd.
  unfold Api.bind at 1, Api.lift at 1.
  destruct (normalize_region region (info doc)) as [nr|e1].
  - simpl in Hn. unfold Api.bind at 1, Api.lift at 1. rewrite Hn. reflexivity.
  - simpl in Hn. injection Hn as ->. reflexivity.
Qed.

Lemma refused_request_starts_nothing_witness :
  Api.get_image "42" 1 FullRegion (MaxSize true) "0" "default" "webp" "images"
    "https://iiif/frames/42/fits/hdus/1/full/^max/0/default.webp" false
    {| Api.answer := fun A _ c =>
         match c in Api.call T return result T with
         | Api.GetFrameDimensions_result _ =>
             Ok {| WorkflowsSchema.GetFrameDimensionsOutput.width := 200;
                   WorkflowsSchema.GetFrameDimensionsOutput.height := 100 |}
         | _ => Raise (OtherException "RPCError")
         end |} []
  = ([] ++ [Api.Called (Api.GetFrameDimensions_result
                          "GetFrameDimensions:frames/42/fits/hdus/1")],
     Raise upscaling_unsupported).
Proof.
  apply (refused_request_starts_nothing "42" 1 FullRegion (MaxSize true)
           "0" "default" "webp" "images"
           "https://iiif/frames/42/fits/hdus/1/full/^max/0/default.webp" false
           _ []
           {| WorkflowsSchema.GetFrameDimensionsOutput.width := 200;
              WorkflowsSchema.GetFrameDimensionsOutput.height := 100 |}
           {| info := image 200 100 (Some 200) (Some 100) None;
              id_ := "https://iiif/frames/42/fits/hdus/1/full/^max/0/default.webp";
              tiles := [ {| tile_width := 512; tile_height := Some 512;
                            scale_factors := map Z.of_nat (seq 1 19) |} ] |});
    reflexivity.
Defined.

(** X11.  [get_frame_dimensions] with [reuse_workflow]: a stored result of
    the dimension workflow is returned as it is, with that one call and for
    every value of [force_download] and [recheck_version].  Without
    [reuse_workflow] the stored result is not asked for first: the first call
    executes the workflow, with the two flags of the request and under the
    policy that allows a duplicate; only when that execution is refused
    because the workflow is running already is the result of the running
    workflow awaited. *)
Theorem stored_dimensions_take_precedence (frame_id : string) (hdu_index : Z)
  (force_download recheck_version : bool) (S : Api.Services) (l : Api.log) :
  let id :=
    ("GetFrameDimensions:frames/" ++ frame_id ++ "/fits/hdus/" ++ str hdu_index)%string in
  let execute :=
    Api.GetFrameDimensions_execute
      {| WorkflowsSchema.GetFrameDimensionsInput.frame_id := frame_id;
         WorkflowsSchema.GetFrameDimensionsInput.hdu_index := hdu_index;
         WorkflowsSchema.GetFrameDimensionsInput.force_download := force_download;
         WorkflowsSchema.GetFrameDimensionsInput.recheck_version := recheck_version |}
      id "generic" Api.ALLOW_DUPLICATE 3600 in
  (forall d,
     Api.answer S _ l (Api.GetFrameDimensions_result id) = Ok d ->
     Api.get_frame_dimensions frame_id hdu_index true force_download
       recheck_version S l
     = (l ++ [Api.Called (Api.GetFrameDimensions_result id)], Ok d)) /\
  Api.get_frame_dimensions frame_id hdu_index false force_download
    recheck_version S l
  = match Api.answer S _ l execute with
    | Ok d => (l ++ [Api.Called execute], Ok d)
    | Raise e =>
        if Api.is_WorkflowAlreadyStartedError e
        then (l ++ [Api.Called execute;
                    Api.Called (Api.GetFrameDimensions_result id)],
              Api.answer S _ (l ++ [Api.Called execute])
                (Api.GetFrameDimensions_result id))
        else (l ++ [Api.Called execute], Raise e)
    end.
Proof.
  intros id execute. split.
  - intros d Hd. unfold Api.get_frame_dimensions, Api.try_except.
    change (negb true) with false. cbv iota.
    unfold Api.await at 1. cbv beta. unfold id in Hd. rewrite Hd. reflexivity.
  - unfold Api.get_frame_dimensions, Api.try_except, Api.raise, Api.await.
    change (negb false) with true. cbv beta iota.
    change (isinstance_Exception (OtherException "Exception")) with true.
    cbv beta iota. unfold execute, id.
    change (Api.id_reuse_policy false) with Api.ALLOW_DUPLICATE.
    match goal with
    | |- context [Api.answer S ?T l ?c] =>
        destruct (Api.answer S T l c) as [d|e]; [reflexivity|]
    end.
    destruct (Api.is_WorkflowAlreadyStartedError e); [|reflexivity].
    rewrite <- app_assoc. reflexivity.
Qed.

Lemma stored_dimensions_take_precedence_witness :
  Api.get_frame_dimensions "42" 1 true true true
    {| Api.answer := fun A _ c =>
         match c in Api.call T return result T with
         | Api.GetFrameDimensions_result _ =>
             Ok {| WorkflowsSchema.GetFrameDimensionsOutput.width := 200;
                   WorkflowsSchema.GetFrameDimensionsOutput.height := 100 |}
         | _ => Raise (OtherException "RPCError")
         end |} []
  = ([] ++ [Api.Called (Api.GetFrameDimensions_result
                          "GetFrameDimensions:frames/42/fits/hdus/1")],
     Ok {| WorkflowsSchema.GetFrameDimensionsOutput.width := 200;
           WorkflowsSchema.GetFrameDimensionsOutput.height := 100 |}).
Proof.
  apply (proj1 (stored_dimensions_take_precedence "42" 1 true true _ [])).
  reflexivity.
Defined.

(** ** The id of the generation workflow *)

Lemma PixelRegion_str_cut (r r' : PixelRegion.t) (t t' : string) :
  (Api.PixelRegion_str r ++ String "/" t)%string =
  (Api.PixelRegion_str r' ++ String "/" t')%string ->
  r = r' /\ t = t'.
Proof.
  unfold Api.PixelRegion_str. rewrite !string_app_assoc. intros H.
  change (","%string) with (String "," EmptyString) in H.
  repeat (cbn [append] in H; rewrite ?string_app_assoc in H;
          apply cut_number in H; [|reflexivity];
          let E := fresh "E" in destruct H as [E H]).
  destruct r, r'; simpl in *. subst. auto.
Qed.

Lemma up_str_free_of (u : bool) (n : Z) :
  free_of "," ((if u then "^" else "") ++ str n) = true.
Proof.
  rewrite free_of_app, str_free_of by reflexivity. destruct u; reflexivity.
Qed.

Lemma up_str_inj (u u' : bool) (n n' : Z) :
  ((if u then "^" else "") ++ str n)%string =
  ((if u' then "^" else "") ++ str n')%string ->
  u = u' /\ n = n'.
Proof.
  assert (F : forall m, free_of "^" (str m) = true)
    by (intros m; apply str_free_of; reflexivity).
  destruct u, u'; simpl; intros H.
  - injection H as H. split; [reflexivity | apply str_inj; exact H].
  - pose proof (F n') as G. rewrite <- H in G. discriminate.
  - pose proof (F n) as G. rewrite H in G. discriminate.
  - split; [reflexivity | apply str_inj; exact H].
Qed.

Lemma PixelSize_str_cut (s s' : PixelSize.t) (t t' : string) :
  (Api.PixelSize_str s ++ String "/" t)%string =
  (Api.PixelSize_str s' ++ String "/" t')%string ->
  s = s' /\ t = t'.
Proof.
  unfold Api.PixelSize_str. cbv zeta.
  change (","%string) with (String "," EmptyString).
  intros H.
  assert (R : forall up w h t : string,
             ((up ++ w ++ String "," EmptyString ++ h) ++ String "/" t)%string =
             ((up ++ w) ++ String "," (h ++ String "/" t))%string).
  { intros. rewrite !string_app_assoc. reflexivity. }
  rewrite !R in H.
  apply cut_at_delimiter in H; try apply up_str_free_of.
  destruct H as [Hw H]. apply up_str_inj in Hw. destruct Hw as [Hu Hw].
  apply cut_number in H; [|reflexivity]. destruct H as [Hh ->].
  destruct s, s'; simpl in *. subst. auto.
Qed.

(** X12.  The id under which [get_image] runs the generation workflow tells
    requests apart: for frame ids without a slash (a path segment has none)
    and the same rotation and quality, two ids are equal only when the frame,
    the HDU, the normalized rectangle, the normalized size and the format
    are. *)
Theorem generation_id_tells_requests_apart (frame_id frame_id' : string)
  (hdu_index hdu_index' : Z) (norm_region norm_region' : PixelRegion.t)
  (norm_size norm_size' : PixelSize.t)
  (rotation quality fmt fmt' : string) :
  free_of "/" frame_id = true -> free_of "/" frame_id' = true ->
  Api.CreateImage_id frame_id hdu_index norm_region norm_size
    rotation quality fmt =
  Api.CreateImage_id frame_id' hdu_index' norm_region' norm_size'
    rotation quality fmt' ->
  frame_id = frame_id' /\ hdu_index = hdu_index' /\
  norm_region = norm_region' /\ norm_size = norm_size' /\ fmt = fmt'.
Proof.
  intros Hf Hf' H. unfold Api.CreateImage_id in H.
  apply (append_inv_head "CreateImage:") in H.
  change ("/"%string) with (String "/" EmptyString) in H.
  cbn [append] in H.
  apply cut_at_delimiter in H; [|assumption ..]. destruct H as [-> H].
  apply cut_number in H; [|reflexivity]. destruct H as [-> H].
  apply PixelRegion_str_cut in H. destruct H as [-> H].
  apply PixelSize_str_cut in H. destruct H as [-> H].
  apply append_inv_head in H. injection H as H.
  apply append_inv_head in H. injection H as H.
  auto.
Qed.

Lemma generation_id_tells_requests_apart_witness :
  "42"%string = "42"%string /\ 1 = 1 /\
  rect 0 0 200 100 = rect 0 0 200 100 /\ size 100 50 = size 100 50 /\
  "webp"%string = "webp"%string.
Proof.
  apply (generation_id_tells_requests_apart "42" "42" 1 1
           (rect 0 0 200 100) (rect 0 0 200 100) (size 100 50) (size 100 50)
           "0" "default" "webp" "webp"); reflexivity.
Defined.

(** ** The queue of a worker *)

Lemma same_path_refl (p : WorkerQueue.path) : WorkerQueue.same_path p p = true.
Proof.
  unfold WorkerQueue.same_path.
  destruct (list_eq_dec string_dec p p); [reflexivity | contradiction].
Qed.

Lemma write_text_read (d : WorkerQueue.disk) (p : WorkerQueue.path)
  (text : string) :
  WorkerQueue.write_text d p text p = Some text.
Proof. unfold WorkerQueue.write_text. rewrite same_path_refl. reflexivity. Qed.

(** X13.  The name that [generate_worker_specific_task_queue] returns is
    on the disk afterwards: a later call returns the same name, whatever
    [uuid4] would give then, and leaves the disk as it is; and the worker
    lookup of the workflows, [find_best_worker], answers with that name.  The
    name is the stored one when the file existed, [worker/<uuid>] otherwise,
    and no other file is written. *)
Theorem worker_queue_is_persistent (working_dir : WorkerQueue.path)
  (uuid uuid' : string) (d : WorkerQueue.disk)
  (i : ActivitiesSchema.FindBestWorkerInput.t) :
  let q := fst (WorkerQueue.generate_worker_specific_task_queue working_dir uuid d) in
  let d' := snd (WorkerQueue.generate_worker_specific_task_queue working_dir uuid d) in
  WorkerQueue.generate_worker_specific_task_queue working_dir uuid' d' = (q, d') /\
  WorkerQueue.find_best_worker working_dir d' i =
    Ok {| ActivitiesSchema.FindBestWorkerOutput.task_queue := q |} /\
  q = match d (WorkerQueue.queue_file working_dir) with
      | Some stored => stored
      | None => ("worker/" ++ uuid)%string
      end /\
  (forall p, p <> WorkerQueue.queue_file working_dir -> d' p = d p).
Proof.
  unfold WorkerQueue.generate_worker_specific_task_queue,
    WorkerQueue.find_best_worker, WorkerQueue.get_worker_specific_task_queue.
  destruct (d (WorkerQueue.queue_file working_dir)) as [stored|] eqn:E;
    cbn [fst snd].
  - rewrite E. cbn [bind]. auto.
  - rewrite !write_text_read. cbn [bind].
    split; [reflexivity|]. split; [reflexivity|]. split; [reflexivity|].
    intros p Hp. unfold WorkerQueue.write_text, WorkerQueue.same_path.
    destruct (list_eq_dec string_dec p _); [contradiction | reflexivity].
Qed.

(** ** The pixels behind a region *)

Lemma len_nonneg {A} (l : list A) : 0 <= UploadS3Part.len l.
Proof. unfold UploadS3Part.len. lia. Qed.

(** A slice with bounds inside the list, with no wrap-around. *)
Lemma slice_inside {A} (l : list A) (start n : Z) :
  0 <= start <= UploadS3Part.len l -> 0 <= n ->
  Fits.slice l start (start + n) =
    firstn (Z.to_nat n) (skipn (Z.to_nat start) l) /\
  UploadS3Part.len (Fits.slice l start (start + n)) =
    Z.min n (UploadS3Part.len l - start).
Proof.
  intros Hs Hn. unfold Fits.slice.
  replace (start <? 0) with false by (symmetry; apply Z.ltb_ge; lia).
  replace (start + n <? 0) with false by (symmetry; apply Z.ltb_ge; lia).
  rewrite (Z.min_l start) by lia.
  assert (L : UploadS3Part.len (skipn (Z.to_nat start) l) =
              UploadS3Part.len l - start)
    by (rewrite len_skipn; lia).
  destruct (Z.le_gt_cases (start + n) (UploadS3Part.len l)) as [Hle|Hgt].
  - rewrite (Z.min_l (start + n)) by lia.
    replace (start + n - start) with n by lia.
    split; [reflexivity|]. rewrite len_firstn by lia. lia.
  - rewrite (Z.min_r (start + n)) by lia.
    rewrite !firstn_all2
      by (unfold UploadS3Part.len in *; rewrite length_skipn in *; lia).
    split; [reflexivity|]. lia.
Qed.

Lemma Forall_firstn_skipn {A} (P : A -> Prop) (n m : nat) (l : list A) :
  Forall P l -> Forall P (firstn n (skipn m l)).
Proof.
  intros H. rewrite Forall_forall in *. intros a Hin. apply H.
  rewrite <- (firstn_skipn m l). apply in_or_app. right.
  rewrite <- (firstn_skipn n (skipn m l)). apply in_or_app. left. exact Hin.
Qed.

Lemma normalize_region_Ok_inside org info r :
  Region_valid org -> normalize_region org info = Ok r ->
  0 <= PixelRegion.x r <= width info /\ 0 <= PixelRegion.y r <= height info /\
  1 <= PixelRegion.w r /\ 1 <= PixelRegion.h r.
Proof.
  intros Hv H. unfold normalize_region in H.
  apply bind_Ok_inv in H. destruct H as [norm [Hn H]].
  destruct (_ || _) eqn:E; [discriminate|]. injection H as <-.
  apply orb_false_elim in E. destruct E as [E1 E2].
  rewrite Z.gtb_ltb in E1, E2. apply Z.ltb_ge in E1. apply Z.ltb_ge in E2.
  pose proof (PixelRegion_valid_bounds _ (region_norm_valid _ _ _ Hv Hn)). lia.
Qed.

(** X14.  The rectangle that [create_image_file] cuts out of the frame for
    a region that [normalize_region] accepted: the rows from [y] and the
    columns from [x], as many as asked for or as are left,
    [min(h, height - y)] rows of [min(w, width - x)] pixels, with no
    wrap-around.  A region that starts on the far edge ([x = width] or
    [y = height]) is accepted, and has no pixel. *)
Theorem accepted_region_is_clipped {A : Type} (hdu : Fits.HDU A)
  (org : Region) (info : ImageInfoResponse) (r : PixelRegion.t) :
  Fits.image_hdu hdu (width info) (height info) ->
  Region_valid org ->
  normalize_region org info = Ok r ->
  let c := Fits.cropped (Fits.data hdu) (activity_region r) in
  c = map (fun row => firstn (Z.to_nat (PixelRegion.w r))
                        (skipn (Z.to_nat (PixelRegion.x r)) row))
        (firstn (Z.to_nat (PixelRegion.h r))
           (skipn (Z.to_nat (PixelRegion.y r)) (Fits.data hdu))) /\
  UploadS3Part.len c = Z.min (PixelRegion.h r) (height info - PixelRegion.y r) /\
  Forall (fun row =>
            UploadS3Part.len row =
            Z.min (PixelRegion.w r) (width info - PixelRegion.x r)) c /\
  normalize_region
    (PixelRegion {| PixelRegion.x := width info; PixelRegion.y := 0;
                    PixelRegion.w := 1; PixelRegion.h := 1 |}) info
  = Ok {| PixelRegion.x := width info; PixelRegion.y := 0;
          PixelRegion.w := 1; PixelRegion.h := 1 |}.
Proof.
  intros (Hshape & Hrows & Hcols) Hv Hn c.
  pose proof (normalize_region_Ok_inside _ _ _ Hv Hn) as (Hx & Hy & Hw & Hh).
  unfold c, Fits.cropped, activity_region.
  cbn [ActivitiesSchema.PixelRegion.x ActivitiesSchema.PixelRegion.y
       ActivitiesSchema.PixelRegion.w ActivitiesSchema.PixelRegion.h].
  destruct (slice_inside (Fits.data hdu) (PixelRegion.y r) (PixelRegion.h r))
    as [Ey Ly]; [lia | lia |].
  assert (Hsub : Forall (fun row => UploadS3Part.len row = width info)
                   (Fits.slice (Fits.data hdu) (PixelRegion.y r)
                      (PixelRegion.y r + PixelRegion.h r))).
  { rewrite Ey. apply Forall_firstn_skipn. exact Hcols. }
  split; [|split; [|split]].
  - rewrite <- Ey. apply map_ext_in. intros row Hin.
    rewrite Forall_forall in Hsub.
    apply (slice_inside row (PixelRegion.x r) (PixelRegion.w r));
      [rewrite (Hsub row Hin)|]; lia.
  - unfold UploadS3Part.len at 1. rewrite length_map.
    fold (UploadS3Part.len
            (Fits.slice (Fits.data hdu) (PixelRegion.y r)
               (PixelRegion.y r + PixelRegion.h r))).
    rewrite Ly, Hrows. reflexivity.
  - apply Forall_map. eapply Forall_impl; [|exact Hsub].
    intros row Hrow. cbv beta in Hrow.
    destruct (slice_inside row (PixelRegion.x r) (PixelRegion.w r)) as [_ L];
      [lia | lia |].
    rewrite L, Hrow. reflexivity.
  - unfold normalize_region, region_norm. cbn [bind PixelRegion.x PixelRegion.y].
    rewrite !gtb_false by lia. reflexivity.
Qed.

Lemma accepted_region_is_clipped_witness :
  let c := Fits.cropped [[1; 2; 3]; [4; 5; 6]] (activity_region (rect 1 1 5 5)) in
  c = map (fun row => firstn (Z.to_nat 5) (skipn (Z.to_nat 1) row))
        (firstn (Z.to_nat 5) (skipn (Z.to_nat 1) [[1; 2; 3]; [4; 5; 6]])) /\
  UploadS3Part.len c = Z.min 5 (2 - 1) /\
  Forall (fun row => UploadS3Part.len row = Z.min 5 (3 - 1)) c /\
  normalize_region (PixelRegion (rect 3 0 1 1)) (image 3 2 None None None)
  = Ok (rect 3 0 1 1).
Proof.
  apply (accepted_region_is_clipped
           {| Fits.shape := [2; 3]; Fits.data := [[1; 2; 3]; [4; 5; 6]] |}
           (PixelRegion (rect 1 1 5 5)) (image 3 2 None None None)
           (rect 1 1 5 5)).
  - split; [reflexivity|]. split; [reflexivity|].
    repeat constructor.
  - reflexivity.
  - reflexivity.
Defined.

(** X15.  From the file to the pixels and back: for an image HDU of
    [height] rows of [width] pixels, [get_hdu_dimensions] reports
    [shape[1]] as the width and [shape[0]] as the height, the information
    response built from them makes [full] the rectangle
    [(0, 0, width, height)], and [create_image_file] cuts exactly the data of
    the HDU out for it.  An index with no HDU and an HDU that is not
    two-dimensional are refused with an error that is not retried. *)
Theorem full_region_is_the_whole_image {A : Type} (hdus : list (Fits.HDU A))
  (i : ActivitiesSchema.GetHduDimensionsInput.t) (url : string) :
  let hdu_index := ActivitiesSchema.GetHduDimensionsInput.hdu_index i in
  (forall hdu W H,
     Fits.index hdus hdu_index = Some hdu ->
     Fits.image_hdu hdu W H -> 1 <= W -> 1 <= H ->
     exists doc,
       (d <- Fits.get_hdu_dimensions (Ok hdus) i ;;
        image_information url (workflow_dimensions d)) = Ok doc /\
       width (info doc) = W /\ height (info doc) = H /\
       normalize_region FullRegion (info doc) = Ok (rect 0 0 W H) /\
       Fits.cropped (Fits.data hdu) (activity_region (rect 0 0 W H))
         = Fits.data hdu) /\
  (Fits.index hdus hdu_index = None ->
   Fits.get_hdu_dimensions (Ok hdus) i =
   Raise (ApplicationError ("HDU index " ++ str hdu_index ++ " not found") true)) /\
  (forall hdu,
     Fits.index hdus hdu_index = Some hdu ->
     UploadS3Part.len (Fits.shape hdu) <> 2 ->
     Fits.get_hdu_dimensions (Ok hdus) i =
     Raise (ApplicationError
              ("HDU has an invalid number of dimensions: " ++
               str (UploadS3Part.len (Fits.shape hdu))) true)).
Proof.
  intros hdu_index. split; [|split].
  - intros hdu W H Hi (Hshape & Hrows & Hcols) HW HH.
    unfold Fits.get_hdu_dimensions, Fits._get_hdu_dimensions, Fits._get_hdu.
    fold hdu_index. cbn [bind]. rewrite Hi. cbn [bind]. rewrite Hshape.
    cbn [UploadS3Part.len List.length Z.of_nat Pos.of_succ_nat Pos.succ
         Z.eqb Pos.eqb negb nth bind].
    unfold image_information, workflow_dimensions.
    cbn [WorkflowsSchema.GetFrameDimensionsOutput.width
         WorkflowsSchema.GetFrameDimensionsOutput.height
         ActivitiesSchema.GetHduDimensionsOutput.width
         ActivitiesSchema.GetHduDimensionsOutput.height].
    rewrite (leb_true 1 W), (leb_true 1 H) by lia. cbn [andb].
    eexists. split; [reflexivity|]. cbn [info width height].
    split; [reflexivity|]. split; [reflexivity|]. split.
    + apply normalize_region_Full.
      unfold ImageInfoResponse_valid; simpl. repeat split; lia.
    + unfold Fits.cropped, activity_region, rect.
      cbn [ActivitiesSchema.PixelRegion.x ActivitiesSchema.PixelRegion.y
           ActivitiesSchema.PixelRegion.w ActivitiesSchema.PixelRegion.h
           PixelRegion.x PixelRegion.y PixelRegion.w PixelRegion.h].
      destruct (slice_inside (Fits.data hdu) 0 H) as [Ey _];
        [pose proof (len_nonneg (Fits.data hdu)); lia | lia |].
      rewrite Ey. cbn [Z.to_nat skipn].
      rewrite firstn_all2 by (unfold UploadS3Part.len in Hrows; lia).
      rewrite <- (map_id (Fits.data hdu)) at 2.
      apply map_ext_in. intros row Hin.
      rewrite Forall_forall in Hcols. specialize (Hcols row Hin).
      destruct (slice_inside row 0 W) as [Ex _]; [lia | lia |].
      rewrite Ex. cbn [Z.to_nat skipn].
      apply firstn_all2. unfold UploadS3Part.len in Hcols. lia.
  - intros Hi.
    unfold Fits.get_hdu_dimensions, Fits._get_hdu_dimensions, Fits._get_hdu.
    fold hdu_index. cbn [bind]. rewrite Hi. reflexivity.
  - intros hdu Hi Hn.
    unfold Fits.get_hdu_dimensions, Fits._get_hdu_dimensions, Fits._get_hdu.
    fold hdu_index. cbn [bind]. rewrite Hi. cbn [bind].
    replace (UploadS3Part.len (Fits.shape hdu) =? 2) with false
      by (symmetry; apply Z.eqb_neq; exact Hn).
    reflexivity.
Qed.

Lemma full_region_is_the_whole_image_witness :
  exists doc,
    (d <- Fits.get_hdu_dimensions
            (Ok [ {| Fits.shape := [2; 3]; Fits.data := [[1; 2; 3]; [4; 5; 6]] |} ])
            {| ActivitiesSchema.GetHduDimensionsInput.fits_path := "/work/cache/frame.fits.fz";
               ActivitiesSchema.GetHduDimensionsInput.hdu_index := 0 |} ;;
     image_information "https://iiif/frames/42/fits/hdus/0/info.json"
       (workflow_dimensions d)) = Ok doc /\
    width (info doc) = 3 /\ height (info doc) = 2 /\
    normalize_region FullRegion (info doc) = Ok (rect 0 0 3 2) /\
    Fits.cropped [[1; 2; 3]; [4; 5; 6]] (activity_region (rect 0 0 3 2))
      = [[1; 2; 3]; [4; 5; 6]].
Proof.
  apply (proj1 (full_region_is_the_whole_image
                  [ {| Fits.shape := [2; 3]; Fits.data := [[1; 2; 3]; [4; 5; 6]] |} ]
                  {| ActivitiesSchema.GetHduDimensionsInput.fits_path := "/work/cache/frame.fits.fz";
                     ActivitiesSchema.GetHduDimensionsInput.hdu_index := 0 |}
                  "https://iiif/frames/42/fits/hdus/0/info.json")
           {| Fits.shape := [2; 3]; Fits.data := [[1; 2; 3]; [4; 5; 6]] |} 3 2).
  - reflexivity.
  - split; [reflexivity|]. split; [reflexivity|]. repeat constructor.
  - lia.
  - lia.
Defined.

(** ** The cache of the frame download *)

(** X16.  A request that neither forces the download nor rechecks the
    version, for a frame whose [latest] directory exists, is answered from the
    disk alone: the directory is listed, and either it holds one file, which
    is the answer, marked as cached, or the activity fails with an error that
    is not retried.  The archive is not asked and nothing is written. *)
Theorem cache_hit_stays_on_the_disk (cache_dir : Download.path)
  (ocsarchive_api : string) (i : ActivitiesSchema.DownloadFrameFileInput.t)
  (E : Download.Env) (t : Download.trace) (files : list string) :
  let latest :=
    Download.joinpath (Download.joinpath cache_dir ["completed"%string])
      ["frames"%string; ActivitiesSchema.DownloadFrameFileInput.frame_id i;
       "versions"%string; "latest"%string] in
  let looked :=
    t ++ [Download.Did (Download.path_exists latest);
          Download.Did (Download.listdir latest)] in
  ActivitiesSchema.DownloadFrameFileInput.force_download i = false ->
  ActivitiesSchema.DownloadFrameFileInput.recheck_version i = false ->
  Download.reply E _ t (Download.path_exists latest) = Ok true ->
  Download.reply E _ (t ++ [Download.Did (Download.path_exists latest)])
    (Download.listdir latest) = Ok files ->
  Download.download_frame_file cache_dir ocsarchive_api i E t =
  match files with
  | [name] =>
      (looked ++
       [Download.Did (Download.resolve (Download.joinpath latest [name]))],
       file_path <- Download.reply E _ looked
                      (Download.resolve (Download.joinpath latest [name])) ;;
       Ok {| ActivitiesSchema.DownloadFrameFileOuput.file_path := file_path;
             ActivitiesSchema.DownloadFrameFileOuput.cached := true |})
  | _ =>
      (looked, Raise (ApplicationError "Download cache is in invalid state" true))
  end.
Proof.
  intros latest looked Hf Hr He Hl.
  unfold Download.download_frame_file. rewrite Hf, Hr. cbn [negb andb].
  fold latest.
  unfold Download.bind at 1, Download.await at 1. rewrite He.
  unfold Download.bind at 1, Download.await at 1. rewrite Hl.
  unfold looked. rewrite <- !app_assoc. cbn [app].
  destruct files as [|name [|other files]].
  - reflexivity.
  - cbn [UploadS3Part.len List.length Z.of_nat Pos.of_succ_nat Z.eqb Pos.eqb negb nth].
    unfold Download.located, Download.bind, Download.await, Download.ret.
    rewrite <- !app_assoc. cbn [app].
    match goal with
    | |- context [Download.reply E ?T ?tt ?o] =>
        destruct (Download.reply E T tt o); reflexivity
    end.
  - replace (negb (UploadS3Part.len (name :: other :: files) =? 1)) with true;
      [reflexivity|].
    symmetry. apply negb_true_iff, Z.eqb_neq.
    unfold UploadS3Part.len. cbn [List.length]. lia.
Qed.

Lemma cache_hit_stays_on_the_disk_witness :
  Download.download_frame_file ["work"; "cache"]%string "https://archive/"
    {| ActivitiesSchema.DownloadFrameFileInput.frame_id := "42";
       ActivitiesSchema.DownloadFrameFileInput.force_download := false;
       ActivitiesSchema.DownloadFrameFileInput.recheck_version := false |}
    warm_cache []
  = ([Download.Did
        (Download.path_exists
           ["work"; "cache"; "completed"; "frames"; "42"; "versions"; "latest"]%string);
      Download.Did
        (Download.listdir
           ["work"; "cache"; "completed"; "frames"; "42"; "versions"; "latest"]%string);
      Download.Did
        (Download.resolve
           ["work"; "cache"; "completed"; "frames"; "42"; "versions"; "latest";
            "frame.fits.fz"]%string)],
     Ok {| ActivitiesSchema.DownloadFrameFileOuput.file_path := "/work/cache/frame.fits.fz";
           ActivitiesSchema.DownloadFrameFileOuput.cached := true |}).
Proof.
  apply (cache_hit_stays_on_the_disk ["work"; "cache"]%string "https://archive/"
           {| ActivitiesSchema.DownloadFrameFileInput.frame_id := "42";
              ActivitiesSchema.DownloadFrameFileInput.force_download := false;
              ActivitiesSchema.DownloadFrameFileInput.recheck_version := false |}
           warm_cache [] ["frame.fits.fz"%string]); reflexivity.
Defined.


(** [joinpath] and [parent] on segments of every kind. *)
Lemma joinpath_reads_segments :
  Download.joinpath ["/"; "work"]%string ["night/frame.fits"%string]
    = ["/"; "work"; "night"; "frame.fits"]%string /\
  Download.joinpath ["/"; "work"]%string ["."; ""; "a//b/"; ".."]%string
    = ["/"; "work"; "a"; "b"; ".."]%string /\
  Download.joinpath ["/"; "work"]%string ["/etc"; "passwd"]%string
    = ["/"; "etc"; "passwd"]%string /\
  Download.joinpath ["/"; "work"]%string ["//net/x"]%string
    = ["//"; "net"; "x"]%string /\
  Download.joinpath ["/"; "work"]%string ["///net"]%string
    = ["/"; "net"]%string /\
  Download.parent ["/"%string] = ["/"%string] /\
  Download.parent ["/"; "work"]%string = ["/"%string] /\
  Download.parent ["work"%string] = [].
Proof. repeat split; vm_compute; reflexivity. Qed.

(** Segments that are plain components are added at the end, one part
    each. *)
Lemma segment_parts_plain (segment : string) :
  plain segment = true -> Download.segment_parts segment = [segment].
Proof.
  unfold plain, Download.segment_parts. intros H.
  apply andb_prop in H. destruct H as [H Hdot].
  apply andb_prop in H. destruct H as [Hfree Hempty].
  rewrite (split_no_separator "/"%char segment Hfree).
  cbn [filter]. rewrite Hempty, Hdot. cbn [andb].
  destruct segment as [|c segment]; [reflexivity|].
  cbn [free_of] in Hfree. apply andb_prop in Hfree. destruct Hfree as [Hc _].
  apply negb_true_iff in Hc.
  unfold Download.root_of.
  destruct c as [[] [] [] [] [] [] [] []]; try reflexivity.
  discriminate Hc.
Qed.

Lemma joinpath_plain (p : Download.path) (segments : list string) :
  forallb plain segments = true ->
  Download.joinpath p segments = p ++ segments.
Proof.
  unfold Download.joinpath. revert p.
  induction segments as [|segment segments IH]; intros p H; cbn [fold_left].
  - rewrite app_nil_r. reflexivity.
  - cbn [forallb] in H. apply andb_prop in H. destruct H as [Hs H].
    pose proof Hs as Hp. apply segment_parts_plain in Hp.
    cbv zeta. rewrite Hp. cbn [Download.is_absolute].
    assert (R : Download.is_root segment = false).
    { unfold plain in Hs. unfold Download.is_root.
      destruct (String.eqb_spec segment "/") as [->|_]; [discriminate Hs|].
      destruct (String.eqb_spec segment "//") as [->|_]; [discriminate Hs|].
      reflexivity. }
    rewrite R, (IH _ H), <- app_assoc. reflexivity.
Qed.

Lemma parent_of_file (p : Download.path) (dir name : string) :
  Download.parent (p ++ [dir; name]) = p ++ [dir].
Proof.
  destruct p as [|a [|b p]]; try reflexivity.
  unfold Download.parent. cbn [app].
  replace (a :: b :: p ++ [dir; name]) with ((a :: b :: p ++ [dir]) ++ [name])
    by (cbn [app]; rewrite <- app_assoc; reflexivity).
  rewrite removelast_last. reflexivity.
Qed.

(** The ordinary download: when the frame id, the version id and the name
    are plain components, the file is streamed to
    [inprogress/frames/<id>/versions/<version>/<name>] of the cache, moved to
    the same place under [completed], and [latest] is linked to the
    directory of the version. *)
Lemma fresh_download_plain (E : Download.Env) (cache_dir : Download.path)
  (frame_id : string) (m : Activities.FrameMetadata) :
  let version_id := Download.format E (Activities.version_id m) in
  let name :=
    (Download.format E (Activities.basename m) ++
     Download.format E (Activities.ext m))%string in
  let version_dir := fun tree =>
    cache_dir ++ [tree; "frames"; frame_id; "versions"; version_id]%string in
  let latest :=
    cache_dir ++ ["completed"; "frames"; frame_id; "versions"; "latest"]%string in
  plain frame_id = true -> plain version_id = true -> plain name = true ->
  fresh_download E cache_dir frame_id m =
  [ Download.Did (Download.makedirs (version_dir "inprogress"%string));
    Download.Did
      (Download.stream_to_file (Activities.download_url m)
         (version_dir "inprogress"%string ++ [name]));
    Download.Did (Download.makedirs (version_dir "completed"%string));
    Download.Did
      (Download.rename (version_dir "inprogress"%string ++ [name])
         (version_dir "completed"%string ++ [name]));
    Download.Did (Download.unlink latest);
    Download.Did (Download.symlink (version_dir "completed"%string) latest);
    Download.Did (Download.resolve (version_dir "completed"%string ++ [name])) ].
Proof.
  intros version_id name version_dir latest Hf Hv Hn.
  unfold fresh_download. cbv zeta. fold version_id name.
  assert (J : forall tree, plain tree = true ->
            Download.joinpath (Download.joinpath cache_dir [tree])
              ["frames"%string; frame_id; "versions"%string; version_id; name]
            = (cache_dir ++ [tree; "frames"; frame_id; "versions"]%string)
              ++ [version_id; name]).
  { intros tree Ht. rewrite !joinpath_plain.
    - rewrite <- !app_assoc. reflexivity.
    - cbn [forallb]. rewrite Ht. reflexivity.
    - cbn [forallb]. rewrite Hf, Hv, Hn. reflexivity. }
  rewrite (J "completed"%string eq_refl), (J "inprogress"%string eq_refl).
  rewrite !parent_of_file.
  rewrite (joinpath_plain (Download.joinpath cache_dir ["completed"%string]))
    by (cbn [forallb]; rewrite Hf; reflexivity).
  rewrite joinpath_plain by reflexivity.
  unfold version_dir, latest. rewrite <- !app_assoc. reflexivity.
Qed.



(** ** The unit factor: a size of one hundred percent *)

(** A mantissa of 53 bits is not rounded. *)
Lemma binary_round_aux_53 (s : bool) (m : positive) (e : Z) :
  2 ^ 52 <= Zpos m < 2 ^ 53 -> -1074 <= e <= 971 ->
  binary_round_aux 53 1024 s (Zpos m) e loc_Exact = S754_finite s m e.
Proof.
  intros Hm He.
  assert (Hd : Zdigits2 (Zpos m) = 53) by (apply Zdigits2_unique; simpl; lia).
  unfold binary_round_aux, shr_fexp. rewrite Hd.
  unfold fexp, emin.
  replace (Z.max (53 + e - 53) (3 - 1024 - 53) - e) with 0 by lia.
  cbn [shr shr_record_of_loc shr_m loc_of_shr_record round_nearest_even].
  rewrite Hd.
  replace (Z.max (53 + e - 53) (3 - 1024 - 53) - e) with 0 by lia.
  cbn [shr shr_record_of_loc shr_m].
  rewrite (leb_true e (1024 - 53)) by lia. reflexivity.
Qed.

(** [float(w)] is [w] itself below 2^53: a mantissa of 53 bits. *)
Lemma of_int_exact (w : Z) :
  1 <= w < 2 ^ 53 ->
  exists m e,
    PyFloat.of_int w = Ok (S754_finite false m e) /\
    -52 <= e <= 0 /\ Zpos m = w * 2 ^ (- e) /\ 2 ^ 52 <= Zpos m < 2 ^ 53.
Proof.
  intros Hw. destruct w as [|p|p]; try lia.
  unfold PyFloat.of_int, PyFloat.prec, PyFloat.emax, binary_normalize,
    binary_round.
  pose proof (digits2_pos_bounds p) as Hd.
  set (d := Zpos (digits2_pos p)) in *.
  assert (Hd53 : 1 <= d <= 53).
  { split; [unfold d; lia|].
    destruct (Z.le_gt_cases d 53) as [L|G]; [exact L|].
    pose proof (Z.pow_le_mono_r 2 53 (d - 1) ltac:(lia) ltac:(lia)). lia. }
  unfold fexp, emin. rewrite Z.add_0_r.
  replace (Z.max (d - 53) (3 - 1024 - 53)) with (d - 53) by lia.
  unfold shl_align. rewrite Z.sub_0_r.
  destruct (d - 53) as [|q|q] eqn:Eq; try lia.
  - assert (d = 53) by lia.
    rewrite binary_round_aux_53 by (replace 53 with d at 2 by lia;
                                    replace 52 with (d - 1) by lia; lia).
    exists p, 0. split; [reflexivity|]. split; [lia|]. split; [simpl; lia|].
    replace 53 with d at 2 by lia. replace 52 with (d - 1) by lia. lia.
  - assert (Hs : Zpos (Pos.iter xO p q) = Zpos p * 2 ^ Zpos q).
    { change (Pos.iter xO p q) with (shift_pos q p).
      rewrite shift_pos_correct, Z.pow_pos_fold. ring. }
    assert (Hq : Zpos q = 53 - d) by lia.
    assert (Hp : 2 ^ 52 <= Zpos (Pos.iter xO p q) < 2 ^ 53).
    { rewrite Hs, Hq.
      assert (E52 : 2 ^ 52 = 2 ^ (d - 1) * 2 ^ (53 - d))
        by (rewrite <- Z.pow_add_r by lia; f_equal; lia).
      assert (E53 : 2 ^ 53 = 2 ^ d * 2 ^ (53 - d))
        by (rewrite <- Z.pow_add_r by lia; f_equal; lia).
      rewrite E52, E53.
      assert (HB : 0 < 2 ^ (53 - d)) by (apply Z.pow_pos_nonneg; lia).
      destruct Hd as [Hlo Hhi].
      split; [apply Z.mul_le_mono_nonneg_r | apply Z.mul_lt_mono_pos_r]; lia. }
    rewrite binary_round_aux_53 by (exact Hp || lia).
    exists (Pos.iter xO p q), (Zneg q). split; [reflexivity|].
    split; [lia|]. split; [|exact Hp].
    rewrite Hs. reflexivity.
Qed.

(** [x * 1.0] is [x] for a double with a mantissa of 53 bits. *)
Lemma mul_one (m : positive) (e : Z) :
  2 ^ 52 <= Zpos m < 2 ^ 53 -> -52 <= e <= 0 ->
  PyFloat.mul (S754_finite false m e) (PyFloat.lit 1) = S754_finite false m e.
Proof.
  intros Hm He.
  assert (Hd : digits2_pos m = 53%positive).
  { assert (D : Zdigits2 (Zpos m) = 53) by (apply Zdigits2_unique; simpl; lia).
    simpl in D. injection D as D. exact D. }
  change (PyFloat.lit 1) with (S754_finite false 4503599627370496 (-52)).
  unfold PyFloat.mul, PyFloat.prec, PyFloat.emax, SFmul. cbn [xorb].
  rewrite Pos.mul_comm. cbn [Pos.mul].
  unfold binary_round_aux, shr_fexp at 1.
  cbn [Zdigits2 digits2_pos]. rewrite Hd.
  unfold fexp at 1, emin.
  match goal with
  | |- context [Z.pos ?c + (e + -52) - 53] =>
      let v := eval vm_compute in c in change c with v
  end.
  replace (Z.max (105 + (e + -52) - 53) (3 - 1024 - 53) - (e + -52)) with 52
    by lia.
  cbn [shr shr_record_of_loc iter_pos shr_1 orb shr_m loc_of_shr_record
       round_nearest_even].
  replace (e + -52 + 52) with e by lia.
  unfold shr_fexp. cbn [Zdigits2]. rewrite Hd.
  unfold fexp, emin.
  replace (Z.max (53 + e - 53) (3 - 1024 - 53) - e) with 0 by lia.
  cbn [shr shr_record_of_loc shr_m].
  rewrite (leb_true e (1024 - 53)) by lia. reflexivity.
Qed.

(** [round] of a double that is an integer. *)
Lemma round_of_integer (m : positive) (e w : Z) :
  e <= 0 -> Zpos m = w * 2 ^ (- e) ->
  PyFloat.round (S754_finite false m e) = Ok w.
Proof.
  intros He Hm. unfold PyFloat.round, PyFloat.cond_opp.
  destruct e as [|p|p]; try lia.
  - simpl in Hm. f_equal. lia.
  - change (- Zneg p) with (Zpos p) in Hm.
    assert (Hpos : 0 < 2 ^ Zpos p) by (apply Z.pow_pos_nonneg; lia).
    rewrite Hm, Z.div_mul, Z.mod_mul by lia.
    assert (C : (2 * 0 ?= 2 ^ Zpos p) = Lt) by (apply Z.compare_lt_iff; lia).
    rewrite C. reflexivity.
Qed.

Lemma round_int_mul_one (w : Z) :
  1 <= w < 2 ^ 53 ->
  (p <- PyFloat.int_mul w (PyFloat.lit 1) ;; PyFloat.round p) = Ok w.
Proof.
  intros Hw. destruct (of_int_exact w Hw) as (m & e & Ho & He & Hm & Hb).
  unfold PyFloat.int_mul. rewrite Ho. cbn [bind].
  rewrite mul_one by assumption.
  apply round_of_integer; [lia | exact Hm].
Qed.

(** X18.  A size of one hundred percent is the size of the region, to the
    pixel: for a region below 2^53 pixels each way (and with no limit below
    the region) [pct:100] returns the region's width and height; whether it
    is returned or refused is decided by the checks on that size. *)
Theorem hundred_percent_is_the_region_size (region : PixelRegion.t)
  (info : ImageInfoResponse) (aspect : PyFloat.float) :
  PixelRegion.valid region ->
  PixelRegion.w region < 2 ^ 53 -> PixelRegion.h region < 2 ^ 53 ->
  PyFloat.int_truediv (PixelRegion.w region) (PixelRegion.h region) = Ok aspect ->
  normalize_size (PercentSize false (PyFloat.lit 100)) region info =
    size_checks (size (PixelRegion.w region) (PixelRegion.h region)) region info /\
  (within (PixelRegion.w region) (max_width info) ->
   within (PixelRegion.h region) (max_height info) ->
   within (PixelRegion.w region * PixelRegion.h region) (max_area info) ->
   normalize_size (PercentSize false (PyFloat.lit 100)) region info =
     Ok (size (PixelRegion.w region) (PixelRegion.h region))).
Proof.
  intros Hv Hw Hh Ha.
  apply PixelRegion_valid_bounds in Hv. destruct Hv as (_ & _ & Hw1 & Hh1).
  assert (E : normalize_size (PercentSize false (PyFloat.lit 100)) region info =
              size_checks (size (PixelRegion.w region) (PixelRegion.h region))
                region info).
  { rewrite (normalize_size_simple (PercentSize false (PyFloat.lit 100)) region
               info aspect eq_refl eq_refl Ha).
    unfold size_norm.
    change (PyFloat.truediv_int (PyFloat.lit 100) 100) with (Ok (PyFloat.lit 1)).
    cbn [bind].
    pose proof (round_int_mul_one (PixelRegion.w region) ltac:(lia)) as Rw.
    pose proof (round_int_mul_one (PixelRegion.h region) ltac:(lia)) as Rh.
    apply bind_Ok_inv in Rw. destruct Rw as (pw & Ew & Rw).
    apply bind_Ok_inv in Rh. destruct Rh as (ph & Eh & Rh).
    rewrite Ew. cbn [bind]. rewrite Rw. cbn [bind].
    rewrite Eh. cbn [bind]. rewrite Rh. cbn [bind].
    unfold PixelSize.new, PixelSize.fields_ok.
    rewrite (leb_true 1 (PixelRegion.w region)),
      (leb_true 1 (PixelRegion.h region)) by lia.
    reflexivity. }
  split; [exact E|].
  intros Wm Hm Am. rewrite E. unfold size_checks, size.
  cbn [PixelSize.width PixelSize.height].
  rewrite !gtb_false by lia.
  rewrite (proj2 (over_None _ _) Wm), (proj2 (over_None _ _) Hm),
    (proj2 (over_None _ _) Am).
  reflexivity.
Qed.

Lemma hundred_percent_is_the_region_size_witness :
  normalize_size (PercentSize false (PyFloat.lit 100)) (rect 0 0 200 100)
    (image 200 100 (Some 200) (Some 100) None) =
    size_checks (size 200 100) (rect 0 0 200 100)
      (image 200 100 (Some 200) (Some 100) None) /\
  (within 200 (Some 200) -> within 100 (Some 100) -> within (200 * 100) None ->
   normalize_size (PercentSize false (PyFloat.lit 100)) (rect 0 0 200 100)
     (image 200 100 (Some 200) (Some 100) None) = Ok (size 200 100)).
Proof.
  apply (hundred_percent_is_the_region_size (rect 0 0 200 100)
           (image 200 100 (Some 200) (Some 100) None) (PyFloat.lit 2));
    reflexivity.
Defined.

(** ** The string forms of the normalized rectangle and size *)

Lemma split_at_separator (sep : ascii) (a r : string) :
  free_of sep a = true ->
  Validate.split sep (a ++ String sep r) = a :: Validate.split sep r.
Proof.
  induction a as [|c a IH]; cbn [free_of append Validate.split].
  - intros _. rewrite Ascii.eqb_refl. reflexivity.
  - intros H. apply andb_prop in H. destruct H as [Hc Ha].
    apply negb_true_iff in Hc. rewrite Hc, (IH Ha). reflexivity.
Qed.

Lemma str_starts_without_caret (n : Z) (r : string) :
  Validate.startswith_caret (str n ++ "," ++ r) = false /\
  Validate.removeprefix_caret (str n ++ "," ++ r) = (str n ++ "," ++ r)%string.
Proof.
  pose proof (str_free_of "^" n eq_refl) as F.
  destruct (str n) as [|c s]; cbn [append free_of] in *.
  - split; reflexivity.
  - apply andb_prop in F. destruct F as [Hc _]. apply negb_true_iff in Hc.
    unfold Validate.startswith_caret, Validate.removeprefix_caret.
    rewrite Hc. auto.
Qed.

(** X19.  The string form of a normalized rectangle and of a normalized
    size, the one that goes into the workflow id and into the JSON of the
    model, is read back by the model's own validator as the value it was
    written from, whenever the conversion of the fields reads a printed
    integer as that integer. *)
Theorem printed_values_are_read_back (to_int : string -> option Z) :
  (forall n, to_int (str n) = Some n) ->
  (forall r, PixelRegion.valid r ->
     Validate.PixelRegion_validate to_int (Api.PixelRegion_str r) = Ok r) /\
  (forall s, PixelSize.valid s ->
     Validate.PixelSize_validate to_int (Api.PixelSize_str s) = Ok s).
Proof.
  intros Hint. split.
  - intros r Hv. unfold Validate.PixelRegion_validate, Api.PixelRegion_str.
    change (","%string) with (String "," EmptyString). cbn [append].
    rewrite !split_at_separator by (apply str_free_of; reflexivity).
    rewrite split_no_separator by (apply str_free_of; reflexivity).
    unfold Validate.int_field. rewrite !Hint. cbn [bind].
    unfold PixelRegion.new. unfold PixelRegion.valid in Hv. rewrite Hv.
    destruct r; reflexivity.
  - intros s Hv. unfold Validate.PixelSize_validate, Api.PixelSize_str.
    cbv zeta.
    assert (E : Validate.startswith_caret
                  ((if PixelSize.upscaleable s then "^" else "") ++
                   str (PixelSize.width s) ++ "," ++ str (PixelSize.height s))
                = PixelSize.upscaleable s /\
                Validate.removeprefix_caret
                  ((if PixelSize.upscaleable s then "^" else "") ++
                   str (PixelSize.width s) ++ "," ++ str (PixelSize.height s))
                = (str (PixelSize.width s) ++ "," ++ str (PixelSize.height s))%string).
    { destruct (PixelSize.upscaleable s); cbn [append].
      - split; reflexivity.
      - apply str_starts_without_caret. }
    destruct E as [-> ->].
    change (","%string) with (String "," EmptyString). cbn [append].
    rewrite split_at_separator by (apply str_free_of; reflexivity).
    rewrite split_no_separator by (apply str_free_of; reflexivity).
    unfold Validate.int_field. rewrite !Hint. cbn [bind].
    unfold PixelSize.new. unfold PixelSize.valid in Hv. rewrite Hv.
    destruct s; reflexivity.
Qed.

Lemma int_of_str (n : Z) :
  option_map Z.of_int (NilZero.int_of_string (str n)) = Some n.
Proof.
  unfold str. rewrite NilZero.isi.
  - cbn [option_map]. rewrite DecimalZ.of_to. reflexivity.
  - destruct n; simpl; try discriminate.
    intros E; injection E as E.
    exact (DecimalPos.Unsigned.to_uint_nonnil _ E).
  - destruct n; simpl; try discriminate.
    intros E; injection E as E.
    exact (DecimalPos.Unsigned.to_uint_nonnil _ E).
Qed.

Lemma printed_values_are_read_back_witness :
  Validate.PixelRegion_validate
    (fun s => option_map Z.of_int (NilZero.int_of_string s))
    (Api.PixelRegion_str (rect 0 0 200 100)) = Ok (rect 0 0 200 100).
Proof.
  apply (proj1 (printed_values_are_read_back
                  (fun s => option_map Z.of_int (NilZero.int_of_string s))
                  int_of_str)).
  reflexivity.
Defined.

(** ** The runs of the two workflows, attempt by attempt *)

(** X20.  A run of the dimension pipeline that returns has scheduled the
    worker lookup, then, on the queue that the lookup answered, the download
    of the frame with the two flags of the workflow input as they are, then,
    on the same queue, the reading of the HDU of the input in the file that
    the download answered; the output is the width and the height that the
    reading answered. *)
Theorem successful_dimension_lookup (i : WorkflowsSchema.GetFrameDimensionsInput.t)
  (W : World) (h h' : history) (out : WorkflowsSchema.GetFrameDimensionsOutput.t) :
  GetFrameDimensions._run i W h = (h', Ok out) ->
  exists w f d,
    let q := Some (ActivitiesSchema.FindBestWorkerOutput.task_queue w) in
    let find :=
      find_best_worker
        {| ActivitiesSchema.FindBestWorkerInput.frame_id :=
             WorkflowsSchema.GetFrameDimensionsInput.frame_id i |} in
    let download :=
      download_frame_file_with_workflow
        {| ActivitiesSchema.DownloadFrameFileInput.frame_id :=
             WorkflowsSchema.GetFrameDimensionsInput.frame_id i;
           ActivitiesSchema.DownloadFrameFileInput.force_download :=
             WorkflowsSchema.GetFrameDimensionsInput.force_download i;
           ActivitiesSchema.DownloadFrameFileInput.recheck_version :=
             WorkflowsSchema.GetFrameDimensionsInput.recheck_version i |} in
    let read :=
      get_hdu_dimensions
        {| ActivitiesSchema.GetHduDimensionsInput.fits_path :=
             ActivitiesSchema.DownloadFrameFileOuput.file_path f;
           ActivitiesSchema.GetHduDimensionsInput.hdu_index :=
             WorkflowsSchema.GetFrameDimensionsInput.hdu_index i |} in
    h' = h ++ [Scheduled find None; Scheduled download q; Scheduled read q] /\
    respond W _ h find None = Ok w /\
    respond W _ (h ++ [Scheduled find None]) download q = Ok f /\
    respond W _ (h ++ [Scheduled find None; Scheduled download q]) read q
      = Ok d /\
    out = workflow_dimensions d.
Proof.
  unfold GetFrameDimensions._run, Wf.bind, Wf.execute_activity_method, Wf.ret.
  destruct (respond W _ h _ None) as [w|e] eqn:Hw; [|discriminate].
  match goal with
  | |- context [respond W ?T ?hh (download_frame_file_with_workflow ?a) ?tq] =>
      destruct (respond W T hh (download_frame_file_with_workflow a) tq)
        as [f|e] eqn:Hf; [|discriminate]
  end.
  match goal with
  | |- context [respond W ?T ?hh (get_hdu_dimensions ?a) ?tq] =>
      destruct (respond W T hh (get_hdu_dimensions a) tq)
        as [d|e] eqn:Hd; [|discriminate]
  end.
  intros E; injection E as <- <-.
  exists w, f, d. cbv zeta. rewrite <- !app_assoc in *. cbn [app] in *.
  split; [reflexivity|].
  split; [first [exact Hw | reflexivity]|].
  split; [first [exact Hf | reflexivity]|].
  split; [first [exact Hd | reflexivity] | reflexivity].
Qed.

Lemma successful_dimension_lookup_witness :
  exists w f d,
    let q := Some (ActivitiesSchema.FindBestWorkerOutput.task_queue w) in
    let find :=
      find_best_worker
        {| ActivitiesSchema.FindBestWorkerInput.frame_id := "42" |} in
    let download :=
      download_frame_file_with_workflow
        {| ActivitiesSchema.DownloadFrameFileInput.frame_id := "42";
           ActivitiesSchema.DownloadFrameFileInput.force_download := true;
           ActivitiesSchema.DownloadFrameFileInput.recheck_version := true |} in
    let read :=
      get_hdu_dimensions
        {| ActivitiesSchema.GetHduDimensionsInput.fits_path :=
             ActivitiesSchema.DownloadFrameFileOuput.file_path f;
           ActivitiesSchema.GetHduDimensionsInput.hdu_index := 1 |} in
    fst (GetFrameDimensions._run Scenario.dimensions_request Scenario.all_succeed [])
      = [] ++ [Scheduled find None; Scheduled download q; Scheduled read q] /\
    respond Scenario.all_succeed _ [] find None = Ok w /\
    respond Scenario.all_succeed _ ([] ++ [Scheduled find None]) download q
      = Ok f /\
    respond Scenario.all_succeed _
      ([] ++ [Scheduled find None; Scheduled download q]) read q = Ok d /\
    snd (GetFrameDimensions._run Scenario.dimensions_request Scenario.all_succeed [])
      = Ok (workflow_dimensions d).
Proof.
  destruct (successful_dimension_lookup Scenario.dimensions_request
              Scenario.all_succeed []
              (fst (GetFrameDimensions._run Scenario.dimensions_request
                      Scenario.all_succeed []))
              (workflow_dimensions
                 {| ActivitiesSchema.GetHduDimensionsOutput.width := 200;
                    ActivitiesSchema.GetHduDimensionsOutput.height := 100 |}))
    as (w & f & d & H1 & H0 & H2 & H3 & H4); [reflexivity|].
  exists w, f, d. cbv zeta in *.
  split; [exact H1|]. split; [exact H0|]. split; [exact H2|]. split; [exact H3|].
  rewrite <- H4. reflexivity.
Defined.

Lemma appends_not_delete_transfer tq img mp :
  appends (fun ev => is_delete_file ev = false)
    (Wf.try_except_Exception (CreateImage.transfer tq img mp)
       (CreateImage.compensate mp)).
Proof.
  unfold CreateImage.transfer, CreateImage.compensate.
  repeat appends_step.
Qed.

(** X21.  The encoded file never outlives the attempt that made it: once
    [create_image_file] has answered, whatever happens to the upload (it
    succeeds, a step fails, the workflow is cancelled), the attempt goes on
    with the start of the multipart upload under the key [generated/<sha256>]
    and its last activity is the deletion of that file, on the worker that
    made it; no other deletion is scheduled. *)
Theorem generated_file_is_deleted (i : WorkflowsSchema.CreateImageInput.t)
  (W : World) (h : history) (w : ActivitiesSchema.FindBestWorkerOutput.t)
  (f : ActivitiesSchema.DownloadFrameFileOuput.t)
  (img : ActivitiesSchema.CreateImageFileOutput.t) :
  let q := Some (ActivitiesSchema.FindBestWorkerOutput.task_queue w) in
  let find :=
    find_best_worker
      {| ActivitiesSchema.FindBestWorkerInput.frame_id :=
           WorkflowsSchema.CreateImageInput.frame_id i |} in
  let download :=
    download_frame_file_with_workflow
      {| ActivitiesSchema.DownloadFrameFileInput.frame_id :=
           WorkflowsSchema.CreateImageInput.frame_id i;
         ActivitiesSchema.DownloadFrameFileInput.force_download := false;
         ActivitiesSchema.DownloadFrameFileInput.recheck_version := false |} in
  let create := create_image_file (create_image_file_input i f) in
  let start :=
    start_s3_multipart_upload
      {| ActivitiesSchema.StartS3MultipartUploadInput.object_key :=
           ("generated/" ++ ActivitiesSchema.CreateImageFileOutput.sha256 img)%string |} in
  let delete :=
    delete_file
      {| ActivitiesSchema.DeleteFileInput.file_path :=
           ActivitiesSchema.CreateImageFileOutput.file_path img |} in
  respond W _ h find None = Ok w ->
  respond W _ (h ++ [Scheduled find None]) download q = Ok f ->
  respond W _ (h ++ [Scheduled find None; Scheduled download q]) create q = Ok img ->
  exists mid,
    fst (CreateImage._run i W h) =
      h ++ [Scheduled find None; Scheduled download q; Scheduled create q;
            Scheduled start None] ++ mid ++ [Scheduled delete q] /\
    Forall (fun ev => is_delete_file ev = false) mid.
Proof.
  intros q find download create start delete Hw Hf Hi.
  unfold CreateImage._run.
  unfold Wf.bind at 1, Wf.execute_activity_method at 1. fold find. rewrite Hw.
  unfold Wf.bind at 1, Wf.execute_activity_method at 1. fold q download.
  rewrite Hf. cbv zeta.
  unfold Wf.bind at 1, Wf.execute_activity_method at 1.
  change (create_image_file _) with create.
  rewrite <- app_assoc in *. cbn [app] in *. rewrite Hi.
  assert (U : exists mid,
            fst (CreateImage.upload
                   (ActivitiesSchema.FindBestWorkerOutput.task_queue w) img
                   ("generated/" ++ ActivitiesSchema.CreateImageFileOutput.sha256 img)
                   W (h ++ [Scheduled find None; Scheduled download q;
                            Scheduled create q])) =
            h ++ [Scheduled find None; Scheduled download q; Scheduled create q;
                  Scheduled start None] ++ mid ++ [Scheduled delete q] /\
            Forall (fun ev => is_delete_file ev = false) mid).
  { unfold CreateImage.upload, Wf.try_finally.
    unfold Wf.bind at 1, Wf.execute_activity_method at 1. fold start.
    rewrite <- app_assoc. cbn [app].
    destruct (respond W _ _ start None) as [mp|e].
    - destruct (appends_not_delete_transfer
                  (ActivitiesSchema.FindBestWorkerOutput.task_queue w) img mp W
                  (h ++ [Scheduled find None; Scheduled download q;
                         Scheduled create q; Scheduled start None]))
        as (mid & E & F).
      destruct (Wf.try_except_Exception _ _ W _) as [h2 r]. cbn [fst] in E.
      subst h2. exists mid.
      unfold CreateImage.cleanup, Wf.execute_activity_method. fold delete q.
      destruct (respond W unit _ delete q); cbn [fst];
        rewrite <- !app_assoc; cbn [app]; auto.
    - exists [].
      unfold CreateImage.cleanup, Wf.execute_activity_method. fold delete q.
      destruct (respond W unit _ delete q); cbn [fst];
        rewrite <- !app_assoc; cbn [app]; auto. }
  destruct U as (mid & E & F). exists mid. split; [|exact F].
  unfold Wf.bind at 1, Wf.ret. rewrite <- ?app_assoc. cbn [app].
  match goal with
  | |- context [CreateImage.upload ?a ?b ?c W ?hh] =>
      destruct (CreateImage.upload a b c W hh) as [h2 [fin|e]]
  end; exact E.
Qed.

Lemma generated_file_is_deleted_witness :
  exists mid,
    fst (CreateImage._run Scenario.request Scenario.cancelled_during_finish []) =
      [] ++ [Scenario.find; Scenario.download; Scenario.create; Scenario.start]
         ++ mid ++ [Scenario.delete] /\
    Forall (fun ev => is_delete_file ev = false) mid.
Proof.
  apply (generated_file_is_deleted Scenario.request
           Scenario.cancelled_during_finish []
           {| ActivitiesSchema.FindBestWorkerOutput.task_queue := "worker-1" |}
           {| ActivitiesSchema.DownloadFrameFileOuput.file_path := "/work/cache/frame.fits.fz";
              ActivitiesSchema.DownloadFrameFileOuput.cached := true |}
           Scenario.generated_img); reflexivity.
Defined.

Lemma retry_shell_returned {A} (_run : workflow A) (fuel : nat) :
  forall W h h' a,
    retry_shell fuel _run W h = (h', Ok (Some a)) ->
    exists h0, failed_attempts _run W h h0 /\ _run W h0 = (h', Ok a).
Proof.
  induction fuel as [|fuel IH]; intros W h h' a H; simpl in H.
  - discriminate.
  - destruct (_run W h) as [h1 [a1|e]] eqn:R.
    + injection H as <- <-. exists h. split; [constructor | exact R].
    + assert (Hx : isinstance_Exception e = true /\
                   Wf.bind (Wf.sleep 5) (fun _ => retry_shell fuel _run) W h1
                   = (h', Ok (Some a))).
      { destruct e; simpl in H |- *; try (split; [reflexivity | exact H]).
        discriminate. }
      destruct Hx as [Hex Hs]. clear H.
      unfold Wf.bind, Wf.sleep in Hs.
      destruct (wakes W h1 5) eqn:Hwake; [|discriminate].
      apply IH in Hs. destruct Hs as (h0 & Hfa & Hr).
      exists h0. split; [|exact Hr].
      eapply one_more_attempt; eassumption.
Qed.

(** X22.  What a workflow returns is what one attempt of its pipeline
    returned: when [run] returns, the pipeline ran to its end once, after the
    earlier attempts, each of which raised an [Exception] and was followed by
    the 5-second timer; the history and the value are those of that
    attempt. *)
Theorem run_returns_a_complete_attempt :
  (forall fuel i W h h' out,
     CreateImage.run fuel i W h = (h', Ok (Some out)) ->
     exists h0,
       failed_attempts (CreateImage._run i) W h h0 /\
       CreateImage._run i W h0 = (h', Ok out)) /\
  (forall fuel i W h h' out,
     GetFrameDimensions.run fuel i W h = (h', Ok (Some out)) ->
     exists h0,
       failed_attempts (GetFrameDimensions._run i) W h h0 /\
       GetFrameDimensions._run i W h0 = (h', Ok out)).
Proof.
  split; intros fuel i W h h' out H.
  - unfold CreateImage.run in H. apply retry_shell_returned in H. exact H.
  - unfold GetFrameDimensions.run in H. apply retry_shell_returned in H. exact H.
Qed.
